(** * Passenger SpawningKit: journey tracker, smart spawner and spawn-env setupper

    A shallow embedding of
      - [src/agent/Core/SpawningKit/Journey.h]
      - [src/agent/Core/SpawningKit/SmartSpawner.h]
      - [src/agent/SpawnEnvSetupper/SpawnEnvSetupperMain.cpp]
    together with the properties of the specification that concern them.

    Conventions.  C++ exceptions are values of [Exception]; a function that
    may throw returns a [Result].  [unsigned long long] quantities are [Z]
    with the wrap-around modulo [2^64] written out.  A [std::map] keyed by an
    enum is an association list kept in key order, which is also the order in
    which its iterators visit it. *)

From Stdlib Require Import ZArith Lia.
From stdpp Require Import base decidable option list sorting strings gmap pretty.

Local Open Scope Z_scope.
Local Open Scope string_scope.

(** ** Exceptions *)

(** The exception classes of [Exceptions.h] that the embedded code throws or
    catches.  [SpawnException] carries its payload type as a parameter so
    that the journey can be defined first. *)
Inductive Exception (SpawnExceptionData : Type) : Type :=
  | RuntimeException (what : string)
  | SystemException (what : string) (code : Z)
  | IOException (what : string)
  | SecurityException (what : string)
  | TimeoutException (what : string)
  | ParseException (what : string)
  | ArgumentException (what : string)
  | thread_interrupted
  | SpawnException (e : SpawnExceptionData).

Arguments RuntimeException {_} what.
Arguments SystemException {_} what code.
Arguments IOException {_} what.
Arguments SecurityException {_} what.
Arguments TimeoutException {_} what.
Arguments ParseException {_} what.
Arguments ArgumentException {_} what.
Arguments thread_interrupted {_}.
Arguments SpawnException {_} e.

(** [std::exception::what()] for the classes above that derive from it. *)
Definition what {D} (summaryOf : D -> string) (e : Exception D) : string :=
  match e with
  | RuntimeException w | IOException w | SecurityException w
  | TimeoutException w | ParseException w | ArgumentException w => w
  | SystemException w _ => w
  | thread_interrupted => EmptyString
  | SpawnException d => summaryOf d
  end.

(** Modelled from the spec: the error taxonomy of
    [Core/SpawningKit/Exceptions.h] (not under src/), as listed in §7. *)
Inductive ErrorCategory :=
  | INTERNAL_ERROR
  | OPERATING_SYSTEM_ERROR
  | IO_ERROR
  | TIMEOUT_ERROR
  | UNKNOWN_ERROR_CATEGORY.

(** Modelled from the spec: [toString] of [Utils/StrIntUtils.h] is not under
    src/; the spec's scenarios print integers in decimal ("UID 0 and 501"). *)
Definition toString (z : Z) : string := pretty z.

(** The double-quote and newline characters, for building messages. *)
Definition dq : string := String (Ascii.ascii_of_nat 34) EmptyString.
Definition newline : string := String (Ascii.ascii_of_nat 10) EmptyString.

(** ** Journey.h *)

Module Journey.

Definition MonotonicTimeUsec := Z.

Definition wrap64 (z : Z) : Z := z mod 2 ^ 64.

Inductive JourneyType :=
  | SPAWN_DIRECTLY
  | START_PRELOADER
  | SPAWN_THROUGH_PRELOADER.

Inductive JourneyStep :=
  (* Steps in Passenger Core / SpawningKit *)
  | SPAWNING_KIT_PREPARATION
  | SPAWNING_KIT_FORK_SUBPROCESS
  | SPAWNING_KIT_CONNECT_TO_PRELOADER
  | SPAWNING_KIT_SEND_COMMAND_TO_PRELOADER
  | SPAWNING_KIT_READ_RESPONSE_FROM_PRELOADER
  | SPAWNING_KIT_PARSE_RESPONSE_FROM_PRELOADER
  | SPAWNING_KIT_PROCESS_RESPONSE_FROM_PRELOADER
  | SPAWNING_KIT_HANDSHAKE_PERFORM
  | SPAWNING_KIT_FINISH
  (* Steps in preloader (when spawning a worker process) *)
  | PRELOADER_PREPARATION
  | PRELOADER_FORK_SUBPROCESS
  | PRELOADER_SEND_RESPONSE
  | PRELOADER_FINISH
  (* Steps in subprocess *)
  | SUBPROCESS_BEFORE_FIRST_EXEC
  | SUBPROCESS_SPAWN_ENV_SETUPPER_BEFORE_SHELL
  | SUBPROCESS_OS_SHELL
  | SUBPROCESS_SPAWN_ENV_SETUPPER_AFTER_SHELL
  | SUBPROCESS_EXEC_WRAPPER
  | SUBPROCESS_WRAPPER_PREPARATION
  | SUBPROCESS_APP_LOAD_OR_EXEC
  | SUBPROCESS_PREPARE_AFTER_FORKING_FROM_PRELOADER
  | SUBPROCESS_LISTEN
  | SUBPROCESS_FINISH
  (* Other *)
  | UNKNOWN_JOURNEY_STEP.

Inductive JourneyStepState :=
  | STEP_NOT_STARTED
  | STEP_IN_PROGRESS
  | STEP_PERFORMED
  | STEP_ERRORED
  | UNKNOWN_JOURNEY_STEP_STATE.

#[global] Instance JourneyType_eq_dec : EqDecision JourneyType.
Proof. solve_decision. Defined.
#[global] Instance JourneyStep_eq_dec : EqDecision JourneyStep.
Proof. solve_decision. Defined.
#[global] Instance JourneyStepState_eq_dec : EqDecision JourneyStepState.
Proof. solve_decision. Defined.

(** The integer value of each enumerator: its position in the declaration.
    [std::map<JourneyStep, _>] orders its keys by this value. *)
Definition stepOrd (s : JourneyStep) : nat :=
  match s with
  | SPAWNING_KIT_PREPARATION => 0
  | SPAWNING_KIT_FORK_SUBPROCESS => 1
  | SPAWNING_KIT_CONNECT_TO_PRELOADER => 2
  | SPAWNING_KIT_SEND_COMMAND_TO_PRELOADER => 3
  | SPAWNING_KIT_READ_RESPONSE_FROM_PRELOADER => 4
  | SPAWNING_KIT_PARSE_RESPONSE_FROM_PRELOADER => 5
  | SPAWNING_KIT_PROCESS_RESPONSE_FROM_PRELOADER => 6
  | SPAWNING_KIT_HANDSHAKE_PERFORM => 7
  | SPAWNING_KIT_FINISH => 8
  | PRELOADER_PREPARATION => 9
  | PRELOADER_FORK_SUBPROCESS => 10
  | PRELOADER_SEND_RESPONSE => 11
  | PRELOADER_FINISH => 12
  | SUBPROCESS_BEFORE_FIRST_EXEC => 13
  | SUBPROCESS_SPAWN_ENV_SETUPPER_BEFORE_SHELL => 14
  | SUBPROCESS_OS_SHELL => 15
  | SUBPROCESS_SPAWN_ENV_SETUPPER_AFTER_SHELL => 16
  | SUBPROCESS_EXEC_WRAPPER => 17
  | SUBPROCESS_WRAPPER_PREPARATION => 18
  | SUBPROCESS_APP_LOAD_OR_EXEC => 19
  | SUBPROCESS_PREPARE_AFTER_FORKING_FROM_PRELOADER => 20
  | SUBPROCESS_LISTEN => 21
  | SUBPROCESS_FINISH => 22
  | UNKNOWN_JOURNEY_STEP => 23
  end%nat.

(** Every enumerator, in declaration order. *)
Definition allSteps : list JourneyStep :=
  [ SPAWNING_KIT_PREPARATION; SPAWNING_KIT_FORK_SUBPROCESS;
    SPAWNING_KIT_CONNECT_TO_PRELOADER; SPAWNING_KIT_SEND_COMMAND_TO_PRELOADER;
    SPAWNING_KIT_READ_RESPONSE_FROM_PRELOADER;
    SPAWNING_KIT_PARSE_RESPONSE_FROM_PRELOADER;
    SPAWNING_KIT_PROCESS_RESPONSE_FROM_PRELOADER;
    SPAWNING_KIT_HANDSHAKE_PERFORM; SPAWNING_KIT_FINISH;
    PRELOADER_PREPARATION; PRELOADER_FORK_SUBPROCESS; PRELOADER_SEND_RESPONSE;
    PRELOADER_FINISH;
    SUBPROCESS_BEFORE_FIRST_EXEC; SUBPROCESS_SPAWN_ENV_SETUPPER_BEFORE_SHELL;
    SUBPROCESS_OS_SHELL; SUBPROCESS_SPAWN_ENV_SETUPPER_AFTER_SHELL;
    SUBPROCESS_EXEC_WRAPPER; SUBPROCESS_WRAPPER_PREPARATION;
    SUBPROCESS_APP_LOAD_OR_EXEC;
    SUBPROCESS_PREPARE_AFTER_FORKING_FROM_PRELOADER; SUBPROCESS_LISTEN;
    SUBPROCESS_FINISH; UNKNOWN_JOURNEY_STEP ].

Definition journeyTypeToString (type : JourneyType) : string :=
  match type with
  | SPAWN_DIRECTLY => "SPAWN_DIRECTLY"
  | START_PRELOADER => "START_PRELOADER"
  | SPAWN_THROUGH_PRELOADER => "SPAWN_THROUGH_PRELOADER"
  end.

Definition journeyStepToString (step : JourneyStep) : string :=
  match step with
  | SPAWNING_KIT_PREPARATION => "SPAWNING_KIT_PREPARATION"
  | SPAWNING_KIT_FORK_SUBPROCESS => "SPAWNING_KIT_FORK_SUBPROCESS"
  | SPAWNING_KIT_CONNECT_TO_PRELOADER => "SPAWNING_KIT_CONNECT_TO_PRELOADER"
  | SPAWNING_KIT_SEND_COMMAND_TO_PRELOADER =>
      "SPAWNING_KIT_SEND_COMMAND_TO_PRELOADER"
  | SPAWNING_KIT_READ_RESPONSE_FROM_PRELOADER =>
      "SPAWNING_KIT_READ_RESPONSE_FROM_PRELOADER"
  | SPAWNING_KIT_PARSE_RESPONSE_FROM_PRELOADER =>
      "SPAWNING_KIT_PARSE_RESPONSE_FROM_PRELOADER"
  | SPAWNING_KIT_PROCESS_RESPONSE_FROM_PRELOADER =>
      "SPAWNING_KIT_PROCESS_RESPONSE_FROM_PRELOADER"
  | SPAWNING_KIT_HANDSHAKE_PERFORM => "SPAWNING_KIT_HANDSHAKE_PERFORM"
  | SPAWNING_KIT_FINISH => "SPAWNING_KIT_FINISH"
  | PRELOADER_PREPARATION => "PRELOADER_PREPARATION"
  | PRELOADER_FORK_SUBPROCESS => "PRELOADER_FORK_SUBPROCESS"
  | PRELOADER_SEND_RESPONSE => "PRELOADER_SEND_RESPONSE"
  | PRELOADER_FINISH => "PRELOADER_FINISH"
  | SUBPROCESS_BEFORE_FIRST_EXEC => "SUBPROCESS_BEFORE_FIRST_EXEC"
  | SUBPROCESS_SPAWN_ENV_SETUPPER_BEFORE_SHELL =>
      "SUBPROCESS_SPAWN_ENV_SETUPPER_BEFORE_SHELL"
  | SUBPROCESS_OS_SHELL => "SUBPROCESS_OS_SHELL"
  | SUBPROCESS_SPAWN_ENV_SETUPPER_AFTER_SHELL =>
      "SUBPROCESS_SPAWN_ENV_SETUPPER_AFTER_SHELL"
  | SUBPROCESS_EXEC_WRAPPER => "SUBPROCESS_EXEC_WRAPPER"
  | SUBPROCESS_WRAPPER_PREPARATION => "SUBPROCESS_WRAPPER_PREPARATION"
  | SUBPROCESS_APP_LOAD_OR_EXEC => "SUBPROCESS_APP_LOAD_OR_EXEC"
  | SUBPROCESS_PREPARE_AFTER_FORKING_FROM_PRELOADER =>
      "SUBPROCESS_PREPARE_AFTER_FORKING_FROM_PRELOADER"
  | SUBPROCESS_LISTEN => "SUBPROCESS_LISTEN"
  | SUBPROCESS_FINISH => "SUBPROCESS_FINISH"
  | UNKNOWN_JOURNEY_STEP => "UNKNOWN_JOURNEY_STEP"
  end.

Definition journeyStepStateToString (state : JourneyStepState) : string :=
  match state with
  | STEP_NOT_STARTED => "STEP_NOT_STARTED"
  | STEP_IN_PROGRESS => "STEP_IN_PROGRESS"
  | STEP_PERFORMED => "STEP_PERFORMED"
  | STEP_ERRORED => "STEP_ERRORED"
  | UNKNOWN_JOURNEY_STEP_STATE => "UNKNOWN_JOURNEY_STEP_STATE"
  end.

Definition stringToJourneyStepState (value : string) : JourneyStepState :=
  if String.eqb value "STEP_NOT_STARTED" then STEP_NOT_STARTED
  else if String.eqb value "STEP_IN_PROGRESS" then STEP_IN_PROGRESS
  else if String.eqb value "STEP_PERFORMED" then STEP_PERFORMED
  else if String.eqb value "STEP_ERRORED" then STEP_ERRORED
  else UNKNOWN_JOURNEY_STEP_STATE.

Definition getFirstSubprocessJourneyStep : JourneyStep :=
  SUBPROCESS_BEFORE_FIRST_EXEC.
Definition getLastSubprocessJourneyStep : JourneyStep := SUBPROCESS_FINISH.

Record JourneyStepInfo := mkJourneyStepInfo {
  state : JourneyStepState;
  startTime : MonotonicTimeUsec;
  endTime : MonotonicTimeUsec
}.

#[global] Instance JourneyStepInfo_eq_dec : EqDecision JourneyStepInfo.
Proof. solve_decision. Defined.

(** [JourneyStepInfo(JourneyStepState _state = STEP_NOT_STARTED)] *)
Definition newJourneyStepInfo (_state : JourneyStepState) : JourneyStepInfo :=
  mkJourneyStepInfo _state 0 0.

Definition usecDuration (info : JourneyStepInfo) : Z :=
  wrap64 (endTime info - startTime info).

(** [typedef map<JourneyStep, JourneyStepInfo> Map]: entries in ascending
    key order. *)
Definition Map := list (JourneyStep * JourneyStepInfo).

(** [std::map::insert]: keeps the key order and leaves an existing entry
    untouched. *)
Fixpoint map_insert (k : JourneyStep) (v : JourneyStepInfo) (m : Map) : Map :=
  match m with
  | [] => [(k, v)]
  | (k', v') :: rest =>
      if decide (k = k') then m
      else if (stepOrd k <? stepOrd k')%nat then (k, v) :: m
      else (k', v') :: map_insert k v rest
  end.

(** [std::map::find]; [None] stands for the [end()] iterator. *)
Fixpoint map_find (k : JourneyStep) (m : Map) : option JourneyStepInfo :=
  match m with
  | [] => None
  | (k', v') :: rest => if decide (k = k') then Some v' else map_find k rest
  end.

(** Assignment through the reference that [getStepInfoMutable] returns. *)
Fixpoint map_assign (k : JourneyStep) (v : JourneyStepInfo) (m : Map) : Map :=
  match m with
  | [] => []
  | (k', v') :: rest =>
      if decide (k = k') then (k', v) :: rest
      else (k', v') :: map_assign k v rest
  end.

Record Journey := mkJourney {
  type : JourneyType;
  usingWrapper : bool;
  steps : Map
}.

Definition Exn := Exception Empty_set.
Definition Result (A : Type) := sum Exn A.

Definition insertStep (step : JourneyStep) (m : Map) : Map :=
  map_insert step (newJourneyStepInfo STEP_NOT_STARTED) m.

(** Runs a sequence of [insertStep] calls, first to last. *)
Definition insertSteps (l : list JourneyStep) (m : Map) : Map :=
  foldl (fun acc step => insertStep step acc) m l.

Definition fillInStepsForSpawnDirectlyJourney (usingWrapper : bool) (m : Map)
    : Map :=
  let m := insertSteps [SPAWNING_KIT_PREPARATION; SPAWNING_KIT_FORK_SUBPROCESS;
                        SPAWNING_KIT_HANDSHAKE_PERFORM; SPAWNING_KIT_FINISH] m in
  let m := insertSteps [SUBPROCESS_BEFORE_FIRST_EXEC;
                        SUBPROCESS_SPAWN_ENV_SETUPPER_BEFORE_SHELL;
                        SUBPROCESS_OS_SHELL;
                        SUBPROCESS_SPAWN_ENV_SETUPPER_AFTER_SHELL] m in
  let m := if usingWrapper
           then insertSteps [SUBPROCESS_EXEC_WRAPPER;
                             SUBPROCESS_WRAPPER_PREPARATION] m
           else m in
  insertSteps [SUBPROCESS_APP_LOAD_OR_EXEC; SUBPROCESS_LISTEN;
               SUBPROCESS_FINISH] m.

Definition fillInStepsForPreloaderStartJourney (usingWrapper : bool) (m : Map)
    : Map :=
  let m := insertSteps [SPAWNING_KIT_PREPARATION; SPAWNING_KIT_FORK_SUBPROCESS;
                        SPAWNING_KIT_HANDSHAKE_PERFORM; SPAWNING_KIT_FINISH] m in
  let m := insertSteps [SUBPROCESS_BEFORE_FIRST_EXEC;
                        SUBPROCESS_SPAWN_ENV_SETUPPER_BEFORE_SHELL;
                        SUBPROCESS_OS_SHELL;
                        SUBPROCESS_SPAWN_ENV_SETUPPER_AFTER_SHELL] m in
  let m := if usingWrapper
           then insertSteps [SUBPROCESS_EXEC_WRAPPER;
                             SUBPROCESS_WRAPPER_PREPARATION] m
           else m in
  insertSteps [SUBPROCESS_APP_LOAD_OR_EXEC; SUBPROCESS_LISTEN;
               SUBPROCESS_FINISH] m.

Definition fillInStepsForSpawnThroughPreloaderJourney (m : Map) : Map :=
  let m := insertSteps [SPAWNING_KIT_PREPARATION;
                        SPAWNING_KIT_CONNECT_TO_PRELOADER;
                        SPAWNING_KIT_SEND_COMMAND_TO_PRELOADER;
                        SPAWNING_KIT_READ_RESPONSE_FROM_PRELOADER;
                        SPAWNING_KIT_PARSE_RESPONSE_FROM_PRELOADER;
                        SPAWNING_KIT_PROCESS_RESPONSE_FROM_PRELOADER;
                        SPAWNING_KIT_HANDSHAKE_PERFORM;
                        SPAWNING_KIT_FINISH] m in
  let m := insertSteps [PRELOADER_PREPARATION; PRELOADER_FORK_SUBPROCESS;
                        PRELOADER_SEND_RESPONSE; PRELOADER_FINISH] m in
  insertSteps [SUBPROCESS_PREPARE_AFTER_FORKING_FROM_PRELOADER;
               SUBPROCESS_LISTEN; SUBPROCESS_FINISH] m.

(** The constructor [Journey(JourneyType _type, bool _usingWrapper)].  The
    [default:] arm of its [switch] cannot be reached from a [JourneyType]. *)
Definition newJourney (_type : JourneyType) (_usingWrapper : bool) : Journey :=
  mkJourney _type _usingWrapper
    match _type with
    | SPAWN_DIRECTLY => fillInStepsForSpawnDirectlyJourney _usingWrapper []
    | START_PRELOADER => fillInStepsForPreloaderStartJourney _usingWrapper []
    | SPAWN_THROUGH_PRELOADER => fillInStepsForSpawnThroughPreloaderJourney []
    end.

Definition getType (j : Journey) : JourneyType := type j.

Definition hasStep (j : Journey) (step : JourneyStep) : bool :=
  bool_decide (is_Some (map_find step (steps j))).

Definition invalidStep (step : JourneyStep) : Exn :=
  RuntimeException ("Invalid step " ++ journeyStepToString step).

Definition getStepInfo (j : Journey) (step : JourneyStep)
    : Result JourneyStepInfo :=
  match map_find step (steps j) with
  | None => inl (invalidStep step)
  | Some info => inr info
  end.

Definition getStepInfoMutable := getStepInfo.

(** Writes [info] back through the reference obtained for [step]. *)
Definition storeStepInfo (j : Journey) (step : JourneyStep)
    (info : JourneyStepInfo) : Journey :=
  mkJourney (type j) (usingWrapper j) (map_assign step info (steps j)).

(** The [for] loop of [getFirstFailedStep], over the map in iteration
    order. *)
Fixpoint firstErrored (m : Map) : JourneyStep :=
  match m with
  | [] => UNKNOWN_JOURNEY_STEP
  | (k, v) :: rest =>
      if decide (state v = STEP_ERRORED) then k else firstErrored rest
  end.

Definition getFirstFailedStep (j : Journey) : JourneyStep :=
  firstErrored (steps j).

Definition notInProgressMsg (step : JourneyStep) : string :=
  "Unable to change state for journey step " ++ journeyStepToString step
  ++ " because it wasn't already in progress".

(** The mutators.  [now] is the value that
    [SystemTime::getMonotonicUsecWithGranularity<GRAN_10MSEC>()] yields if
    the mutator reads the clock. *)
Definition setStepNotStarted (step : JourneyStep) (force : bool)
    (j : Journey) : Result Journey :=
  match getStepInfoMutable j step with
  | inl e => inl e
  | inr info =>
      if bool_decide (state info = STEP_NOT_STARTED)
         || bool_decide (state info = STEP_IN_PROGRESS) || force
      then inr (storeStepInfo j step
                  (mkJourneyStepInfo STEP_NOT_STARTED 0 (endTime info)))
      else inl (RuntimeException (notInProgressMsg step))
  end.

Definition setStepInProgress (now : MonotonicTimeUsec) (step : JourneyStep)
    (force : bool) (j : Journey) : Result Journey :=
  match getStepInfoMutable j step with
  | inl e => inl e
  | inr info =>
      if bool_decide (state info = STEP_IN_PROGRESS) then inr j
      else if bool_decide (state info = STEP_NOT_STARTED) || force then
        (* When [force] is true, the previous endTime is not overwritten. *)
        inr (storeStepInfo j step
               (mkJourneyStepInfo STEP_IN_PROGRESS
                  (if bool_decide (endTime info = 0) then now
                   else startTime info)
                  (endTime info)))
      else inl (RuntimeException
                  ("Unable to change state for journey step "
                   ++ journeyStepToString step
                   ++ " because it was already in progress or completed"))
  end.

Definition setStepPerformed (now : MonotonicTimeUsec) (step : JourneyStep)
    (force : bool) (j : Journey) : Result Journey :=
  match getStepInfoMutable j step with
  | inl e => inl e
  | inr info =>
      if bool_decide (state info = STEP_PERFORMED) then inr j
      else if bool_decide (state info = STEP_IN_PROGRESS) || true then
        inr (storeStepInfo j step
               (mkJourneyStepInfo STEP_PERFORMED (startTime info)
                  (if bool_decide (endTime info = 0) then now
                   else endTime info)))
      else inl (RuntimeException (notInProgressMsg step))
  end.

Definition setStepErrored (now : MonotonicTimeUsec) (step : JourneyStep)
    (force : bool) (j : Journey) : Result Journey :=
  match getStepInfoMutable j step with
  | inl e => inl e
  | inr info =>
      if bool_decide (state info = STEP_ERRORED) then inr j
      else if bool_decide (state info = STEP_IN_PROGRESS) || force then
        inr (storeStepInfo j step
               (mkJourneyStepInfo STEP_ERRORED (startTime info)
                  (if bool_decide (endTime info = 0) then now
                   else endTime info)))
      else inl (RuntimeException (notInProgressMsg step))
  end.

Definition setStepExecutionDuration (step : JourneyStep) (usecDuration : Z)
    (j : Journey) : Result Journey :=
  match getStepInfoMutable j step with
  | inl e => inl e
  | inr info =>
      inr (storeStepInfo j step (mkJourneyStepInfo (state info) 0 usecDuration))
  end.

(** The state of a populated step, [None] when the step is absent. *)
Definition stepState (j : Journey) (step : JourneyStep)
    : option JourneyStepState :=
  state <$> map_find step (steps j).

End Journey.

(** ** SmartSpawner.h *)

Module SmartSpawner.
Import Journey.

Definition pid_t := Z.
Definition uid_t := Z.

(** [(uid_t) -1] for the 32-bit unsigned [uid_t]. *)
Definition uid_minus_one : uid_t := 2 ^ 32 - 1.

(** The two members of [Config] that the embedded code reads or writes. *)
Record Config := mkConfig {
  appRoot : string;
  spawnMethod : string
}.

(** Modelled from the spec: the [SpawnException] class of
    [Core/SpawningKit/Exceptions.h] is not under src/.  §7: every
    SpawnException carries category, journey snapshot, summary,
    advanced-problem-details, problem-HTML, solution-HTML, optional captured
    stdout/stderr, and an annotations map.  The setters of the source assign
    the corresponding field. *)
Record SpawnExceptionData := mkSpawnExceptionData {
  category : ErrorCategory;
  journey : Journey;
  config : Config;
  summary : string;
  advancedProblemDetails : string;
  problemDescriptionHTML : string;
  solutionDescriptionHTML : string;
  stdoutAndErrData : option string;
  annotations : gmap string string
}.

Definition Exn := Exception SpawnExceptionData.

(** Journey.h throws [RuntimeException] only; this is the same exception
    seen at the spawner's exception type. *)
Definition liftExn (e : Journey.Exn) : Exn :=
  match e with
  | RuntimeException w => RuntimeException w
  | SystemException w c => SystemException w c
  | IOException w => IOException w
  | SecurityException w => SecurityException w
  | TimeoutException w => TimeoutException w
  | ParseException w => ParseException w
  | ArgumentException w => ArgumentException w
  | thread_interrupted => thread_interrupted
  | SpawnException d => match d with end
  end.

(** What a [throw] statement can carry.  [PreloaderCrashed] is a plain struct
    that does not derive from [std::exception]; it owns a copy of the
    [SystemException] or [IOException] it was built from. *)
Inductive Thrown :=
  | Exc (e : Exn)
  | PreloaderCrashed (e : Exn).

Definition getException (crash : Exn) : Exn := crash.

(** A minimal [Json::Value]. *)
#[warnings="-register-all"]
Inductive Json :=
  | JNull
  | JBool (b : bool)
  | JInt (z : Z)
  | JString (s : string)
  | JArray (l : list Json)
  | JObject (members : list (string * Json)).

Definition isObject (doc : Json) : bool :=
  match doc with JObject _ => true | _ => false end.
Definition isString (doc : Json) : bool :=
  match doc with JString _ => true | _ => false end.
(** [isInt()]: an integer that fits the C [int]. *)
Definition isInt (doc : Json) : bool :=
  match doc with
  | JInt z => bool_decide (- 2 ^ 31 <= z < 2 ^ 31)
  | _ => false
  end.

Fixpoint assoc (key : string) (l : list (string * Json)) : option Json :=
  match l with
  | [] => None
  | (k, v) :: rest => if String.eqb key k then Some v else assoc key rest
  end.

Definition isMember (doc : Json) (key : string) : bool :=
  match doc with
  | JObject l => bool_decide (is_Some (assoc key l))
  | _ => false
  end.

(** [doc[key]] on a const value: the member, or null when absent. *)
Definition member (doc : Json) (key : string) : Json :=
  match doc with
  | JObject l => default JNull (assoc key l)
  | _ => JNull
  end.

Definition asString (doc : Json) : string :=
  match doc with JString s => s | _ => EmptyString end.
Definition asInt (doc : Json) : Z :=
  match doc with JInt z => z | _ => 0 end.

(** Helpers and constants that the header uses and that live elsewhere
    ([Constants.h], [Utils/*.h], jsoncpp's reader and writers, the exception
    header).  They are parameters of the model. *)
Record Externals := mkExternals {
  PROGRAM_NAME : string;
  SHORT_PROGRAM_NAME : string;
  SUPPORT_URL : string;
  escapeHTML : string -> string;
  reader_parse : string -> option Json;
  stringifyJson : Json -> string;
  toStyledString : Json -> string;
  inferErrorCategoryFromAnotherException : Exn -> ErrorCategory;
  finalize : SpawnExceptionData -> SpawnExceptionData;
  (** [Some filename] when [getSocketAddressType(address) == SAT_UNIX],
      with [filename = parseUnixSocketAddress(address)]. *)
  unixSocketFilename : string -> option string;
  (** The successive readings of the monotonic clock. *)
  clock : nat -> MonotonicTimeUsec
}.

Definition summaryOf (d : SpawnExceptionData) : string := summary d.
Definition whatOf (e : Exn) : string := what summaryOf e.

(** The constructor [SpawnException(category, journey, config)]. *)
Definition newSpawnException (c : ErrorCategory) (j : Journey) (cfg : Config)
    : SpawnExceptionData :=
  mkSpawnExceptionData c j cfg EmptyString EmptyString EmptyString
    EmptyString None ∅.

(** The constructor [SpawnException(originalException, journey, config)].
    Modelled from the spec (§7): the category is inferred from the underlying
    exception kind and the exception's message becomes the summary. *)
Definition wrapSpawnException (X : Externals) (original : Exn) (j : Journey)
    (cfg : Config) : SpawnExceptionData :=
  mkSpawnExceptionData (inferErrorCategoryFromAnotherException X original)
    j cfg (whatOf original) (whatOf original) EmptyString EmptyString None ∅.

Definition setSummary (s : string) (e : SpawnExceptionData) :=
  mkSpawnExceptionData (category e) (journey e) (config e) s
    (advancedProblemDetails e) (problemDescriptionHTML e)
    (solutionDescriptionHTML e) (stdoutAndErrData e) (annotations e).
Definition setProblemDescriptionHTML (s : string) (e : SpawnExceptionData) :=
  mkSpawnExceptionData (category e) (journey e) (config e) (summary e)
    (advancedProblemDetails e) s
    (solutionDescriptionHTML e) (stdoutAndErrData e) (annotations e).
Definition setSolutionDescriptionHTML (s : string) (e : SpawnExceptionData) :=
  mkSpawnExceptionData (category e) (journey e) (config e) (summary e)
    (advancedProblemDetails e) (problemDescriptionHTML e)
    s (stdoutAndErrData e) (annotations e).
Definition setStdoutAndErrData (s : string) (e : SpawnExceptionData) :=
  mkSpawnExceptionData (category e) (journey e) (config e) (summary e)
    (advancedProblemDetails e) (problemDescriptionHTML e)
    (solutionDescriptionHTML e) (Some s) (annotations e).
(** [setAnnotation(name, value, overwrite)] *)
Definition setAnnotation (name value : string) (overwrite : bool)
    (e : SpawnExceptionData) :=
  mkSpawnExceptionData (category e) (journey e) (config e) (summary e)
    (advancedProblemDetails e) (problemDescriptionHTML e)
    (solutionDescriptionHTML e) (stdoutAndErrData e)
    (if overwrite || bool_decide (annotations e !! name = None)
     then <[name := value]> (annotations e) else annotations e).

(** *** State *)

Definition FileDescriptor := Z.

(** The effects on other processes and on the file system, in the order in
    which they happen. *)
Inductive Event :=
  | EvConnect (address : string)
  | EvWrite (doc : Json)
  | EvKillAndWaitpid (pid : pid_t)
  | EvClosePreloaderStdin
  | EvTimedWaitpid (pid : pid_t)
  | EvSigkill (pid : pid_t)
  | EvWaitpid (pid : pid_t)
  | EvUnlink (filename : string)
  | EvPreloaderStarted (pid : pid_t)
  | EvCapturerStart (pid : pid_t)
  | EvCapturerStop (pid : pid_t)
  | EvUsleep (usec : Z).

(** [BackgroundIOCapturerPtr]: a shared pointer, [None] when null. *)
Definition BackgroundIOCapturerPtr := option pid_t.

Record HandshakeSession := mkHandshakeSession {
  s_config : Config;
  s_journey : Journey;
  s_uid : uid_t;
  s_timeoutUsec : Z;
  s_workDirPath : string;
  s_responseDir : string
}.

Record St := mkSt {
  session : HandshakeSession;
  (* the fields of the spawner object *)
  preloaderAnnotations : gmap string string;
  pid : pid_t;
  preloaderStdinOpen : bool;
  socketAddress : string;
  m_lastUsed : Z;
  (* the world *)
  trace : list Event;
  ticks : nat
}.

Definition withSession (f : HandshakeSession -> HandshakeSession) (s : St) : St :=
  mkSt (f (session s)) (preloaderAnnotations s) (pid s) (preloaderStdinOpen s)
    (socketAddress s) (m_lastUsed s) (trace s) (ticks s).
Definition withJourney (j : Journey) : St -> St :=
  withSession (fun h => mkHandshakeSession (s_config h) j (s_uid h)
                          (s_timeoutUsec h) (s_workDirPath h) (s_responseDir h)).
Definition withTimeoutUsec (t : Z) : St -> St :=
  withSession (fun h => mkHandshakeSession (s_config h) (s_journey h) (s_uid h)
                          t (s_workDirPath h) (s_responseDir h)).
Definition logEvent (ev : Event) (s : St) : St :=
  mkSt (session s) (preloaderAnnotations s) (pid s) (preloaderStdinOpen s)
    (socketAddress s) (m_lastUsed s) (trace s ++ [ev]) (ticks s).
Definition tick (s : St) : St :=
  mkSt (session s) (preloaderAnnotations s) (pid s) (preloaderStdinOpen s)
    (socketAddress s) (m_lastUsed s) (trace s) (S (ticks s)).
Definition withPreloader (ann : gmap string string) (p : pid_t) (stdinOpen : bool)
    (addr : string) (s : St) : St :=
  mkSt (session s) ann p stdinOpen addr (m_lastUsed s) (trace s) (ticks s).

(** Ways in which the process stops without an exception. *)
Inductive Fault :=
  | NullPointerDereference (expr : string)
  | AssertionFailed (expr : string).

Inductive Outcome (A : Type) :=
  | Returns (a : A) (s : St)
  | Throws (t : Thrown) (s : St)
  | Aborts (f : Fault) (s : St).
Arguments Returns {A} a s.
Arguments Throws {A} t s.
Arguments Aborts {A} f s.

Definition M (A : Type) := St -> Outcome A.

Definition ret {A} (a : A) : M A := fun s => Returns a s.
Definition bind {A B} (m : M A) (k : A -> M B) : M B :=
  fun s => match m s with
           | Returns a s' => k a s'
           | Throws t s' => Throws t s'
           | Aborts f s' => Aborts f s'
           end.
Definition throw {A} (t : Thrown) : M A := fun s => Throws t s.
Definition abort {A} (f : Fault) : M A := fun s => Aborts f s.
Definition get : M St := fun s => Returns s s.
Definition modify (f : St -> St) : M unit := fun s => Returns tt (f s).
(** [try { body } catch (...) { handler }]; the handler rethrows what the
    source's catch clauses do not match. *)
Definition try_catch {A} (body : M A) (handler : Thrown -> M A) : M A :=
  fun s => match body s with
           | Throws t s' => handler t s'
           | o => o
           end.
(** A [ScopeGuard] that is cleared just before the normal return: its action
    runs when the scope is left by an exception. *)
Definition scopeGuard {A} (action : M unit) (body : M A) : M A :=
  try_catch body (fun t => bind action (fun _ => throw t)).
(** A [ScopeGuard] that is never cleared: its action runs on every exit. *)
Definition scopeExit {A} (action : M unit) (body : M A) : M A :=
  bind (scopeGuard action body) (fun a => bind action (fun _ => ret a)).

Declare Scope spawn_scope.
Delimit Scope spawn_scope with spawn.
Notation "'do' x <- m ; k" := (bind m (fun x => k))
  (at level 10, x name, m at level 100, k at level 200) : spawn_scope.
Notation "'run' m ; k" := (bind m (fun _ => k))
  (at level 10, m at level 100, k at level 200) : spawn_scope.
Local Open Scope spawn_scope.

Definition emit (ev : Event) : M unit := modify (logEvent ev).

(** A call of a journey mutator on [session.journey]. *)
Definition journeyCall (X : Externals)
    (f : MonotonicTimeUsec -> Journey -> Journey.Result Journey) : M unit :=
  fun s => match f (clock X (ticks s)) (s_journey (session s)) with
           | inl e => Throws (Exc (liftExn e)) s
           | inr j' => Returns tt (tick (withJourney j' s))
           end.

Definition nonInterruptableKillAndWaitpid (p : pid_t) : M unit :=
  emit (EvKillAndWaitpid p).

Definition preloaderStarted (s : St) : bool := negb (bool_decide (pid s = -1)).

(** *** Outcomes of the calls that leave the process

    Every call into the operating system, the preloader or the child is
    answered by the environment.  One [ForkIO] holds the answers to one run of
    [internalInvokeForkCommand].  The time that [writeExact] and [readLine]
    take off [session.timeoutUsec] happens inside [Utils/IOUtils.h] and
    [Utils/BufferedIO.h] and is not part of the model; the time that
    [openFifoWithTimeout] takes off it is. *)

(** How [thr.try_join_for(timeout)] on the FIFO opener thread ends. *)
Inductive FifoOutcome :=
  | FifoJoined (fd : FileDescriptor) (errcode : Z)
  | FifoTimedOut
  | FifoInterrupted
  | FifoSystemError (what : string) (code : Z).

Record ForkIO := mkForkIO {
  io_connect : sum Exn FileDescriptor;
  io_write : option Exn;
  (** the bytes the preloader sends back, or the error of the read *)
  io_read : sum Exn string;
  io_stdinExists : bool;
  io_stdinOpen : FifoOutcome;
  io_stdoutAndErrExists : bool;
  io_stdoutAndErrOpen : FifoOutcome;
  (** [result[pid].uid] of the process-metrics collector, or its exception *)
  io_ps : sum Exn uid_t;
  io_processExists : bool;
  io_capturedData : string;
  io_PATH : option string
}.

Record StopIO := mkStopIO {
  (** an exception out of [safelyClose(preloaderStdin)] or out of the
      socket-address helpers, if any *)
  stop_error : option Exn;
  (** whether [timedWaitpid(pid, NULL, 5000)] saw the preloader exit *)
  stop_exitedInTime : bool
}.

(** The result of [startPreloader]'s fork and handshake, which the model
    does not look into: the new preloader, or the exception that
    [startPreloader] lets out. *)
Inductive StartIO :=
  | StartOk (pid : pid_t) (socketAddress : string)
      (annotations : gmap string string)
  | StartThrows (e : Exn).

Definition getMonotonicUsec (X : Externals) : M MonotonicTimeUsec :=
  fun s => Returns (clock X (ticks s)) (tick s).

Definition startPreloader (io : StartIO) : M unit :=
  do s <- get;
  if preloaderStarted s then abort (AssertionFailed "!preloaderStarted()")
  else match io with
       | StartThrows e => throw (Exc e)
       | StartOk p addr ann =>
           run emit (EvPreloaderStarted p);
           modify (withPreloader ann p true addr)
       end.

Definition stopPreloader (X : Externals) (io : StopIO) : M unit :=
  do s <- get;
  if negb (preloaderStarted s) then ret tt
  else
    run emit EvClosePreloaderStdin;
    run match stop_error io with
        | Some e => throw (Exc e)
        | None => ret tt
        end;
    run emit (EvTimedWaitpid (pid s));
    run (if stop_exitedInTime io then ret tt
         else run emit (EvSigkill (pid s)); emit (EvWaitpid (pid s)));
    (* Delete socket after the process has exited. *)
    run match unixSocketFilename X (socketAddress s) with
        | Some filename => emit (EvUnlink filename)
        | None => ret tt
        end;
    modify (withPreloader ∅ (-1) false EmptyString).

Definition connectToPreloader (io : ForkIO) : M FileDescriptor :=
  do s <- get;
  run emit (EvConnect (socketAddress s));
  match io_connect io with
  | inl e => throw (Exc e)
  | inr fd => ret fd
  end.

Record ForkResult := mkForkResult {
  fr_pid : pid_t;
  fr_stdinFd : FileDescriptor;
  fr_stdoutAndErrFd : FileDescriptor
}.

(** [adjustTimeout(startTime, &session.timeoutUsec)], given the clock reading
    [now]; [None] when [assert(now >= startTime)] fails. *)
Definition adjustTimeoutValue (startTime now timeout : Z) : option Z :=
  if bool_decide (now >= startTime) then
    let diff := wrap64 (startTime - now) in
    if bool_decide (timeout >= diff) then Some (timeout - diff) else Some 0
  else None.

Definition adjustTimeout (X : Externals) (startTime : MonotonicTimeUsec)
    : M unit :=
  do now <- getMonotonicUsec X;
  do s <- get;
  match adjustTimeoutValue startTime now (s_timeoutUsec (session s)) with
  | Some t => modify (withTimeoutUsec t)
  | None => abort (AssertionFailed "now >= startTime")
  end.

Definition openFifoWithTimeout (X : Externals) (path : string)
    (outcome : FifoOutcome) : M FileDescriptor :=
  do startTime <- getMonotonicUsec X;
  scopeExit (adjustTimeout X startTime)
    match outcome with
    | FifoJoined fd errcode =>
        if bool_decide (fd = -1)
        then throw (Exc (SystemException ("Cannot open FIFO " ++ path) errcode))
        else ret fd
    | FifoTimedOut =>
        throw (Exc (TimeoutException ("Timeout opening FIFO " ++ path)))
    | FifoInterrupted => throw (Exc thread_interrupted)
    | FifoSystemError w code => throw (Exc (SystemException w code))
    end.

Definition addPreloaderAnnotations (s : St) (e : SpawnExceptionData)
    : SpawnExceptionData :=
  map_fold (fun key value acc => setAnnotation key value false acc) e
    (preloaderAnnotations s).

Definition sendForkCommand (io : ForkIO) (fd : FileDescriptor) : M unit :=
  do s <- get;
  let doc := JObject [("command", JString "spawn");
                      ("work_dir", JString (s_workDirPath (session s)))] in
  (* writeExact(fd, Json::FastWriter().write(doc), &session.timeoutUsec) *)
  run emit (EvWrite doc);
  match io_write io with
  | Some e => throw (Exc e)
  | None => ret tt
  end.

(** The prefix of [incoming] up to and including its first newline; all of
    it when there is none. *)
Fixpoint firstLine (incoming : string) : string :=
  match incoming with
  | EmptyString => EmptyString
  | String c rest =>
      if Ascii.eqb c (Ascii.ascii_of_nat 10) then String c EmptyString
      else String c (firstLine rest)
  end.

(** Modelled from the spec: [BufferedIO::readLine] of [Utils/BufferedIO.h] is
    not under src/.  §4.4: "Read one line, bounded at 10 KiB; exceeding the
    bound is a protocol error"; §8: "Preloader response exactly 10 240 bytes:
    accepted. 10 241 bytes: protocol error".  The error is the
    [SecurityException] that [readForkCommandResponse] catches. *)
Definition readLine (max : Z) (incoming : string) : sum Exn string :=
  let line := firstLine incoming in
  if (Z.of_nat (String.length line) <=? max)%Z then inr line
  else inl (SecurityException "Line too long").

Definition supportSolutionHTML (X : Externals) : string :=
  "<p class=" ++ dq ++ "sole-solution" ++ dq ++ ">"
  ++ "This is probably a bug in the preloader process. Please "
  ++ "<a href=" ++ dq ++ SUPPORT_URL X ++ dq ++ ">"
  ++ "report this bug</a>."
  ++ "</p>".

Definition preloaderIntroHTML (X : Externals) : string :=
  "<p>The " ++ PROGRAM_NAME X ++ " application server tried"
  ++ " to start the web application by communicating with a"
  ++ " helper process that we call a " ++ dq ++ "preloader" ++ dq
  ++ ". However,".

Definition throwSpawnException {A} (X : Externals) (e : SpawnExceptionData)
    : M A :=
  throw (Exc (SpawnException (finalize X e))).

Definition readForkCommandResponse (X : Externals) (io : ForkIO)
    (fd : FileDescriptor) : M string :=
  (* return io.readLine(10240, &session.timeoutUsec); *)
  match match io_read io with
        | inl e => inl e
        | inr incoming => readLine 10240 incoming
        end with
  | inr line => ret line
  | inl (SecurityException _) =>
      run journeyCall X (fun now =>
            setStepErrored now SPAWNING_KIT_READ_RESPONSE_FROM_PRELOADER false);
      do s <- get;
      let e := newSpawnException INTERNAL_ERROR (s_journey (session s))
                 (s_config (session s)) in
      let e := addPreloaderAnnotations s e in
      let e := setSummary
        "The preloader process sent a response that exceeds the maximum size limit." e in
      let e := setProblemDescriptionHTML
        (preloaderIntroHTML X
         ++ " this helper process sent a response that exceeded the"
         ++ " internally-defined maximum size limit.</p>") e in
      let e := setSolutionDescriptionHTML (supportSolutionHTML X) e in
      throwSpawnException X e
  | inl e => throw (Exc e)
  end.

Definition validateForkCommandResponse (doc : Json) : bool :=
  if negb (isObject doc) then false
  else if negb (isMember doc "result") || negb (isString (member doc "result"))
  then false
  else if String.eqb (asString (member doc "result")) "ok" then
    if negb (isMember doc "pid") || negb (isInt (member doc "pid"))
    then false else true
  else if String.eqb (asString (member doc "result")) "error" then
    if negb (isMember doc "message") || negb (isString (member doc "message"))
    then false else true
  else false.

Definition parseForkCommandResponse (X : Externals) (data : string) : M Json :=
  match reader_parse X data with
  | None =>
      run journeyCall X (fun now =>
            setStepErrored now SPAWNING_KIT_PARSE_RESPONSE_FROM_PRELOADER false);
      do s <- get;
      let e := newSpawnException INTERNAL_ERROR (s_journey (session s))
                 (s_config (session s)) in
      let e := addPreloaderAnnotations s e in
      let e := setSummary
        ("The preloader process sent an unparseable response: " ++ data) e in
      let e := setProblemDescriptionHTML
        (preloaderIntroHTML X
         ++ " this helper process sent a response that looks like"
         ++ " gibberish.</p>"
         ++ "<p>The response is as follows:</p>"
         ++ "<pre>" ++ escapeHTML X data ++ "</pre>") e in
      let e := setSolutionDescriptionHTML (supportSolutionHTML X) e in
      throwSpawnException X e
  | Some doc =>
      if negb (validateForkCommandResponse doc) then
        run journeyCall X (fun now =>
              setStepErrored now SPAWNING_KIT_PARSE_RESPONSE_FROM_PRELOADER false);
        do s <- get;
        let e := newSpawnException INTERNAL_ERROR (s_journey (session s))
                   (s_config (session s)) in
        let e := addPreloaderAnnotations s e in
        let e := setSummary
          ("The preloader process sent a response that does not"
           ++ " match the expected structure: " ++ stringifyJson X doc) e in
        let e := setProblemDescriptionHTML
          (preloaderIntroHTML X
           ++ " this helper process sent a response that does not match"
           ++ " the structure that " ++ SHORT_PROGRAM_NAME X ++ " expects.</p>"
           ++ "<p>The response is as follows:</p>"
           ++ "<pre>" ++ escapeHTML X (toStyledString X doc) ++ "</pre>") e in
        let e := setSolutionDescriptionHTML (supportSolutionHTML X) e in
        throwSpawnException X e
      else ret doc
  end.

Definition getBackgroundIOCapturerData (io : ForkIO)
    (capturer : BackgroundIOCapturerPtr) : M string :=
  match capturer with
  | Some _ =>
      (* Sleep shortly to allow the child process to finish writing logs. *)
      run emit (EvUsleep 50000);
      ret (io_capturedData io)
  | None => ret EmptyString
  end.

Definition createSolutionDescriptionForProcessMetricsCollectionError
    (X : Externals) (io : ForkIO) : string :=
  let path := match io_PATH io with
              | None => "(empty)"
              | Some EmptyString => "(empty)"
              | Some p => p
              end in
  "<div class=" ++ dq ++ "multiple-solutions" ++ dq ++ ">"
  ++ "<h3>Check whether the " ++ dq ++ "ps" ++ dq
  ++ " tool is installed and accessible by "
  ++ SHORT_PROGRAM_NAME X ++ "</h3>"
  ++ "<p>Maybe " ++ dq ++ "ps" ++ dq
  ++ " is not installed. Or maybe it is installed, but "
  ++ SHORT_PROGRAM_NAME X ++ " cannot find it inside its PATH. Or"
  ++ " maybe filesystem permissions disallow " ++ SHORT_PROGRAM_NAME X
  ++ " from accessing " ++ dq ++ "ps" ++ dq
  ++ ". Please check all these factors and"
  ++ " fix them if necessary.</p>"
  ++ "<p>" ++ SHORT_PROGRAM_NAME X ++ "'s PATH is:</p>"
  ++ "<pre>" ++ escapeHTML X path ++ "</pre>"
  ++ "<h3>Check whether the server is low on resources</h3>"
  ++ "<p>Maybe the server is currently low on resources. This would"
  ++ " cause the " ++ dq ++ "ps" ++ dq
  ++ " tool to encounter errors. Please study the"
  ++ " <em>error message</em> and the <em>diagnostics reports</em> to"
  ++ " verify whether this is the case. Key things to check for:</p>"
  ++ "<ul>"
  ++ "<li>Excessive CPU usage</li>"
  ++ "<li>Memory and swap</li>"
  ++ "<li>Ulimits</li>"
  ++ "</ul>"
  ++ "<p>If the server is indeed low on resources, find a way to"
  ++ " free up some resources.</p>"
  ++ "<h3>Check whether /proc is mounted</h3>"
  ++ "<p>On many operating systems including Linux and FreeBSD, "
  ++ dq ++ "ps" ++ dq
  ++ " only works if /proc is mounted. Please check this.</p>"
  ++ "<h3>Still no luck?</h3>"
  ++ "<p>Please try troubleshooting the problem by studying the"
  ++ " <em>diagnostics</em> reports.</p>"
  ++ "</div>".

Definition psIntroHTML (X : Externals) : string :=
  "<p>The " ++ PROGRAM_NAME X ++ " application server tried"
  ++ " to start the web application. As part of the starting"
  ++ " sequence, " ++ SHORT_PROGRAM_NAME X ++ " also tried to query"
  ++ " the system user ID of the web application process".

Definition processResponseErrored (X : Externals) : M unit :=
  journeyCall X (fun now =>
    setStepErrored now SPAWNING_KIT_PROCESS_RESPONSE_FROM_PRELOADER false).

Definition getProcessUid (X : Externals) (io : ForkIO) (pid : pid_t)
    (stdoutAndErrCapturer : BackgroundIOCapturerPtr) : M uid_t :=
  do uid <-
    match io_ps io with
    | inr uid => ret uid
    | inl (ParseException _) =>
        run processResponseErrored X;
        do s <- get;
        let e := newSpawnException INTERNAL_ERROR (s_journey (session s))
                   (s_config (session s)) in
        let e := addPreloaderAnnotations s e in
        let e := setSummary
          ("Unable to query the UID of spawned application process "
           ++ toString pid ++ ": error parsing 'ps' output") e in
        let e := setProblemDescriptionHTML
          (psIntroHTML X
           ++ " using the operating system's " ++ dq ++ "ps" ++ dq
           ++ " tool. However,"
           ++ " this tool returned output that " ++ SHORT_PROGRAM_NAME X
           ++ " could not understand.</p>") e in
        let e := setSolutionDescriptionHTML
          (createSolutionDescriptionForProcessMetricsCollectionError X io) e in
        throwSpawnException X e
    | inl (SystemException w code) =>
        run processResponseErrored X;
        do s <- get;
        let e := newSpawnException OPERATING_SYSTEM_ERROR
                   (s_journey (session s)) (s_config (session s)) in
        let e := addPreloaderAnnotations s e in
        let e := setSummary
          ("Unable to query the UID of spawned application process "
           ++ toString pid ++ "; error capturing 'ps' output: " ++ w) e in
        let e := setProblemDescriptionHTML
          (psIntroHTML X ++ "."
           ++ " This is done by using the operating system's "
           ++ dq ++ "ps" ++ dq
           ++ " tool and by querying operating system APIs and special"
           ++ " files. However, an error was encountered while doing"
           ++ " one of those things.</p>"
           ++ "<p>The error returned by the operating system is as follows:</p>"
           ++ "<pre>" ++ escapeHTML X w ++ "</pre>") e in
        let e := setSolutionDescriptionHTML
          (createSolutionDescriptionForProcessMetricsCollectionError X io) e in
        throwSpawnException X e
    | inl other => throw (Exc other)
    end;
  if bool_decide (uid = uid_minus_one) then
    if io_processExists io then
      run processResponseErrored X;
      do s <- get;
      let e := newSpawnException INTERNAL_ERROR (s_journey (session s))
                 (s_config (session s)) in
      let e := addPreloaderAnnotations s e in
      let e := setSummary
        ("Unable to query the UID of spawned application process "
         ++ toString pid ++ ": 'ps' did not report information"
         ++ " about this process") e in
      let e := setProblemDescriptionHTML
        (psIntroHTML X
         ++ " using the operating system's " ++ dq ++ "ps" ++ dq
         ++ " tool. However,"
         ++ " this tool did not return any information about"
         ++ " the web application process.</p>") e in
      let e := setSolutionDescriptionHTML
        (createSolutionDescriptionForProcessMetricsCollectionError X io) e in
      throwSpawnException X e
    else
      run processResponseErrored X;
      do s <- get;
      let e := newSpawnException INTERNAL_ERROR (s_journey (session s))
                 (s_config (session s)) in
      let e := addPreloaderAnnotations s e in
      let e := setSummary
        ("The application process spawned from the preloader"
         ++ " seems to have exited prematurely") e in
      do data <- getBackgroundIOCapturerData io stdoutAndErrCapturer;
      let e := setStdoutAndErrData data e in
      let e := setProblemDescriptionHTML
        (psIntroHTML X
         ++ " using the operating system's " ++ dq ++ "ps" ++ dq
         ++ " tool. However,"
         ++ " this tool did not return any information about"
         ++ " the web application process.</p>") e in
      let e := setSolutionDescriptionHTML
        (createSolutionDescriptionForProcessMetricsCollectionError X io) e in
      throwSpawnException X e
  else ret uid.

(** The problem description of the UID-mismatch error, as the source
    assembles it. *)
Definition uidMismatchProblemHTML (X : Externals) (sessionUid : uid_t)
    : string :=
  preloaderIntroHTML X
  ++ " the web application process that the preloader started"
  ++ " belongs to the wrong user. The UID of the web"
  ++ " application process should be " ++ toString sessionUid
  ++ ", but is actually " ++ toString sessionUid ++ ".</p>".

Definition handleForkCommandResponseSuccess (X : Externals) (io : ForkIO)
    (doc : Json) : M ForkResult :=
  let spawnedPid := asInt (member doc "pid") in
  scopeGuard (nonInterruptableKillAndWaitpid spawnedPid)
    (do s0 <- get;
     do spawnedStdin <-
       (if io_stdinExists io
        then openFifoWithTimeout X (s_responseDir (session s0) ++ "/stdin")
               (io_stdinOpen io)
        else ret (-1));
     do opened <-
       (if io_stdoutAndErrExists io
        then
          do fd <- openFifoWithTimeout X
                     (s_responseDir (session s0) ++ "/stdout_and_err")
                     (io_stdoutAndErrOpen io);
          run emit (EvCapturerStart spawnedPid);
          ret (fd, Some spawnedPid)
        else ret (-1, None));
     let spawnedStdoutAndErr := fst opened in
     let stdoutAndErrCapturer : BackgroundIOCapturerPtr := snd opened in
     (* For security reasons we perform a UID check. *)
     do spawnedUid <- getProcessUid X io spawnedPid stdoutAndErrCapturer;
     do s1 <- get;
     if negb (bool_decide (spawnedUid = s_uid (session s1))) then
       run processResponseErrored X;
       do s <- get;
       let e := newSpawnException INTERNAL_ERROR (s_journey (session s))
                  (s_config (session s)) in
       let e := addPreloaderAnnotations s e in
       let e := setSummary
         ("The process that the preloader said it spawned, PID "
          ++ toString spawnedPid ++ ", has UID " ++ toString spawnedUid
          ++ ", but the expected UID is " ++ toString (s_uid (session s))) e in
       do data <- getBackgroundIOCapturerData io stdoutAndErrCapturer;
       let e := setStdoutAndErrData data e in
       let e := setProblemDescriptionHTML
         (uidMismatchProblemHTML X (s_uid (session s))) e in
       let e := setSolutionDescriptionHTML (supportSolutionHTML X) e in
       throwSpawnException X e
     else
       run match stdoutAndErrCapturer with
           | Some capturer => emit (EvCapturerStop capturer)
           | None => abort (NullPointerDereference "stdoutAndErrCapturer->stop()")
           end;
       ret (mkForkResult spawnedPid spawnedStdin spawnedStdoutAndErr)).

Definition handleForkCommandResponseError (X : Externals) (doc : Json)
    : M ForkResult :=
  run processResponseErrored X;
  do s <- get;
  let e := newSpawnException INTERNAL_ERROR (s_journey (session s))
             (s_config (session s)) in
  let e := addPreloaderAnnotations s e in
  let e := setSummary
    ("An error occured while starting the web application: "
     ++ asString (member doc "message")) e in
  let e := setProblemDescriptionHTML
    ("<p>The " ++ PROGRAM_NAME X ++ " application server tried to"
     ++ " start the web application by communicating with a"
     ++ " helper process that we call a " ++ dq ++ "preloader" ++ dq
     ++ ". However, "
     ++ " this helper process reported an error:</p>"
     ++ "<pre>" ++ escapeHTML X (asString (member doc "message")) ++ "</pre>") e in
  let e := setSolutionDescriptionHTML
    ("<p class=" ++ dq ++ "sole-solution" ++ dq ++ ">"
     ++ "Please try troubleshooting the problem by studying the"
     ++ " <strong>error message</strong> and the"
     ++ " <strong>diagnostics</strong> reports. You can also"
     ++ " consult <a href=" ++ dq ++ SUPPORT_URL X ++ dq ++ ">the "
     ++ SHORT_PROGRAM_NAME X
     ++ " support resources</a> for help.</p>") e in
  throwSpawnException X e.

Definition handleForkCommandResponse (X : Externals) (io : ForkIO)
    (doc : Json) : M ForkResult :=
  if String.eqb (asString (member doc "result")) "ok" then
    handleForkCommandResponseSuccess X io doc
  else if String.eqb (asString (member doc "result")) "error" then
    handleForkCommandResponseError X doc
  else abort (AssertionFailed "doc[result].asString() == error").

(** [catch (const SystemException &e) { throw PreloaderCrashed(e); }
     catch (const IOException &e) { throw PreloaderCrashed(e); }] *)
Definition wrapPreloaderCrashed {A} (body : M A) : M A :=
  try_catch body (fun t =>
    match t with
    | Exc (SystemException w code) =>
        throw (PreloaderCrashed (SystemException w code))
    | Exc (IOException w) => throw (PreloaderCrashed (IOException w))
    | _ => throw t
    end).

(** [catch (...) { session.journey.setStepErrored(step); throw; }] *)
Definition erroredOnAnyException {A} (X : Externals) (step : JourneyStep)
    (body : M A) : M A :=
  try_catch body (fun t =>
    run journeyCall X (fun now => setStepErrored now step false);
    throw t).

Definition internalInvokeForkCommand (X : Externals) (io : ForkIO)
    : M ForkResult :=
  run journeyCall X (fun now =>
        setStepInProgress now SPAWNING_KIT_CONNECT_TO_PRELOADER false);
  do fd <- wrapPreloaderCrashed (connectToPreloader io);

  run journeyCall X (fun now =>
        setStepPerformed now SPAWNING_KIT_CONNECT_TO_PRELOADER false);
  run journeyCall X (fun now =>
        setStepInProgress now SPAWNING_KIT_SEND_COMMAND_TO_PRELOADER false);
  run wrapPreloaderCrashed (sendForkCommand io fd);

  run journeyCall X (fun now =>
        setStepPerformed now SPAWNING_KIT_SEND_COMMAND_TO_PRELOADER false);
  run journeyCall X (fun now =>
        setStepInProgress now SPAWNING_KIT_READ_RESPONSE_FROM_PRELOADER false);
  do line <- wrapPreloaderCrashed (readForkCommandResponse X io fd);

  run journeyCall X (fun now =>
        setStepPerformed now SPAWNING_KIT_READ_RESPONSE_FROM_PRELOADER false);
  run journeyCall X (fun now =>
        setStepInProgress now SPAWNING_KIT_PARSE_RESPONSE_FROM_PRELOADER false);
  do doc <- erroredOnAnyException X SPAWNING_KIT_PARSE_RESPONSE_FROM_PRELOADER
              (parseForkCommandResponse X line);

  run journeyCall X (fun now =>
        setStepPerformed now SPAWNING_KIT_PARSE_RESPONSE_FROM_PRELOADER false);
  run journeyCall X (fun now =>
        setStepInProgress now SPAWNING_KIT_PROCESS_RESPONSE_FROM_PRELOADER false);
  erroredOnAnyException X SPAWNING_KIT_PROCESS_RESPONSE_FROM_PRELOADER
    (handleForkCommandResponse X io doc).

(** Whether [catch (const std::exception &)] matches. *)
Definition is_std_exception (e : Exn) : bool :=
  match e with
  | thread_interrupted => false
  | _ => true
  end.

Definition resetPreloaderSteps (X : Externals) : M unit :=
  run journeyCall X (fun _ =>
        setStepNotStarted SPAWNING_KIT_CONNECT_TO_PRELOADER false);
  run journeyCall X (fun _ =>
        setStepNotStarted SPAWNING_KIT_SEND_COMMAND_TO_PRELOADER false);
  journeyCall X (fun _ =>
    setStepNotStarted SPAWNING_KIT_READ_RESPONSE_FROM_PRELOADER false).

Definition preparationErrored (X : Externals) : M unit :=
  journeyCall X (fun now => setStepErrored now SPAWNING_KIT_PREPARATION false).

(** The exception thrown when stopping the crashed preloader fails. *)
Definition throwStopError {A} (X : Externals) (originalException : Exn) : M A :=
  do s <- get;
  let e := wrapSpawnException X originalException (s_journey (session s))
             (s_config (session s)) in
  let e := setSummary
    ("Error stopping a crashed preloader: " ++ whatOf originalException) e in
  let e := setProblemDescriptionHTML
    (preloaderIntroHTML X
     ++ " this helper process crashed unexpectedly. "
     ++ SHORT_PROGRAM_NAME X ++ " then tried to restart it, but"
     ++ " encountered the following error while trying to"
     ++ " stop the preloader:</p>"
     ++ "<pre>" ++ escapeHTML X (whatOf originalException) ++ "</pre>") e in
  throwSpawnException X e.

Definition invokeForkCommand (X : Externals) (io1 : ForkIO) (stop1 : StopIO)
    (restart : StartIO) (io2 : ForkIO) (stop2 : StopIO) : M ForkResult :=
  try_catch (internalInvokeForkCommand X io1) (fun t1 =>
    match t1 with
    | PreloaderCrashed crashException1 =>
        run resetPreloaderSteps X;

        run try_catch (stopPreloader X stop1) (fun t =>
              match t with
              | Exc (SpawnException _) => throw t
              | Exc originalException =>
                  if is_std_exception originalException then
                    run preparationErrored X;
                    throwStopError X originalException
                  else throw t
              | _ => throw t
              end);

        run startPreloader restart;

        try_catch (internalInvokeForkCommand X io2) (fun t2 =>
          match t2 with
          | PreloaderCrashed crashException2 =>
              run try_catch (stopPreloader X stop2) (fun t =>
                    match t with
                    | Exc (SpawnException _) => throw t
                    | Exc originalException =>
                        if is_std_exception originalException then
                          run preparationErrored X;
                          run resetPreloaderSteps X;
                          throwStopError X originalException
                        else throw t
                    | _ => throw t
                    end);

              run preparationErrored X;

              do s <- get;
              let e := wrapSpawnException X (getException crashException2)
                         (s_journey (session s)) (s_config (session s)) in
              let e := setSummary
                ("An application preloader crashed: "
                 ++ whatOf (getException crashException2)) e in
              let e := setProblemDescriptionHTML
                (preloaderIntroHTML X
                 ++ " this helper process crashed unexpectedly:</p>"
                 ++ "<pre>"
                 ++ escapeHTML X (whatOf (getException crashException2))
                 ++ "</pre>") e in
              throwSpawnException X e
          | _ => throw t2
          end)
    | _ => throw t1
    end).

(** The environment of one [spawn] call. *)
Record SpawnIO := mkSpawnIO {
  (** [SystemTime::getUsec()] *)
  sp_wallClock : Z;
  (** [possiblyRaiseInternalError(options)] *)
  sp_internalError : option Exn;
  (** the start of the preloader when none is running *)
  sp_start : StartIO;
  (** [Spawner::setConfigFromAppPoolOptions] *)
  sp_config : sum Exn Config;
  (** what the [HandshakeSession] constructor derives from the config *)
  sp_usingWrapper : bool;
  sp_uid : uid_t;
  sp_timeoutUsec : Z;
  sp_workDirPath : string;
  sp_responseDir : string;
  (** [HandshakePrepare(session, extraArgs).execute()] *)
  sp_prepare : M unit;
  sp_fork1 : ForkIO;
  sp_stop1 : StopIO;
  sp_restart : StartIO;
  sp_fork2 : ForkIO;
  sp_stop2 : StopIO;
  (** [HandshakePerform(session, pid, stdinFd, stdoutAndErrFd).execute()] *)
  sp_perform : ForkResult -> M unit
}.

Definition setConfigFromAppPoolOptions (io : SpawnIO) : sum Exn Config :=
  match sp_config io with
  | inl e => inl e
  | inr cfg => inr (mkConfig (appRoot cfg) "smart")
  end.

(** Modelled from the spec: the [HandshakeSession] constructor of
    [Core/SpawningKit/Handshake/Session.h] is not under src/.  §3: the
    session owns the config, the journey, the work directory, the target uid
    and the remaining deadline; the journey is created with the given type. *)
Definition newHandshakeSession (io : SpawnIO) (cfg : Config)
    (type : JourneyType) : HandshakeSession :=
  mkHandshakeSession cfg (newJourney type (sp_usingWrapper io)) (sp_uid io)
    (sp_timeoutUsec io) (sp_workDirPath io) (sp_responseDir io).

Definition setLastUsed (t : Z) (s : St) : St :=
  mkSt (session s) (preloaderAnnotations s) (pid s) (preloaderStdinOpen s)
    (socketAddress s) t (trace s) (ticks s).

(** [SmartSpawner::spawn], called with options that pass its two
    [P_ASSERT_EQ] checks.  The [Result] it returns is the one it
    default-constructs, so the model returns [tt]. *)
Definition spawn (X : Externals) (io : SpawnIO) : M unit :=
  run match sp_internalError io with
      | Some e => throw (Exc e)
      | None => ret tt
      end;
  run modify (setLastUsed (sp_wallClock io));
  do s <- get;
  run (if negb (preloaderStarted s) then startPreloader (sp_start io)
       else ret tt);
  match setConfigFromAppPoolOptions io with
  | inl originalException =>
      if is_std_exception originalException then
        do now <- getMonotonicUsec X;
        match setStepErrored now SPAWNING_KIT_PREPARATION true
                (newJourney SPAWN_THROUGH_PRELOADER true) with
        | inl e => throw (Exc (liftExn e))
        | inr journey =>
            do s <- get;
            let e := wrapSpawnException X originalException journey
                       (mkConfig EmptyString EmptyString) in
            throwSpawnException X (addPreloaderAnnotations s e)
        end
      else throw (Exc originalException)
  | inr config =>
      run modify (withSession (fun _ =>
            newHandshakeSession io config SPAWN_THROUGH_PRELOADER));
      run journeyCall X (fun now =>
            setStepInProgress now SPAWNING_KIT_PREPARATION false);
      try_catch
        (run sp_prepare io;
         do forkResult <- invokeForkCommand X (sp_fork1 io) (sp_stop1 io)
                            (sp_restart io) (sp_fork2 io) (sp_stop2 io);
         run scopeGuard (nonInterruptableKillAndWaitpid (fr_pid forkResult))
               (sp_perform io forkResult);
         journeyCall X (fun now =>
           setStepPerformed now SPAWNING_KIT_HANDSHAKE_PERFORM false))
        (fun t =>
           match t with
           | Exc (SpawnException e) =>
               do s <- get;
               throw (Exc (SpawnException (addPreloaderAnnotations s e)))
           | Exc originalException =>
               if is_std_exception originalException then
                 run preparationErrored X;
                 do s <- get;
                 let e := wrapSpawnException X originalException
                            (s_journey (session s)) config in
                 throwSpawnException X (addPreloaderAnnotations s e)
               else throw t
           | _ => throw t
           end)
  end.

End SmartSpawner.

(** ** SpawnEnvSetupperMain.cpp *)

Module SpawnEnvSetupper.
Import Journey.

Definition uid_t := Z.
Definition gid_t := Z.

Inductive Mode :=
  | BEFORE_MODE
  | AFTER_MODE.

(** The members of [args.json] that the embedded functions read.
    [environment_variables] is a JSON object: one value per name. *)
Record Args := mkArgs {
  node_libdir : string;
  app_env : string;
  expected_start_port : option Z;
  base_uri : string;
  environment_variables : gmap string string
}.

Record Context := mkContext {
  workDir : string;
  mode : Mode;
  args : Args;
  step : JourneyStep;
  startTime : MonotonicTimeUsec
}.

(** *** The process environment *)

(** [environ] as a finite map from names to values. *)
Abbreviation Environ := (gmap string string).

Fixpoint containsEquals (name : string) : bool :=
  match name with
  | EmptyString => false
  | String c rest => Ascii.eqb c (Ascii.ascii_of_nat 61) || containsEquals rest
  end.

(** [setenv(3)] fails with [EINVAL], leaving the environment unchanged, when
    the name is empty or contains ['=']. *)
Definition validName (name : string) : bool :=
  negb (String.eqb name EmptyString) && negb (containsEquals name).

Definition setenv (name value : string) (overwrite : bool) (env : Environ)
    : Environ :=
  if validName name then
    if overwrite || bool_decide (env !! name = None)
    then <[name := value]> env else env
  else env.

Definition unsetenv (name : string) (env : Environ) : Environ :=
  if validName name then delete name env else env.

Definition setDefaultEnvvars (args : Args) (env : Environ) : Environ :=
  let env := setenv "PYTHONUNBUFFERED" "1" true env in

  let env := setenv "NODE_PATH" (node_libdir args) true env in

  let env := setenv "RAILS_ENV" (app_env args) true env in
  let env := setenv "RACK_ENV" (app_env args) true env in
  let env := setenv "WSGI_ENV" (app_env args) true env in
  let env := setenv "NODE_ENV" (app_env args) true env in
  let env := setenv "PASSENGER_APP_ENV" (app_env args) true env in

  let env := match expected_start_port args with
             | Some port => setenv "PORT" (toString port) true env
             | None => env
             end in

  if negb (String.eqb (base_uri args) "/") then
    let env := setenv "RAILS_RELATIVE_URL_ROOT" (base_uri args) true env in
    let env := setenv "RACK_BASE_URI" (base_uri args) true env in
    setenv "PASSENGER_BASE_URI" (base_uri args) true env
  else
    let env := unsetenv "RAILS_RELATIVE_URL_ROOT" env in
    let env := unsetenv "RACK_BASE_URI" env in
    unsetenv "PASSENGER_BASE_URI" env.

(** The loop of [setGivenEnvVars] over the members of
    [args["environment_variables"]], visited in the order [members]. *)
Definition setGivenEnvVarsIn (members : list (string * string))
    (env : Environ) : Environ :=
  foldl (fun acc kv => setenv kv.1 kv.2 true acc) env members.

Definition setGivenEnvVars (args : Args) (env : Environ) : Environ :=
  setGivenEnvVarsIn (map_to_list (environment_variables args)) env.

(** The environment mutations of [spawnEnvSetupperMain] in [--after] mode on
    the path that reaches [execNextCommand]: the two variables set on entry,
    [PWD] from [setCurrentWorkingDirectory], then the defaults and the given
    variables. *)
Definition afterModeEnviron (context : Context) (appRoot : string)
    (env : Environ) : Environ :=
  let env := setenv "IN_PASSENGER" "1" true env in
  let env := setenv "PASSENGER_SPAWN_WORK_DIR" (workDir context) true env in
  let env := setenv "PWD" appRoot true env in
  let env := setDefaultEnvvars (args context) env in
  setGivenEnvVars (args context) env.

(** *** Switching group *)

Record passwd := mkPasswd {
  pw_name : string;
  pw_uid : uid_t;
  pw_gid : gid_t;
  pw_dir : string;
  pw_shell : string
}.

(** What the setupper does to the outside, in order. *)
Inductive Action :=
  | Getgrouplist (user : string) (group : gid_t) (size : Z)
  | Setgroups (ngroups : Z) (gidset : list gid_t)
  | Initgroups (user : string) (group : gid_t)
  | Setgid (gid : gid_t)
  | RecordJourneyStepComplete (step : JourneyStep) (state : JourneyStepState)
  | RecordErrorCategory (category : ErrorCategory)
  | PrintError (message : string)
  | RecordErrorSummary (message : string)
  | RecordAdvancedProblemDetails (message : string).

(** A run of setupper code: the actions performed, and the value returned
    unless the run ended in [exit(code)]. *)
Definition P (A : Type) : Type := list Action * sum Z A.

Definition pret {A} (a : A) : P A := ([], inr a).
Definition pbind {A B} (m : P A) (k : A -> P B) : P B :=
  match m with
  | (t, inl code) => (t, inl code)
  | (t, inr a) => let '(t', r) := k a in ((t ++ t')%list, r)
  end.
Definition act (a : Action) : P unit := ([a], inr tt).
Definition exit {A} (code : Z) : P A := ([], inl code).

Declare Scope setupper_scope.
Delimit Scope setupper_scope with setupper.
Notation "'perform' m ; k" := (pbind m (fun _ => k))
  (at level 10, m at level 100, k at level 200) : setupper_scope.
Local Open Scope setupper_scope.

Definition recordJourneyStepErrored (context : Context) : P unit :=
  act (RecordJourneyStepComplete (step context) STEP_ERRORED).

Definition recordErrorCategory (category : ErrorCategory) : P unit :=
  act (RecordErrorCategory category).

Definition recordAdvancedProblemDetails (message : string) : P unit :=
  act (RecordAdvancedProblemDetails message).

Definition recordErrorSummary (message : string)
    (isAlsoAdvancedProblemDetails : bool) : P unit :=
  perform act (RecordErrorSummary message);
  if isAlsoAdvancedProblemDetails then recordAdvancedProblemDetails message
  else pret tt.

Definition recordAndPrintErrorSummary (message : string)
    (isAlsoAdvancedProblemDetails : bool) : P unit :=
  perform act (PrintError message);
  recordErrorSummary message isAlsoAdvancedProblemDetails.

(** The answers of the C library and the kernel to [switchGroup]. *)
Record GroupIO := mkGroupIO {
  (** whether the [#if defined(__linux__) || ...] block is compiled in *)
  hasGetgrouplist : bool;
  NGROUPS_MAX : Z;
  strerror : Z -> string;
  (** [getgrouplist]: return value, [groups[0..ngroups)] and [ngroups]
      afterwards, and [errno] *)
  getgrouplist_ret : Z;
  getgrouplist_groups : list gid_t;
  getgrouplist_ngroups : Z;
  getgrouplist_errno : Z;
  (** the contents of the storage obtained by [new gid_t[n]], which the
      language leaves indeterminate *)
  new_gid_array : Z -> list gid_t;
  (** [None] for success, [Some errno] for a return value of [-1] *)
  setgroups_errno : option Z;
  initgroups_errno : option Z;
  setgid_errno : option Z
}.

(** The common tail of every fatal branch of [switchGroup]. *)
Definition fatal {A} (context : Context) (message : string) : P A :=
  perform recordJourneyStepErrored context;
  perform recordErrorCategory OPERATING_SYSTEM_ERROR;
  perform recordAndPrintErrorSummary message true;
  exit 1.

Definition errnoSuffix (io : GroupIO) (e : Z) : string :=
  strerror io e ++ " (errno=" ++ toString e ++ ")".

Definition switchGroup (io : GroupIO) (context : Context) (uid : uid_t)
    (userInfo : option passwd) (gid : gid_t) : P unit :=
  perform
    match userInfo with
    | Some userInfo =>
        pbind
          (if hasGetgrouplist io then
             (* gid_t groups[1024]; int ngroups = 1024; *)
             perform act (Getgrouplist (pw_name userInfo) gid 1024);
             if bool_decide (getgrouplist_ret io = -1) then
               fatal context
                 ("getgrouplist(" ++ pw_name userInfo ++ ", "
                  ++ toString gid ++ ") failed: "
                  ++ errnoSuffix io (getgrouplist_errno io))
             else
               let groups := getgrouplist_groups io in
               let ngroups := getgrouplist_ngroups io in
               if bool_decide (ngroups <= NGROUPS_MAX io) then
                 (* gidset.reset(new gid_t[ngroups]); *)
                 let gidset := new_gid_array io ngroups in
                 perform act (Setgroups ngroups gidset);
                 match setgroups_errno io with
                 | Some e =>
                     fatal context
                       ("setgroups(" ++ toString ngroups
                        ++ ", ...) failed: " ++ errnoSuffix io e)
                 | None => pret true
                 end
               else pret false
           else pret false)
          (fun setgroupsCalled =>
             if negb setgroupsCalled then
               perform act (Initgroups (pw_name userInfo) gid);
               match initgroups_errno io with
               | Some e =>
                   fatal context
                     ("initgroups(" ++ pw_name userInfo
                      ++ ", " ++ toString gid ++ ") failed: "
                      ++ errnoSuffix io e)
               | None => pret tt
               end
             else pret tt)
    | None => pret tt
    end;
  perform act (Setgid gid);
  match setgid_errno io with
  | Some e =>
      fatal context
        ("setgid(" ++ toString gid ++ ") failed: " ++ errnoSuffix io e)
  | None => pret tt
  end.

End SpawnEnvSetupper.

(** ** The statements of the specification, in its own words *)

Module Spec.
Import Journey.

(** §3: the step enumeration by address space. *)
Definition subprocessSteps : list JourneyStep :=
  [ SUBPROCESS_BEFORE_FIRST_EXEC; SUBPROCESS_SPAWN_ENV_SETUPPER_BEFORE_SHELL;
    SUBPROCESS_OS_SHELL; SUBPROCESS_SPAWN_ENV_SETUPPER_AFTER_SHELL;
    SUBPROCESS_EXEC_WRAPPER; SUBPROCESS_WRAPPER_PREPARATION;
    SUBPROCESS_APP_LOAD_OR_EXEC;
    SUBPROCESS_PREPARE_AFTER_FORKING_FROM_PRELOADER; SUBPROCESS_LISTEN;
    SUBPROCESS_FINISH ].

Definition preloaderSteps : list JourneyStep :=
  [ PRELOADER_PREPARATION; PRELOADER_FORK_SUBPROCESS; PRELOADER_SEND_RESPONSE;
    PRELOADER_FINISH ].

Definition isWrapperStep (s : JourneyStep) : bool :=
  bool_decide (s = SUBPROCESS_EXEC_WRAPPER)
  || bool_decide (s = SUBPROCESS_WRAPPER_PREPARATION).

(** The populated step set as the specification words it: for the two
    direct journeys "all subprocess steps (wrapper steps conditional)". *)
Definition claimedStepSet (t : JourneyType) (usingWrapper : bool)
    : list JourneyStep :=
  match t with
  | SPAWN_DIRECTLY | START_PRELOADER =>
      [ SPAWNING_KIT_PREPARATION; SPAWNING_KIT_FORK_SUBPROCESS;
        SPAWNING_KIT_HANDSHAKE_PERFORM; SPAWNING_KIT_FINISH ]
      ++ filter (fun s => usingWrapper || negb (isWrapperStep s)) subprocessSteps
  | SPAWN_THROUGH_PRELOADER =>
      [ SPAWNING_KIT_PREPARATION; SPAWNING_KIT_CONNECT_TO_PRELOADER;
        SPAWNING_KIT_SEND_COMMAND_TO_PRELOADER;
        SPAWNING_KIT_READ_RESPONSE_FROM_PRELOADER;
        SPAWNING_KIT_PARSE_RESPONSE_FROM_PRELOADER;
        SPAWNING_KIT_PROCESS_RESPONSE_FROM_PRELOADER;
        SPAWNING_KIT_HANDSHAKE_PERFORM; SPAWNING_KIT_FINISH ]
      ++ preloaderSteps
      ++ [ SUBPROCESS_PREPARE_AFTER_FORKING_FROM_PRELOADER; SUBPROCESS_LISTEN;
           SUBPROCESS_FINISH ]
  end.

(** The same with the one step that the direct journeys leave out. *)
Definition populatedStepSet (t : JourneyType) (usingWrapper : bool)
    : list JourneyStep :=
  match t with
  | SPAWN_DIRECTLY | START_PRELOADER =>
      filter (fun s => negb (bool_decide
                (s = SUBPROCESS_PREPARE_AFTER_FORKING_FROM_PRELOADER)))
        (claimedStepSet t usingWrapper)
  | SPAWN_THROUGH_PRELOADER => claimedStepSet t usingWrapper
  end.

(** The four state-changing mutators and the state each one aims at. *)
Inductive Mutator :=
  | SetStepNotStarted
  | SetStepInProgress
  | SetStepPerformed
  | SetStepErrored.

Definition target (m : Mutator) : JourneyStepState :=
  match m with
  | SetStepNotStarted => STEP_NOT_STARTED
  | SetStepInProgress => STEP_IN_PROGRESS
  | SetStepPerformed => STEP_PERFORMED
  | SetStepErrored => STEP_ERRORED
  end.

Definition call (m : Mutator) (now : MonotonicTimeUsec) (step : JourneyStep)
    (force : bool) (j : Journey) : Result Journey :=
  match m with
  | SetStepNotStarted => setStepNotStarted step force j
  | SetStepInProgress => setStepInProgress now step force j
  | SetStepPerformed => setStepPerformed now step force j
  | SetStepErrored => setStepErrored now step force j
  end.

(** §8: the transitions allowed when [force == false]. *)
Definition claimedTransition (from to : JourneyStepState) : bool :=
  match from, to with
  | STEP_NOT_STARTED, STEP_IN_PROGRESS
  | STEP_IN_PROGRESS, STEP_PERFORMED
  | STEP_IN_PROGRESS, STEP_ERRORED
  | STEP_NOT_STARTED, STEP_NOT_STARTED => true
  | _, _ => false
  end.

(** The transitions that the guards of [setStepNotStarted],
    [setStepInProgress] and [setStepErrored] let through without [force]:
    the claimed ones, the reset of a step in progress, and the calls that
    find the step already in the target state. *)
Definition guardedTransition (from to : JourneyStepState) : bool :=
  match from, to with
  | STEP_NOT_STARTED, STEP_IN_PROGRESS
  | STEP_IN_PROGRESS, STEP_ERRORED
  | STEP_NOT_STARTED, STEP_NOT_STARTED
  | STEP_IN_PROGRESS, STEP_NOT_STARTED
  | STEP_IN_PROGRESS, STEP_IN_PROGRESS
  | STEP_ERRORED, STEP_ERRORED => true
  | _, _ => false
  end.

(** The journeys a program can hold: built by the constructor and changed
    by the public mutators only. *)
Inductive reachable : Journey -> Prop :=
  | reach_new t w : reachable (newJourney t w)
  | reach_call m now step force j j' :
      reachable j -> call m now step force j = inr j' -> reachable j'
  | reach_duration step usec j j' :
      reachable j -> setStepExecutionDuration step usec j = inr j' ->
      reachable j'.

(** Keys in strictly ascending enum order, none of them the sentinel: what
    [std::map] guarantees for the maps the constructor builds. *)
Definition keysAscending (keys : list JourneyStep) : Prop :=
  StronglySorted (fun a b => (stepOrd a < stepOrd b)%nat) keys
  /\ UNKNOWN_JOURNEY_STEP ∉ keys.

(** §8: the saturating decrement that the timeout is meant to receive. *)
Definition claimedAdjustedTimeout (startTime now timeout : Z) : Z :=
  Z.max 0 (timeout - (now - startTime)).

End Spec.

Module SpawnerSpec.
Import Journey SmartSpawner.

(** The state in which a run ends, however it ends. *)
Definition finalState {A} (o : Outcome A) : St :=
  match o with
  | Returns _ s | Throws _ s | Aborts _ s => s
  end.

Definition journeyOf (s : St) : Journey := s_journey (session s).

(** The exceptions that [internalInvokeForkCommand] turns into
    [PreloaderCrashed]. *)
Definition isCrash (e : Exn) : Prop :=
  match e with
  | SystemException _ _ | IOException _ => True
  | _ => False
  end.

Definition sizeLimitSummary : string :=
  "The preloader process sent a response that exceeds the maximum size limit.".

(** §9: the UID-mismatch description with "both values printed". *)
Definition claimedUidMismatchProblemHTML (X : Externals)
    (expectedUid actualUid : uid_t) : string :=
  preloaderIntroHTML X
  ++ " the web application process that the preloader started"
  ++ " belongs to the wrong user. The UID of the web"
  ++ " application process should be " ++ toString expectedUid
  ++ ", but is actually " ++ toString actualUid ++ ".</p>".

(** *** The scenarios of §8, as concrete environments *)

Definition X0 : Externals :=
  mkExternals "Phusion Passenger" "Passenger"
    "https://www.phusionpassenger.com/support"
    (fun text => text) (fun _ => None) (fun _ => EmptyString)
    (fun _ => EmptyString) (fun _ => INTERNAL_ERROR) (fun e => e)
    (fun _ => None) (fun n => 1000000 + 10000 * Z.of_nat n).

(** A journey as [spawn] has it when it calls [invokeForkCommand]. *)
Definition preparingJourney : Journey :=
  storeStepInfo (newJourney SPAWN_THROUGH_PRELOADER false)
    SPAWNING_KIT_PREPARATION (mkJourneyStepInfo STEP_IN_PROGRESS 1000000 0).

(** The same journey once the response of the preloader is being
    processed. *)
Definition processingJourney : Journey :=
  foldr (fun step j =>
           storeStepInfo j step (mkJourneyStepInfo STEP_PERFORMED 1000000 1000000))
    (storeStepInfo preparingJourney SPAWNING_KIT_PROCESS_RESPONSE_FROM_PRELOADER
       (mkJourneyStepInfo STEP_IN_PROGRESS 1000000 0))
    [ SPAWNING_KIT_CONNECT_TO_PRELOADER; SPAWNING_KIT_SEND_COMMAND_TO_PRELOADER;
      SPAWNING_KIT_READ_RESPONSE_FROM_PRELOADER;
      SPAWNING_KIT_PARSE_RESPONSE_FROM_PRELOADER ].

Definition stateWith (j : Journey) : St :=
  mkSt (mkHandshakeSession (mkConfig "/app" "smart") j 501 90000000
          "/tmp/w1" "/tmp/w1/response")
    ∅ 4242 true "unix:/tmp/psg.sock" 0 [] 0.

Definition s0 : St := stateWith preparingJourney.
Definition sProcessing : St := stateWith processingJourney.

Definition okResponse (pid : pid_t) : Json :=
  JObject [("result", JString "ok"); ("pid", JInt pid)].

(** Scenario 3: the first read from the preloader fails with ECONNRESET. *)
Definition ioCrashInRead : ForkIO :=
  mkForkIO (inr 7) None (inl (SystemException "Connection reset by peer" 104))
    false FifoTimedOut false FifoTimedOut (inr 501) true EmptyString None.

(** Scenario 1: the preloader answers and the child belongs to uid 501;
    the work directory holds neither FIFO. *)
Definition ioHappy : ForkIO :=
  mkForkIO (inr 7) None (inr EmptyString)
    false FifoTimedOut false FifoTimedOut (inr 501) true EmptyString None.

(** Scenario 5: [ps] reports uid 0 for pid 777 while uid 501 is expected; the
    child's output FIFO is there and opens. *)
Definition ioUidMismatch : ForkIO :=
  mkForkIO (inr 7) None (inr EmptyString)
    false FifoTimedOut true (FifoJoined 9 0) (inr 0) true
    "App 777 output: starting" None.

(** A response line of [n] bytes, the last one being the newline. *)
Definition responseOfSize (n : N) : string :=
  N.iter (N.pred n) (String (Ascii.ascii_of_nat 120)) newline.

(** Scenario 2 at the boundary: a response of 10 241 bytes. *)
Definition ioOversized : ForkIO :=
  mkForkIO (inr 7) None (inr (responseOfSize 10241))
    false FifoTimedOut false FifoTimedOut (inr 501) true EmptyString None.

Definition stopQuietly : StopIO := mkStopIO None true.

(** The events of one [stopPreloader] that runs to its end. *)
Definition stopEvents (X : Externals) (io : StopIO) (p : pid_t)
    (address : string) : list Event :=
  ([EvClosePreloaderStdin; EvTimedWaitpid p]
   ++ (if stop_exitedInTime io then [] else [EvSigkill p; EvWaitpid p])
   ++ match unixSocketFilename X address with
      | Some filename => [EvUnlink filename]
      | None => []
      end)%list.

Definition spawnIOOversized : SpawnIO :=
  mkSpawnIO 1700000000000000 None (StartOk 4242 "unix:/tmp/psg.sock" ∅)
    (inr (mkConfig "/app" EmptyString)) false 501 90000000
    "/tmp/w1" "/tmp/w1/response" (ret tt)
    ioOversized stopQuietly (StartOk 4243 "unix:/tmp/psg2.sock" ∅)
    ioHappy stopQuietly (fun _ => ret tt).

End SpawnerSpec.

Module SetupperSpec.
Import SpawnEnvSetupper.

(** The names that [setDefaultEnvvars] sets to [app_env]. *)
Definition appEnvKeys : list string :=
  [ "RAILS_ENV"; "RACK_ENV"; "WSGI_ENV"; "NODE_ENV"; "PASSENGER_APP_ENV" ].

(** The names that carry the base URI. *)
Definition baseUriKeys : list string :=
  [ "RAILS_RELATIVE_URL_ROOT"; "RACK_BASE_URI"; "PASSENGER_BASE_URI" ].

(** Every name that [setDefaultEnvvars] may touch. *)
Definition defaultKeys : list string :=
  [ "PYTHONUNBUFFERED"; "NODE_PATH" ] ++ appEnvKeys ++ [ "PORT" ] ++ baseUriKeys.

(** A user [app] in group 1000 whose group list is [1000; 27], on a system
    where the fresh array happens to hold zeros. *)
Definition appUser : passwd := mkPasswd "app" 1000 1000 "/home/app" "/bin/bash".

Definition groupIOExample : GroupIO :=
  mkGroupIO true 65536 (fun _ => "Operation not permitted")
    2 [1000; 27] 2 0 (fun n => replicate (Z.to_nat n) 0) None None None.

Definition contextExample : Context :=
  mkContext "/tmp/w1" BEFORE_MODE
    (mkArgs "/usr/share/passenger/node" "production" (Some 3000) "/" ∅)
    Journey.SUBPROCESS_SPAWN_ENV_SETUPPER_BEFORE_SHELL 1000000.

End SetupperSpec.

(** ** Journey.h: inspectAsJson *)

Module JourneyJson.
Import Journey SmartSpawner.

(** [object[key] = value] on the members of an object: the member is
    replaced when it is there and added when it is not.  JsonCpp keeps the
    members sorted by name; members are only looked up by name here, so the
    order is not modelled. *)
Fixpoint setMember (key : string) (value : Json) (members : list (string * Json))
    : list (string * Json) :=
  match members with
  | [] => [(key, value)]
  | (k, v) :: rest =>
      if String.eqb key k then (k, value) :: rest
      else (k, v) :: setMember key value rest
  end.

(** [doc[key] = value]: a null value becomes an object first. *)
Definition assign (doc : Json) (key : string) (value : Json) : Json :=
  match doc with
  | JObject members => JObject (setMember key value members)
  | _ => JObject [(key, value)]
  end.

(** [JourneyStepInfo::inspectAsJson] *)
Definition inspectStepAsJson (info : JourneyStepInfo) (step : JourneyStep)
    : Json :=
  let doc := JNull in
  let doc := assign doc "state" (JString (journeyStepStateToString (state info))) in
  assign doc "usec_duration" (JInt (usecDuration info)).

(** [Journey::inspectAsJson] *)
Definition inspectAsJson (j : Journey) : Json :=
  let doc := JNull in
  let doc := assign doc "type" (JString (journeyTypeToString (type j))) in
  let steps := foldl (fun steps entry =>
                        assign steps (journeyStepToString entry.1)
                          (inspectStepAsJson entry.2 entry.1))
                 JNull (Journey.steps j) in
  assign doc "steps" steps.

End JourneyJson.

(** ** SpawnEnvSetupperMain.cpp: user lookup, user switch, working directory
       and the final exec *)

Module SpawnEnvSetupperMain.
Import Journey SpawnEnvSetupper.

(** What these functions do to the outside, in order: the [Action]s of the
    functions above, and the calls below. *)
Inductive Effect :=
  | Outside (a : Action)
  (** [fprintf(stderr, "Warning: <message>\n")] *)
  | PrintWarning (message : string)
  | Setuid (uid : uid_t)
  | Stat (path : string)
  | Chdir (path : string)
  | RecordProblemDescriptionHTML (message : string)
  | RecordSolutionDescriptionHTML (message : string)
  | RecordJourneyStepInProgress (step : JourneyStep)
  | Execvp (argv : list string).

(** Ways in which the process stops without [exit]. *)
Inductive Crash :=
  | AssertFailed (expr : string)
  | UndefinedBehaviour (expr : string).

Inductive Ending (A : Type) :=
  | Exits (code : Z)
  | Crashes (c : Crash)
  (** [execvp] succeeded: the process image is gone *)
  | Replaced
  | Gives (a : A).
Arguments Exits {A} code.
Arguments Crashes {A} c.
Arguments Replaced {A}.
Arguments Gives {A} a.

Record Ran (A : Type) := mkRan {
  effects : list Effect;
  environ : Environ;
  ending : Ending A
}.
Arguments mkRan {A} effects environ ending.
Arguments effects {A} r.
Arguments environ {A} r.
Arguments ending {A} r.

(** A run: from the environment on entry to the effects, the environment
    and the ending. *)
Definition Run (A : Type) : Type := Environ -> Ran A.

Definition rret {A} (a : A) : Run A := fun env => mkRan [] env (Gives a).
Definition rbind {A B} (m : Run A) (k : A -> Run B) : Run B := fun env =>
  let r := m env in
  match ending r with
  | Gives a =>
      let r' := k a (environ r) in
      mkRan (effects r ++ effects r')%list (environ r') (ending r')
  | Exits code => mkRan (effects r) (environ r) (Exits code)
  | Crashes c => mkRan (effects r) (environ r) (Crashes c)
  | Replaced => mkRan (effects r) (environ r) Replaced
  end.
Definition eff (e : Effect) : Run unit := fun env => mkRan [e] env (Gives tt).
Definition crash {A} (c : Crash) : Run A := fun env => mkRan [] env (Crashes c).
Definition changeEnviron (f : Environ -> Environ) : Run unit :=
  fun env => mkRan [] (f env) (Gives tt).
(** A run of the functions above, which leave the environment alone. *)
Definition liftP {A} (m : P A) : Run A := fun env =>
  mkRan (Outside <$> m.1) env
    match m.2 with
    | inl code => Exits code
    | inr a => Gives a
    end.

Declare Scope run_scope.
Delimit Scope run_scope with run.
Notation "'do' x <- m ; k" := (rbind m (fun x => k))
  (at level 10, x name, m at level 100, k at level 200) : run_scope.
Notation "'perform' m ; k" := (rbind m (fun _ => k))
  (at level 10, m at level 100, k at level 200) : run_scope.
Local Open Scope run_scope.

(** *** lookupUserGroup *)

(** The user and group databases and the helpers of [Utils/StrIntUtils.h]
    that [lookupUserGroup] calls.  A lookup that returns [NULL] is [inl] of
    the [errno] found afterwards. *)
Record UserIO := mkUserIO {
  getpwnam : string -> sum Z passwd;
  (** [getgrnam(name)->gr_gid] *)
  getgrnam : string -> sum Z gid_t;
  looksLikePositiveNumber : string -> bool;
  atoi : string -> Z;
  u_strerror : Z -> string;
  getuid : uid_t;
  (** [getpwuid(getuid())] *)
  getpwuid : sum Z passwd;
  (** [None] for success, [Some errno] for a return value of [-1] *)
  setuid_errno : option Z
}.

(** The conversions [(uid_t) n] and [(int) uid] between [int] and the
    32-bit unsigned [uid_t] and [gid_t]. *)
Definition toUnsigned32 (n : Z) : Z := n mod 2 ^ 32.
Definition toSigned32 (n : Z) : Z := (n + 2 ^ 31) mod 2 ^ 32 - 2 ^ 31.

Definition u_errnoSuffix (io : UserIO) (e : Z) : string :=
  u_strerror io e ++ " (errno=" ++ toString e ++ ")".

(** [user] and [group] are [args["user"]] and [args["group"]]; the result is
    what the function leaves in [*uid], [*userInfo] and [*gid]. *)
Definition lookupUserGroup (io : UserIO) (context : Context)
    (user group : string) : Run (uid_t * option passwd * gid_t) :=
  do found <-
    match getpwnam io user with
    | inl e =>
        if looksLikePositiveNumber io user then
          perform eff (PrintWarning
                 ("error looking up system user database"
                  ++ " entry for user '" ++ user ++ "': "
                  ++ u_errnoSuffix io e));
          rret (toUnsigned32 (atoi io user), None)
        else
          liftP (fatal context
                   ("Cannot lookup up system user database entry for user '"
                    ++ user ++ "': " ++ u_errnoSuffix io e))
    | inr userInfo => rret (pw_uid userInfo, Some userInfo)
    end;
  let '(uid, userInfo) := found in
  do gid <-
    match getgrnam io group with
    | inl e =>
        if looksLikePositiveNumber io group then
          perform eff (PrintWarning
                 ("error looking up system group database entry for group '"
                  ++ group ++ "': " ++ u_errnoSuffix io e));
          rret (toUnsigned32 (atoi io group))
        else
          liftP (fatal context
                   ("Cannot lookup up system group database entry for group '"
                    ++ group ++ "': " ++ u_errnoSuffix io e))
    | inr gid => rret gid
    end;
  rret (uid, userInfo, gid).

Definition lookupCurrentUserShell (io : UserIO) : Run string :=
  match getpwuid io with
  | inl e =>
      perform eff (PrintWarning
             ("cannot lookup system user database"
              ++ " entry for UID " ++ toString (toSigned32 (getuid io))
              ++ ": " ++ u_errnoSuffix io e));
      rret "/bin/sh"
  | inr userInfo => rret (pw_shell userInfo)
  end.

(** The statements of [spawnEnvSetupperMain] that pick the shell in
    [--before] mode:
    [if (shouldTrySwitchUser) { lookupUserGroup(...); shell = userInfo->pw_shell; }
     else { shell = lookupCurrentUserShell(); }].
    The result is the shell with what [uid], [userInfo] and [gid] hold
    afterwards ([None] where they were never assigned). *)
Definition lookupShell (io : UserIO) (context : Context)
    (shouldTrySwitchUser : bool) (user group : string)
    : Run (string * option (uid_t * option passwd * gid_t)) :=
  if shouldTrySwitchUser then
    do found <- lookupUserGroup io context user group;
    let '(uid, userInfo, gid) := found in
    match userInfo with
    | Some info => rret (pw_shell info, Some (uid, userInfo, gid))
    | None => crash (UndefinedBehaviour "userInfo->pw_shell")
    end
  else
    do shell <- lookupCurrentUserShell io;
    rret (shell, None).

(** *** switchUser *)

Definition switchUser (io : UserIO) (context : Context) (uid : uid_t)
    (userInfo : option passwd) : Run unit :=
  perform eff (Setuid uid);
  match setuid_errno io with
  | Some e =>
      liftP (fatal context
               ("setuid(" ++ toString uid ++ ") failed: "
                ++ u_errnoSuffix io e))
  | None =>
      match userInfo with
      | Some userInfo =>
          perform changeEnviron (setenv "USER" (pw_name userInfo) true);
          perform changeEnviron (setenv "LOGNAME" (pw_name userInfo) true);
          perform changeEnviron (setenv "SHELL" (pw_shell userInfo) true);
          changeEnviron (setenv "HOME" (pw_dir userInfo) true)
      | None =>
          perform changeEnviron (unsetenv "USER");
          perform changeEnviron (unsetenv "LOGNAME");
          perform changeEnviron (unsetenv "SHELL");
          changeEnviron (unsetenv "HOME")
      end
  end.

(** The statements of [spawnEnvSetupperMain] that drop privileges:
    [switchGroup(context, uid, userInfo, gid); dumpUserInfo(...);
     switchUser(context, uid, userInfo);].  [dumpUserInfo] writes the output
    of [id] under [envdump/] and is left out. *)
Definition switchGroupAndUser (gio : GroupIO) (io : UserIO)
    (context : Context) (uid : uid_t) (userInfo : option passwd)
    (gid : gid_t) : Run unit :=
  perform liftP (switchGroup gio context uid userInfo gid);
  switchUser io context uid userInfo.

(** *** setCurrentWorkingDirectory *)

Definition slash : Ascii.ascii := Ascii.ascii_of_nat 47.

Fixpoint containsSlash (path : string) : bool :=
  match path with
  | EmptyString => false
  | String c rest => Ascii.eqb c slash || containsSlash rest
  end.

(** [path2] after the inner loop of [inferAllParentDirectories] for the
    components [components[0..i]]. *)
Definition joinComponents (components : list string) : string :=
  foldl (fun path2 component => path2 ++ "/" ++ component) EmptyString
    components.

(** [split] is the function of [Utils/StrIntUtils.h], taken as a
    parameter.  Reading [front()] or [back()] of an empty vector is
    undefined; [P_ASSERT_EQ] stops the process. *)
Definition inferAllParentDirectories (split : string -> list string)
    (path : string) : sum Crash (list string) :=
  match split path with
  | [] => inl (UndefinedBehaviour "components.front()")
  | front :: components =>
      if negb (String.eqb front EmptyString) then
        inl (AssertFailed "components.front()")
      else
        let result :=
          (fun i =>
             let path2 := joinComponents (take (S i) components) in
             if String.eqb path2 EmptyString then "/" else path2)
          <$> seq 0 (length components) in
        match last result with
        | None => inl (UndefinedBehaviour "result.back()")
        | Some back =>
            if String.eqb back path then inr result
            else inl (AssertFailed "result.back()")
        end
  end.

(** The text before the last ['/'] of [path], as the [strrchr] and
    [memcpy] of [setCurrentWorkingDirectory] compute it for paths shorter
    than [PATH_MAX]; [None] when [path] holds no ['/'] and [strrchr]
    returns [NULL]. *)
Fixpoint parentOf (path : string) : option string :=
  match path with
  | EmptyString => None
  | String c rest =>
      match parentOf rest with
      | Some parent => Some (String c parent)
      | None => if Ascii.eqb c slash then Some EmptyString else None
      end
  end.

Record CwdIO := mkCwdIO {
  absolutizePath : string -> string;
  split : string -> list string;
  (** [None] for success, [Some errno] for a return value of [-1] *)
  stat_errno : string -> option Z;
  chdir_errno : string -> option Z;
  EACCES : Z;
  EPERM : Z;
  c_strerror : Z -> string;
  getProcessUsername : string;
  (** [getGroupName(getgid())] *)
  getGroupName : string;
  PROGRAM_NAME : string;
  SHORT_PROGRAM_NAME : string;
  escapeHTML : string -> string
}.

Definition c_errnoSuffix (io : CwdIO) (e : Z) : string :=
  c_strerror io e ++ " (errno=" ++ toString e ++ ")".

(** The body of the loop over [appRootAndParentDirs]. *)
Definition checkDirectory (io : CwdIO) (context : Context) (appRoot : string)
    (dir : string) : Run unit :=
  perform eff (Stat dir);
  match stat_errno io dir with
  | Some e =>
      if bool_decide (e = EACCES io) then
        match parentOf dir with
        | None => crash (UndefinedBehaviour "end - it->c_str()")
        | Some parent =>
            perform liftP (recordJourneyStepErrored context);
            perform liftP (recordErrorCategory OPERATING_SYSTEM_ERROR);
            perform liftP (recordAndPrintErrorSummary
                   ("Directory '" ++ parent ++ "' is inaccessible because of a"
                    ++ " filesystem permission error.") false);
            perform eff (RecordProblemDescriptionHTML
                   ("<p>"
                    ++ "The " ++ PROGRAM_NAME io
                    ++ " application server tried to start the"
                    ++ " web application as user '"
                    ++ escapeHTML io (getProcessUsername io)
                    ++ "' and group '" ++ escapeHTML io (getGroupName io)
                    ++ "'. During this process, " ++ SHORT_PROGRAM_NAME io
                    ++ " must be able to access its application root directory '"
                    ++ escapeHTML io appRoot
                    ++ "'. However, the parent directory '"
                    ++ escapeHTML io parent
                    ++ "' has wrong permissions, thereby preventing this"
                    ++ " process from accessing its application root directory."
                    ++ "</p>"));
            perform eff (RecordSolutionDescriptionHTML
                   ("<p class=" ++ dq ++ "sole-solution" ++ dq ++ ">"
                    ++ "Please fix the permissions of the directory '"
                    ++ escapeHTML io appRoot
                    ++ "' in such a way that the directory is accessible by user '"
                    ++ escapeHTML io (getProcessUsername io) ++ "' and group '"
                    ++ escapeHTML io (getGroupName io) ++ "'."
                    ++ "</p>"));
            liftP (exit 1)
        end
      else
        liftP (fatal context
                 ("Unable to stat() directory '" ++ dir ++ "': "
                  ++ c_errnoSuffix io e))
  | None => rret tt
  end.

Fixpoint checkDirectories (io : CwdIO) (context : Context) (appRoot : string)
    (dirs : list string) : Run unit :=
  match dirs with
  | [] => rret tt
  | dir :: dirs =>
      perform checkDirectory io context appRoot dir;
      checkDirectories io context appRoot dirs
  end.

(** [app_root] is [context.args["app_root"]]. *)
Definition setCurrentWorkingDirectory (io : CwdIO) (context : Context)
    (app_root : string) : Run unit :=
  let appRoot := absolutizePath io app_root in
  match inferAllParentDirectories (split io) appRoot with
  | inl c => crash c
  | inr appRootAndParentDirs =>
      perform checkDirectories io context appRoot appRootAndParentDirs;
      perform eff (Chdir appRoot);
      match chdir_errno io appRoot with
      | Some e =>
          perform liftP (recordJourneyStepErrored context);
          perform liftP (recordErrorCategory OPERATING_SYSTEM_ERROR);
          perform liftP (recordAndPrintErrorSummary
                 ("Unable to change working directory to '" ++ appRoot ++ "': "
                  ++ c_errnoSuffix io e) true);
          perform (if bool_decide (e = EPERM io) || bool_decide (e = EACCES io)
                then
                  eff (RecordProblemDescriptionHTML
                    ("<p>The " ++ PROGRAM_NAME io
                     ++ " application server tried to start the"
                     ++ " web application as user "
                     ++ escapeHTML io (getProcessUsername io)
                     ++ " and group " ++ escapeHTML io (getGroupName io)
                     ++ ", with a working directory of "
                     ++ escapeHTML io appRoot
                     ++ ". However, it encountered a filesystem"
                     ++ " permission error while doing this.</p>"))
                else
                  eff (RecordProblemDescriptionHTML
                    ("<p>The " ++ PROGRAM_NAME io
                     ++ " application server tried to start the"
                     ++ " web application as user "
                     ++ escapeHTML io (getProcessUsername io)
                     ++ " and group " ++ escapeHTML io (getGroupName io)
                     ++ ", with a working directory of "
                     ++ escapeHTML io appRoot
                     ++ ". However, it encountered a filesystem"
                     ++ " error while doing this.</p>")));
          liftP (exit 1)
      | None => changeEnviron (setenv "PWD" appRoot true)
      end
  end.

(** *** execNextCommand *)

Definition recordJourneyStepPerformed (context : Context) : P unit :=
  act (RecordJourneyStepComplete (step context) STEP_PERFORMED).

(** The members of [args.json] that [execNextCommand] reads, the helpers of
    [Utils.h] and [Utils/StrIntUtils.h] it calls, and the answer of
    [execvp]: [None] when the process image was replaced, [Some errno] when
    the call returned. *)
Record ExecIO := mkExecIO {
  load_shell_envvars : bool;
  passenger_agent_path : string;
  starts_using_wrapper : bool;
  start_command : string;
  extractBaseName : string -> string;
  strip : string -> string;
  e_strerror : Z -> string;
  execvp_errno : option Z
}.

Definition shouldLoadShellEnvvars (io : ExecIO) (shell : string) : bool :=
  if load_shell_envvars io then
    let shellName := extractBaseName io shell in
    String.eqb shellName "bash" || String.eqb shellName "zsh"
    || String.eqb shellName "ksh"
  else false.

(** The arguments are those before the terminating [NULL]. *)
Definition commandArgsToString (io : ExecIO) (commandArgs : list string)
    : string :=
  strip io
    (foldl (fun result arg => result ++ arg ++ " ") EmptyString commandArgs).

(** The command line and the journey step that [execNextCommand] picks. *)
Definition nextCommand (io : ExecIO) (context : Context) (shell : string)
    : list string * JourneyStep :=
  match mode context with
  | BEFORE_MODE =>
      let '(commandArgs, nextJourneyStep) :=
        if shouldLoadShellEnvvars io shell then
          ([ shell; "-lc"; "exec " ++ dq ++ "$@" ++ dq;
             "SpawnEnvSetupperShell" ], SUBPROCESS_OS_SHELL)
        else ([], SUBPROCESS_SPAWN_ENV_SETUPPER_AFTER_SHELL) in
      ((commandArgs
        ++ [ passenger_agent_path io; "spawn-env-setupper"; workDir context;
             "--after" ])%list, nextJourneyStep)
  | AFTER_MODE =>
      ([ "/bin/sh"; "-c"; start_command io ],
       if starts_using_wrapper io then SUBPROCESS_EXEC_WRAPPER
       else SUBPROCESS_APP_LOAD_OR_EXEC)
  end.

Definition execNextCommand (io : ExecIO) (context : Context) (shell : string)
    : Run Empty_set :=
  if match mode context with
     | BEFORE_MODE => String.eqb shell EmptyString
     | AFTER_MODE => false
     end
  then crash (AssertFailed "!shell.empty()")
  else
    let '(commandArgs, nextJourneyStep) := nextCommand io context shell in
    perform liftP (act (RecordJourneyStepComplete (step context) STEP_PERFORMED));
    perform eff (RecordJourneyStepInProgress nextJourneyStep);
    perform eff (Execvp commandArgs);
    match execvp_errno io with
    | None => fun env => mkRan [] env Replaced
    | Some e =>
        perform liftP (act (RecordJourneyStepComplete nextJourneyStep STEP_ERRORED));
        perform liftP (recordErrorCategory OPERATING_SYSTEM_ERROR);
        perform liftP (recordAndPrintErrorSummary
               ("Unable to execute command '"
                ++ commandArgsToString io commandArgs
                ++ "': " ++ e_strerror io e
                ++ " (errno=" ++ toString e ++ ")") true);
        liftP (exit 1)
    end.

(** The start of [spawnEnvSetupperMain]: the argument check, and the work
    directory, mode and step that it stores in the context.  [inl 1] is the
    [exit(1)] after the usage message. *)
Definition contextFromArgv (argv : list string)
    : sum Z (string * Mode * JourneyStep) :=
  match argv with
  | [ _; _; workDir; modeArg ] =>
      let mode := if String.eqb modeArg "--before" then BEFORE_MODE
                  else AFTER_MODE in
      inr (workDir, mode,
           match mode with
           | BEFORE_MODE => SUBPROCESS_SPAWN_ENV_SETUPPER_BEFORE_SHELL
           | AFTER_MODE => SUBPROCESS_SPAWN_ENV_SETUPPER_AFTER_SHELL
           end)
  | _ => inl 1
  end.

(** Neither [stat] nor [chdir] is called. *)
Definition quiet (rest : list Effect) : Prop :=
  forall p, (Stat p ∉ rest) /\ (Chdir p ∉ rest).

End SpawnEnvSetupperMain.

(** ** Runs of the spawner that cannot report a crashed preloader *)

Module CrashFreedom.
Import SmartSpawner.

(** A run that never ends in [PreloaderCrashed]. *)
Definition noCrash {A} (m : M A) : Prop :=
  forall s e s', m s <> Throws (PreloaderCrashed e) s'.

End CrashFreedom.

(** ** Further scenarios *)

Module Scenarios.
Import Journey SmartSpawner SpawnerSpec SpawnEnvSetupper SetupperSpec
  SpawnEnvSetupperMain.

(** A journey without preloader steps. *)
Definition directJourney : Journey := newJourney SPAWN_DIRECTLY false.

(** [preparingJourney] with its preparation step finished at 1.5 s. *)
Definition preparedJourney : Journey :=
  storeStepInfo preparingJourney SPAWNING_KIT_PREPARATION
    (mkJourneyStepInfo STEP_PERFORMED 1000000 1500000).

(** The journey while the response of the preloader is being parsed. *)
Definition parsingJourney : Journey :=
  storeStepInfo preparingJourney SPAWNING_KIT_PARSE_RESPONSE_FROM_PRELOADER
    (mkJourneyStepInfo STEP_IN_PROGRESS 1000000 0).
Definition sParsing : St := stateWith parsingJourney.

(** Externals whose JSON reader understands the response of the preloader. *)
Definition XReader : Externals :=
  mkExternals "Phusion Passenger" "Passenger"
    "https://www.phusionpassenger.com/support"
    (fun text => text) (fun _ => Some (okResponse 777)) (fun _ => EmptyString)
    (fun _ => EmptyString) (fun _ => INTERNAL_ERROR) (fun e => e)
    (fun _ => None) (fun n => 1000000 + 10000 * Z.of_nat n).

(** The preloader answers, the child's output FIFO opens and [ps] reports
    the expected uid. *)
Definition ioSuccess : ForkIO :=
  mkForkIO (inr 7) None (inr (responseOfSize 30))
    false FifoTimedOut true (FifoJoined 9 0) (inr 501) true EmptyString None.

(** The preloader does not accept connections. *)
Definition ioCrashInConnect : ForkIO :=
  mkForkIO (inl (SystemException "Connection refused" 111)) None
    (inr EmptyString)
    false FifoTimedOut false FifoTimedOut (inr 501) true EmptyString None.

(** [ps] no longer knows the process, which has gone. *)
Definition ioVanished : ForkIO :=
  mkForkIO (inr 7) None (inr EmptyString)
    false FifoTimedOut true (FifoJoined 9 0) (inr uid_minus_one) false
    "App 777 output: out of memory" None.

Definition errorResponse : Json :=
  JObject [("result", JString "error"); ("message", JString "fork failed")].

(** The pool options cannot be turned into a config. *)
Definition spawnIOBadConfig : SpawnIO :=
  mkSpawnIO 1700000000000000 None (StartOk 4242 "unix:/tmp/psg.sock" ∅)
    (inl (RuntimeException "app root is not a directory")) false 501 90000000
    "/tmp/w1" "/tmp/w1/response" (ret tt)
    ioHappy stopQuietly (StartOk 4243 "unix:/tmp/psg2.sock" ∅)
    ioHappy stopQuietly (fun _ => ret tt).

(** [setgid] is refused. *)
Definition groupIOSetgidDenied : GroupIO :=
  mkGroupIO true 65536 (fun _ => "Operation not permitted")
    2 [1000; 27] 2 0 (fun n => replicate (Z.to_nat n) 0) None None (Some 1).

(** A platform without [getgrouplist]. *)
Definition groupIOWithoutGetgrouplist : GroupIO :=
  mkGroupIO false 65536 (fun _ => "Operation not permitted")
    0 [] 0 0 (fun n => replicate (Z.to_nat n) 0) None None None.

(** The user database knows [app] only; [1001] looks like a number. *)
Definition userIOExample : UserIO :=
  mkUserIO
    (fun name => if String.eqb name "app" then inr appUser else inl 0)
    (fun name => if String.eqb name "app" then inr 1000 else inl 0)
    (fun name => String.eqb name "1001")
    (fun _ => 1001) (fun _ => "Success") 0 (inr appUser) None.

(** The application root [/srv/app], where [/srv] may not be searched. *)
Definition cwdIOExample : CwdIO :=
  mkCwdIO (fun path => path) (fun _ => [EmptyString; "srv"; "app"])
    (fun path => if String.eqb path "/srv/app" then Some 13 else None)
    (fun _ => None) 13 1 (fun _ => "Permission denied") "app" "app"
    "Phusion Passenger" "Passenger" (fun text => text).

Definition execIOExample : ExecIO :=
  mkExecIO true "/usr/lib/passenger/PassengerAgent" false "node app.js"
    (fun _ => "bash") (fun text => text) (fun _ => "No such file or directory")
    (Some 2).

End Scenarios.

(** ** Properties of the journey tracker *)

Module JourneyFacts.
Import Journey Spec.

Lemma map_assign_keys k v (m : Map) : (map_assign k v m).*1 = m.*1.
Proof.
  induction m as [|[k' v'] m IH]; [done|].
  cbn [map_assign]. case_decide; rewrite !fmap_cons; [done|].
  by rewrite IH.
Qed.

Lemma map_find_assign k k' v (m : Map) :
  map_find k' (map_assign k v m)
  = if decide (k' = k) then const v <$> map_find k m else map_find k' m.
Proof.
  induction m as [|[k0 v0] m IH]; simpl.
  - by case_decide.
  - destruct (decide (k = k0)) as [->|Hne]; simpl.
    + destruct (decide (k' = k0)) as [->|]; simpl; by repeat case_decide.
    + rewrite IH. destruct (decide (k' = k0)) as [->|]; simpl.
      * by rewrite decide_False by done.
      * done.
Qed.

Lemma stepState_store j step info step' :
  stepState (storeStepInfo j step info) step'
  = if decide (step' = step)
    then const (state info) <$> map_find step (steps j)
    else stepState j step'.
Proof.
  unfold stepState, storeStepInfo; simpl. rewrite map_find_assign.
  case_decide; [|done]. by destruct (map_find step (steps j)).
Qed.

(** C6 (as amended).  For every journey type and wrapper flag, the
    constructor populates exactly: for SpawnDirectly and StartPreloader the
    orchestrator steps Preparation, ForkSubprocess, HandshakePerform, Finish
    and every subprocess step except PrepareAfterForkingFromPreloader, the
    two wrapper steps being present iff usingWrapper; for
    SpawnThroughPreloader the eight orchestrator steps, the four preloader
    steps and the subprocess steps PrepareAfterForkingFromPreloader, Listen,
    Finish. *)
Theorem constructor_populates_step_set (t : JourneyType) (w : bool)
    (s : JourneyStep) :
  hasStep (newJourney t w) s = bool_decide (s ∈ populatedStepSet t w).
Proof. destruct t, w, s; vm_compute; reflexivity. Qed.

(** C6 (as stated) fails: the specification's table counts
    PrepareAfterForkingFromPreloader among "all subprocess steps", and a
    SpawnDirectly journey does not have it. *)
Lemma claimed_step_set_counterexample :
  SUBPROCESS_PREPARE_AFTER_FORKING_FROM_PRELOADER
    ∈ claimedStepSet SPAWN_DIRECTLY true
  /\ hasStep (newJourney SPAWN_DIRECTLY true)
       SUBPROCESS_PREPARE_AFTER_FORKING_FROM_PRELOADER = false.
Proof.
  split; [|reflexivity].
  apply (bool_decide_unpack _). vm_compute. exact I.
Qed.

Lemma stepState_find j step s :
  stepState j step = Some s ->
  exists info, map_find step (steps j) = Some info /\ state info = s.
Proof.
  unfold stepState. destruct (map_find step (steps j)) as [info|]; [|done].
  intros [= <-]. eauto.
Qed.

(** The calls that go through when [force == false]: the step ends in the
    mutator's target state and no other step changes. *)
Lemma call_guarded (m : Mutator) (now : MonotonicTimeUsec) (j : Journey)
    (step : JourneyStep) (s : JourneyStepState) :
  stepState j step = Some s ->
  (m <> SetStepPerformed /\ guardedTransition s (target m) = true)
  \/ (m = SetStepPerformed /\ (s = STEP_IN_PROGRESS \/ s = STEP_PERFORMED)) ->
  exists j', call m now step false j = inr j'
    /\ stepState j' step = Some (target m)
    /\ forall step', step' <> step -> stepState j' step' = stepState j step'.
Proof.
  intros Hs Hm. pose proof Hs as (info & Hfind & Hst)%stepState_find.
  assert (Hstore : forall info', stepState (storeStepInfo j step info') step
                                 = Some (state info')).
  { intros info'. rewrite stepState_store, decide_True, Hfind; done. }
  assert (Hother : forall info' step', step' <> step ->
            stepState (storeStepInfo j step info') step' = stepState j step').
  { intros info' step' Hne. by rewrite stepState_store, decide_False. }
  destruct Hm as [[Hm Hg] | [-> Hsrc]].
  - destruct m; [| |done|]; destruct s; try discriminate Hg;
      cbn [target call];
      unfold setStepNotStarted, setStepInProgress, setStepErrored,
        getStepInfoMutable, getStepInfo;
      rewrite Hfind, Hst; cbn;
      first [ by eexists; split; [reflexivity|]; split; [apply Hstore|apply Hother]
            | by eexists; split; [reflexivity|]; split; [exact Hs|] ].
  - destruct Hsrc as [-> | ->]; cbn [target call];
      unfold setStepPerformed, getStepInfoMutable, getStepInfo;
      rewrite Hfind, Hst; cbn;
      first [ by eexists; split; [reflexivity|]; split; [apply Hstore|apply Hother]
            | by eexists; split; [reflexivity|]; split; [exact Hs|] ].
Qed.

(** The calls that the guards refuse. *)
Lemma call_refused (m : Mutator) (now : MonotonicTimeUsec) (j : Journey)
    (step : JourneyStep) (s : JourneyStepState) :
  stepState j step = Some s ->
  m <> SetStepPerformed -> guardedTransition s (target m) = false ->
  exists msg, call m now step false j = inl (RuntimeException msg).
Proof.
  intros (info & Hfind & Hst)%stepState_find Hm Hg.
  destruct m; [| |done|]; destruct s; try discriminate Hg; cbn [call];
    unfold setStepNotStarted, setStepInProgress, setStepErrored,
      getStepInfoMutable, getStepInfo;
    rewrite Hfind, Hst; cbn; by eexists.
Qed.

(** A successful call leaves the record of every other step as it was:
    state, start time and end time. *)
Lemma call_frame (m : Mutator) (now : MonotonicTimeUsec) (step : JourneyStep)
    (force : bool) (j j' : Journey) :
  call m now step force j = inr j' ->
  forall step', step' <> step -> getStepInfo j' step' = getStepInfo j step'.
Proof.
  intros Hcall step' Hne.
  assert (Hstore : forall info,
            getStepInfo (storeStepInfo j step info) step' = getStepInfo j step').
  { intros info. unfold getStepInfo, storeStepInfo. cbn.
    by rewrite map_find_assign, decide_False. }
  revert Hcall.
  destruct m; cbn [call];
    unfold setStepNotStarted, setStepInProgress, setStepPerformed,
      setStepErrored, getStepInfoMutable, getStepInfo at 1;
    destruct (map_find step (steps j)); try discriminate;
    repeat case_match; intros [= <-]; first [reflexivity | apply Hstore].
Qed.

(** The early returns of setStepInProgress, setStepPerformed and
    setStepErrored: on a step that already is in the target state the
    journey is not touched. *)
Lemma call_noop (m : Mutator) (now : MonotonicTimeUsec) (step : JourneyStep)
    (force : bool) (j : Journey) :
  m <> SetStepNotStarted -> stepState j step = Some (target m) ->
  call m now step force j = inr j.
Proof.
  intros Hm (info & Hfind & Hst)%stepState_find.
  destruct m; [done| | |]; cbn [call target] in *;
    unfold setStepInProgress, setStepPerformed, setStepErrored,
      getStepInfoMutable, getStepInfo;
    rewrite Hfind, Hst; reflexivity.
Qed.

(** C2 (as amended).  For a populated step in state [s] and [force ==
    false]: setStepNotStarted, setStepInProgress and setStepErrored succeed,
    leaving the step in their target state, exactly on NotStarted→InProgress,
    InProgress→Errored, NotStarted→NotStarted, the reset
    InProgress→NotStarted, and on a step already InProgress resp. Errored;
    from any other state they fail with a RuntimeException.  setStepPerformed
    succeeds on a step that is InProgress or already Performed.  Every other
    step is unchanged: its state, and its whole record with both times.  The
    calls of setStepInProgress, setStepErrored and setStepPerformed that find
    the step in their target state are no-ops: the journey they leave is the
    journey they found. *)
Theorem mutator_transitions (m : Mutator) (now : MonotonicTimeUsec)
    (j : Journey) (step : JourneyStep) (s : JourneyStepState) :
  stepState j step = Some s ->
  (m <> SetStepPerformed ->
   if guardedTransition s (target m)
   then exists j', call m now step false j = inr j'
          /\ stepState j' step = Some (target m)
          /\ (forall step', step' <> step ->
              stepState j' step' = stepState j step'
              /\ getStepInfo j' step' = getStepInfo j step')
          /\ (m <> SetStepNotStarted -> s = target m -> j' = j)
   else exists msg, call m now step false j = inl (RuntimeException msg))
  /\ (m = SetStepPerformed ->
      s = STEP_IN_PROGRESS \/ s = STEP_PERFORMED ->
      exists j', call m now step false j = inr j'
        /\ stepState j' step = Some STEP_PERFORMED
        /\ (forall step', step' <> step ->
            stepState j' step' = stepState j step'
            /\ getStepInfo j' step' = getStepInfo j step')
        /\ (s = STEP_PERFORMED -> j' = j)).
Proof.
  intros Hs.
  assert (Hok : forall j',
            call m now step false j = inr j' ->
            (forall step', step' <> step -> stepState j' step' = stepState j step') ->
            (forall step', step' <> step ->
               stepState j' step' = stepState j step'
               /\ getStepInfo j' step' = getStepInfo j step')
            /\ (m <> SetStepNotStarted -> s = target m -> j' = j)).
  { intros j' Hcall Hstates. split.
    - intros step' Hne. split; [by apply Hstates|].
      by apply (call_frame m now step false j j' Hcall).
    - intros Hm ->.
      rewrite (call_noop m now step false j Hm Hs) in Hcall.
      by injection Hcall. }
  split.
  - intros Hm. destruct (guardedTransition s (target m)) eqn:Hg.
    + destruct (call_guarded m now j step s Hs) as (j' & Hcall & Hst & Hstates);
        [left; by split|].
      exists j'. split; [exact Hcall|]. split; [exact Hst|]. by apply Hok.
    + by apply (call_refused m now j step s Hs).
  - intros Hm Hsrc.
    destruct (call_guarded m now j step s Hs) as (j' & Hcall & Hst & Hstates);
      [right; by split|].
    destruct (Hok j' Hcall Hstates) as [Hframe Hnoop]. subst m.
    exists j'. split; [exact Hcall|]. split; [exact Hst|].
    split; [exact Hframe|]. intros ->. by apply Hnoop.
Qed.

Lemma mutator_transitions_witness :
  stepState (newJourney SPAWN_THROUGH_PRELOADER false)
    SPAWNING_KIT_CONNECT_TO_PRELOADER = Some STEP_NOT_STARTED
  /\ exists j', call SetStepInProgress 100 SPAWNING_KIT_CONNECT_TO_PRELOADER
                  false (newJourney SPAWN_THROUGH_PRELOADER false) = inr j'
        /\ stepState j' SPAWNING_KIT_CONNECT_TO_PRELOADER
           = Some STEP_IN_PROGRESS.
Proof.
  split; [reflexivity|].
  destruct (mutator_transitions SetStepInProgress 100
              (newJourney SPAWN_THROUGH_PRELOADER false)
              SPAWNING_KIT_CONNECT_TO_PRELOADER STEP_NOT_STARTED eq_refl)
    as [H _].
  destruct (H ltac:(discriminate)) as (j' & H1 & H2 & _).
  exists j'. split; assumption.
Defined.

(** C2 (as stated) fails: with [force == false], setStepNotStarted on a step
    that is InProgress succeeds, and InProgress→NotStarted is not among the
    four transitions of the claim. *)
Lemma claimed_transition_counterexample :
  exists j0 j1,
    setStepInProgress 100 SPAWNING_KIT_CONNECT_TO_PRELOADER false
      (newJourney SPAWN_THROUGH_PRELOADER false) = inr j0
    /\ stepState j0 SPAWNING_KIT_CONNECT_TO_PRELOADER = Some STEP_IN_PROGRESS
    /\ setStepNotStarted SPAWNING_KIT_CONNECT_TO_PRELOADER false j0 = inr j1
    /\ stepState j1 SPAWNING_KIT_CONNECT_TO_PRELOADER = Some STEP_NOT_STARTED
    /\ claimedTransition STEP_IN_PROGRESS STEP_NOT_STARTED = false.
Proof.
  eexists _, _. split; [vm_compute; reflexivity|].
  split; [reflexivity|]. split; [vm_compute; reflexivity|].
  split; reflexivity.
Qed.

(** *** The first failed step *)

Lemma stepOrd_inj a b : stepOrd a = stepOrd b -> a = b.
Proof. destruct a, b; simpl; intros H; first [reflexivity | discriminate H]. Qed.

Lemma map_find_elem_of k v (m : Map) : map_find k m = Some v -> k ∈ m.*1.
Proof.
  induction m as [|[k' v'] m IH]; [done|].
  cbn [map_find]. rewrite fmap_cons. case_decide as Hk.
  - intros _. subst. apply list_elem_of_here.
  - intros H. apply list_elem_of_further. auto.
Qed.

Lemma firstErrored_spec (m : Map) :
  keysAscending m.*1 ->
  (firstErrored m = UNKNOWN_JOURNEY_STEP
   <-> forall k v, map_find k m = Some v -> state v <> STEP_ERRORED)
  /\ (forall k v, map_find k m = Some v -> state v = STEP_ERRORED ->
      (exists v', map_find (firstErrored m) m = Some v'
                  /\ state v' = STEP_ERRORED)
      /\ (stepOrd (firstErrored m) <= stepOrd k)%nat).
Proof.
  induction m as [|[k0 v0] m IH]; [by split|].
  rewrite fmap_cons. intros [Hsorted Hunk].
  apply StronglySorted_inv in Hsorted as [Hsorted Hhead].
  apply not_elem_of_cons in Hunk as [Hk0 Hunk].
  destruct (IH (conj Hsorted Hunk)) as [IHu IHf]. clear IH.
  assert (Hlater : forall k v, map_find k m = Some v ->
                               (stepOrd k0 < stepOrd k)%nat).
  { intros k v Hf. apply map_find_elem_of in Hf.
    rewrite Forall_forall in Hhead. by apply Hhead. }
  assert (Hskip : forall k v, map_find k m = Some v ->
                              map_find k ((k0, v0) :: m) = Some v).
  { intros k v Hf. cbn [map_find].
    rewrite decide_False; [done|].
    intros ->. apply Hlater in Hf. lia. }
  cbn [firstErrored]. destruct (decide (state v0 = STEP_ERRORED)) as [Hv0|Hv0].
  - split.
    + split; [by intros ?|].
      intros H. exfalso. apply (H k0 v0); [|done].
      cbn [map_find]. by rewrite decide_True.
    + intros k v Hf Hs. split.
      * exists v0. cbn [map_find]. by rewrite decide_True.
      * cbn [map_find] in Hf. case_decide; [subst; lia|].
        apply Hlater in Hf. lia.
  - split.
    + rewrite IHu. split.
      * intros H k v Hf. cbn [map_find] in Hf.
        case_decide; [by simplify_eq|]. eauto.
      * intros H k v Hf. eapply H, Hskip, Hf.
    + intros k v Hf Hs. cbn [map_find] in Hf.
      case_decide; [by simplify_eq|].
      destruct (IHf k v Hf Hs) as [(v' & Hf' & Hs') Hle].
      split; [|done]. exists v'. split; [|done]. by apply Hskip.
Qed.

Lemma reachable_keys (j : Journey) :
  reachable j ->
  (steps j).*1 = (steps (newJourney (type j) (usingWrapper j))).*1.
Proof.
  induction 1 as [t w | m now step force j j' _ IH Hcall
                 | step usec j j' _ IH Hcall]; [done| |].
  - assert (type j' = type j /\ usingWrapper j' = usingWrapper j
            /\ (steps j').*1 = (steps j).*1) as (-> & -> & ->); [|done].
    destruct m; cbn [call] in Hcall;
      unfold setStepNotStarted, setStepInProgress, setStepPerformed,
        setStepErrored, getStepInfoMutable, getStepInfo in Hcall;
      destruct (map_find step (steps j)); try discriminate;
      repeat case_match; simplify_eq; cbn;
      rewrite ?map_assign_keys; done.
  - unfold setStepExecutionDuration, getStepInfoMutable, getStepInfo in Hcall.
    destruct (map_find step (steps j)); simplify_eq. cbn.
    by rewrite map_assign_keys, IH.
Qed.

Lemma constructor_keysAscending t w : keysAscending (steps (newJourney t w)).*1.
Proof.
  destruct t, w; vm_compute;
    (split; [repeat first [apply SSorted_nil | apply SSorted_cons
                          | apply Forall_nil_2 | apply Forall_cons_2 | lia]
            | intros H; repeat (apply elem_of_cons in H as [H|H];
                                [discriminate H|]);
              by apply elem_of_nil in H]).
Qed.

(** C7.  For every journey that the constructor and the mutators can
    produce, getFirstFailedStep returns the Unknown sentinel if and only if
    no populated step is Errored; and when some step is Errored, the step it
    returns is Errored and no Errored step precedes it in the enum
    declaration order. *)
Theorem getFirstFailedStep_spec (j : Journey) :
  reachable j ->
  (getFirstFailedStep j = UNKNOWN_JOURNEY_STEP
   <-> forall s, stepState j s <> Some STEP_ERRORED)
  /\ (forall s, stepState j s = Some STEP_ERRORED ->
      stepState j (getFirstFailedStep j) = Some STEP_ERRORED
      /\ (stepOrd (getFirstFailedStep j) <= stepOrd s)%nat).
Proof.
  intros Hreach.
  assert (Hkeys : keysAscending (steps j).*1).
  { rewrite (reachable_keys j Hreach). apply constructor_keysAscending. }
  destruct (firstErrored_spec (steps j) Hkeys) as [Hu Hf].
  unfold getFirstFailedStep, stepState. split.
  - rewrite Hu. split.
    + intros H s Hs. destruct (map_find s (steps j)) as [v|] eqn:Hv; [|done].
      injection Hs as Hs. by apply (H s v).
    + intros H k v Hv Hs. apply (H k). by rewrite Hv, <- Hs.
  - intros s Hs. destruct (map_find s (steps j)) as [v|] eqn:Hv; [|done].
    injection Hs as Hs. destruct (Hf s v Hv Hs) as [(v' & Hv' & Hs') Hle].
    split; [|done]. by rewrite Hv', <- Hs'.
Qed.

Lemma getFirstFailedStep_spec_witness :
  exists j,
    reachable j
    /\ stepState j SPAWNING_KIT_PREPARATION = Some STEP_ERRORED
    /\ getFirstFailedStep j = SPAWNING_KIT_PREPARATION
    /\ stepState j (getFirstFailedStep j) = Some STEP_ERRORED.
Proof.
  pose (j0 := newJourney SPAWN_THROUGH_PRELOADER true).
  destruct (setStepErrored 7 SPAWNING_KIT_PREPARATION true j0) as [e|j] eqn:Hj;
    [discriminate Hj|].
  assert (Hreach : reachable j).
  { exact (reach_call SetStepErrored 7 SPAWNING_KIT_PREPARATION true j0 j
             (reach_new _ _) Hj). }
  injection Hj as <-.
  eexists. split; [exact Hreach|]. split; [reflexivity|].
  split; [reflexivity|].
  exact (proj1 (proj2 (getFirstFailedStep_spec _ Hreach)
                  SPAWNING_KIT_PREPARATION eq_refl)).
Defined.

End JourneyFacts.

(** ** Properties of the smart spawner *)

Module SmartSpawnerFacts.
Import Journey SmartSpawner Spec SpawnerSpec JourneyFacts.

Lemma adjustTimeoutValue_reversed startTime now timeout :
  0 <= startTime < now -> now < 2 ^ 64 ->
  0 <= timeout < 2 ^ 64 - (now - startTime) ->
  adjustTimeoutValue startTime now timeout = Some 0.
Proof.
  intros H1 H2 H3. unfold adjustTimeoutValue, wrap64.
  rewrite bool_decide_true by lia.
  replace ((startTime - now) mod 2 ^ 64) with (2 ^ 64 - (now - startTime)).
  - by rewrite bool_decide_false by lia.
  - apply Z.mod_unique with (q := -1); lia.
Qed.

(** C3 (the code at the failing input).  Whenever time has passed during
    openFifoWithTimeout and the timeout is below [2^64 - elapsed], the call
    leaves the caller's timeout at zero on every exit (file descriptor,
    SystemException, TimeoutException, interruption), although the
    saturating decrement [max(0, old - elapsed)] is positive: the difference
    is computed as [startTime - now] in unsigned arithmetic. *)
Theorem openFifoWithTimeout_timeout_bug X path outcome s :
  let startTime := clock X (ticks s) in
  let now := clock X (S (ticks s)) in
  0 <= startTime < now -> now < 2 ^ 64 ->
  now - startTime < s_timeoutUsec (session s) < 2 ^ 64 - (now - startTime) ->
  s_timeoutUsec (session (finalState (openFifoWithTimeout X path outcome s))) = 0
  /\ claimedAdjustedTimeout startTime now (s_timeoutUsec (session s)) > 0.
Proof.
  intros startTime now H1 H2 H3. split.
  - assert (Hadj : forall s', ticks s' = S (ticks s) ->
       s_timeoutUsec (session s') = s_timeoutUsec (session s) ->
       adjustTimeout X startTime s' = Returns tt (withTimeoutUsec 0 (tick s'))).
    { intros s' Ht Hto. unfold adjustTimeout, getMonotonicUsec, bind, get.
      cbn. rewrite Ht, Hto. fold now.
      rewrite adjustTimeoutValue_reversed by lia. reflexivity. }
    unfold openFifoWithTimeout, getMonotonicUsec, bind, scopeExit, scopeGuard,
      try_catch, bind.
    fold startTime.
    destruct outcome as [fd errcode| | |w code]; [case_bool_decide| | |];
      cbn [throw ret]; rewrite (Hadj (tick s)) by reflexivity; reflexivity.
  - unfold claimedAdjustedTimeout. lia.
Qed.

Lemma openFifoWithTimeout_timeout_bug_witness :
  s_timeoutUsec (session (finalState
    (openFifoWithTimeout X0 "/tmp/w1/response/stdin" (FifoJoined 9 0) s0))) = 0
  /\ claimedAdjustedTimeout 1000000 1010000 90000000 > 0.
Proof.
  apply (openFifoWithTimeout_timeout_bug X0 "/tmp/w1/response/stdin"
           (FifoJoined 9 0) s0); cbn; lia.
Defined.

(** *** Running the monad *)

Lemma bind_Returns {A B} (m : M A) (k : A -> M B) s a s' :
  m s = Returns a s' -> bind m k s = k a s'.
Proof. unfold bind. by intros ->. Qed.
Lemma bind_Throws {A B} (m : M A) (k : A -> M B) s t s' :
  m s = Throws t s' -> bind m k s = Throws t s'.
Proof. unfold bind. by intros ->. Qed.
Lemma bind_Aborts {A B} (m : M A) (k : A -> M B) s f s' :
  m s = Aborts f s' -> bind m k s = Aborts f s'.
Proof. unfold bind. by intros ->. Qed.
Lemma try_catch_Returns {A} (m : M A) h s a s' :
  m s = Returns a s' -> try_catch m h s = Returns a s'.
Proof. unfold try_catch. by intros ->. Qed.
Lemma try_catch_Throws {A} (m : M A) h s t s' :
  m s = Throws t s' -> try_catch m h s = h t s'.
Proof. unfold try_catch. by intros ->. Qed.
Lemma try_catch_Aborts {A} (m : M A) h s f s' :
  m s = Aborts f s' -> try_catch m h s = Aborts f s'.
Proof. unfold try_catch. by intros ->. Qed.

(** C10 (the code at the failing input).  When the work directory has no
    response/stdout_and_err (and no response/stdin) and the spawned process
    passes the UID check, handleForkCommandResponseSuccess reaches
    [stdoutAndErrCapturer->stop()] with a null capturer and the process
    stops there; the session and the spawner are as they were. *)
Theorem capturer_null_dereference X io doc s :
  io_stdinExists io = false ->
  io_stdoutAndErrExists io = false ->
  io_ps io = inr (s_uid (session s)) ->
  s_uid (session s) <> uid_minus_one ->
  handleForkCommandResponseSuccess X io doc s
  = Aborts (NullPointerDereference "stdoutAndErrCapturer->stop()") s.
Proof.
  intros Hin Hout Hps Huid.
  unfold handleForkCommandResponseSuccess, scopeGuard, getProcessUid.
  rewrite Hin, Hout, Hps.
  unfold try_catch, bind, get, ret, abort. cbn.
  rewrite bool_decide_false by done. cbn.
  rewrite bool_decide_true by done. reflexivity.
Qed.

Lemma capturer_null_dereference_witness :
  handleForkCommandResponseSuccess X0 ioHappy (okResponse 12345) sProcessing
  = Aborts (NullPointerDereference "stdoutAndErrCapturer->stop()") sProcessing.
Proof.
  apply capturer_null_dereference; [reflexivity..|].
  vm_compute. discriminate.
Defined.

Lemma bind_Returns_inv {A B} (m : M A) (k : A -> M B) s b s2 :
  bind m k s = Returns b s2 ->
  exists a s1, m s = Returns a s1 /\ k a s1 = Returns b s2.
Proof. unfold bind. destruct (m s) as [a s1| |]; [eauto|done|done]. Qed.

Lemma scopeGuard_Returns_inv {A} action (body : M A) s a s' :
  scopeGuard action body s = Returns a s' -> body s = Returns a s'.
Proof.
  unfold scopeGuard, try_catch. destruct (body s) as [| t s1 |]; [done| |done].
  unfold bind, throw. by destruct (action s1).
Qed.

(** Whatever else happens, handleForkCommandResponseSuccess cannot return
    a ForkResult when response/stdout_and_err does not exist. *)
Lemma success_path_needs_capturer X io doc s r s' :
  io_stdoutAndErrExists io = false ->
  handleForkCommandResponseSuccess X io doc s <> Returns r s'.
Proof.
  intros Hout H. unfold handleForkCommandResponseSuccess in H.
  apply scopeGuard_Returns_inv in H. rewrite Hout in H.
  apply bind_Returns_inv in H as (s0 & ? & _ & H).
  apply bind_Returns_inv in H as (spawnedStdin & ? & _ & H).
  apply bind_Returns_inv in H as (opened & ? & [= <- <-] & H).
  apply bind_Returns_inv in H as (spawnedUid & ? & _ & H).
  apply bind_Returns_inv in H as (s1 & ? & _ & H).
  cbn [snd] in H. case_match.
  - apply bind_Returns_inv in H as (? & ? & _ & H).
    apply bind_Returns_inv in H as (? & ? & _ & H).
    apply bind_Returns_inv in H as (? & ? & _ & H).
    discriminate H.
  - apply bind_Returns_inv in H as (? & ? & H & _). discriminate H.
Qed.

Lemma journeyCall_ok X m step s st :
  stepState (journeyOf s) step = Some st ->
  (m <> SetStepPerformed /\ guardedTransition st (target m) = true)
  \/ (m = SetStepPerformed /\ st = STEP_IN_PROGRESS) ->
  exists j',
    journeyCall X (fun now => call m now step false) s
    = Returns tt (tick (withJourney j' s))
    /\ stepState j' step = Some (target m)
    /\ forall step', step' <> step ->
         stepState j' step' = stepState (journeyOf s) step'.
Proof.
  intros Hst Hm.
  destruct (call_guarded m (clock X (ticks s)) (journeyOf s) step st Hst)
    as (j' & Hcall & Hj').
  { destruct Hm as [Hm | [-> ->]]; [by left|right; auto]. }
  exists j'. split; [|done].
  unfold journeyCall. fold (journeyOf s). by rewrite Hcall.
Qed.

Lemma journeyCall_setStepInProgress X step s :
  stepState (journeyOf s) step = Some STEP_NOT_STARTED ->
  exists j',
    journeyCall X (fun now => setStepInProgress now step false) s
    = Returns tt (tick (withJourney j' s))
    /\ stepState j' step = Some STEP_IN_PROGRESS
    /\ forall step', step' <> step ->
         stepState j' step' = stepState (journeyOf s) step'.
Proof.
  intros H. apply (journeyCall_ok X SetStepInProgress step s _ H).
  left. by split.
Qed.

Lemma journeyCall_setStepPerformed X step s :
  stepState (journeyOf s) step = Some STEP_IN_PROGRESS ->
  exists j',
    journeyCall X (fun now => setStepPerformed now step false) s
    = Returns tt (tick (withJourney j' s))
    /\ stepState j' step = Some STEP_PERFORMED
    /\ forall step', step' <> step ->
         stepState j' step' = stepState (journeyOf s) step'.
Proof.
  intros H. apply (journeyCall_ok X SetStepPerformed step s _ H). by right.
Qed.

Lemma journeyCall_setStepErrored X step s :
  stepState (journeyOf s) step = Some STEP_IN_PROGRESS ->
  exists j',
    journeyCall X (fun now => setStepErrored now step false) s
    = Returns tt (tick (withJourney j' s))
    /\ stepState j' step = Some STEP_ERRORED
    /\ forall step', step' <> step ->
         stepState j' step' = stepState (journeyOf s) step'.
Proof.
  intros H. apply (journeyCall_ok X SetStepErrored step s _ H).
  left. by split.
Qed.

Lemma journeyCall_setStepNotStarted_performed X step s :
  stepState (journeyOf s) step = Some STEP_PERFORMED ->
  journeyCall X (fun _ => setStepNotStarted step false) s
  = Throws (Exc (RuntimeException (notInProgressMsg step))) s.
Proof.
  intros (info & Hfind & Hst)%stepState_find.
  unfold journeyCall, setStepNotStarted, getStepInfoMutable, getStepInfo.
  fold (journeyOf s). rewrite Hfind, Hst. reflexivity.
Qed.

Lemma wrapPreloaderCrashed_Returns {A} (m : M A) s a s' :
  m s = Returns a s' -> wrapPreloaderCrashed m s = Returns a s'.
Proof. apply try_catch_Returns. Qed.

Lemma wrapPreloaderCrashed_crash {A} (m : M A) s e s' :
  isCrash e -> m s = Throws (Exc e) s' ->
  wrapPreloaderCrashed m s = Throws (PreloaderCrashed e) s'.
Proof.
  intros He Hm. unfold wrapPreloaderCrashed.
  rewrite (try_catch_Throws _ _ _ _ _ Hm). by destruct e.
Qed.

Ltac journey_step lem H :=
  let j := fresh "j" in
  let E := fresh "E" in
  let Hs := fresh "Hs" in
  let Ho := fresh "Ho" in
  match goal with
  | |- context [bind (journeyCall ?X ?f) ?k ?s] =>
      destruct (lem X _ s H) as (j & E & Hs & Ho);
      rewrite (bind_Returns _ k s _ _ E); cbv beta
  end.

Lemma internalInvokeForkCommand_crash_in_read X io s fd e :
  stepState (journeyOf s) SPAWNING_KIT_CONNECT_TO_PRELOADER
    = Some STEP_NOT_STARTED ->
  stepState (journeyOf s) SPAWNING_KIT_SEND_COMMAND_TO_PRELOADER
    = Some STEP_NOT_STARTED ->
  stepState (journeyOf s) SPAWNING_KIT_READ_RESPONSE_FROM_PRELOADER
    = Some STEP_NOT_STARTED ->
  io_connect io = inr fd -> io_write io = None ->
  io_read io = inl e -> isCrash e ->
  exists s',
    internalInvokeForkCommand X io s = Throws (PreloaderCrashed e) s'
    /\ stepState (journeyOf s') SPAWNING_KIT_CONNECT_TO_PRELOADER
       = Some STEP_PERFORMED
    /\ stepState (journeyOf s') SPAWNING_KIT_SEND_COMMAND_TO_PRELOADER
       = Some STEP_PERFORMED
    /\ stepState (journeyOf s') SPAWNING_KIT_READ_RESPONSE_FROM_PRELOADER
       = Some STEP_IN_PROGRESS
    /\ trace s' = (trace s ++
         [EvConnect (socketAddress s);
          EvWrite (JObject [("command", JString "spawn");
                            ("work_dir", JString (s_workDirPath (session s)))])])%list
    /\ pid s' = pid s /\ socketAddress s' = socketAddress s
    /\ preloaderStdinOpen s' = preloaderStdinOpen s.
Proof.
  intros Hc Hsd Hrd Hconn Hwrite Hread He.
  unfold internalInvokeForkCommand.
  journey_step journeyCall_setStepInProgress Hc.
  erewrite bind_Returns; cycle 1.
  { apply wrapPreloaderCrashed_Returns. unfold connectToPreloader.
    unfold bind, get, emit, modify. rewrite Hconn. reflexivity. }
  cbv beta.
  journey_step journeyCall_setStepPerformed Hs.
  assert (Hsd1 : stepState j0 SPAWNING_KIT_SEND_COMMAND_TO_PRELOADER
                 = Some STEP_NOT_STARTED).
  { rewrite Ho0 by done. cbn. rewrite Ho by done. exact Hsd. }
  journey_step journeyCall_setStepInProgress Hsd1.
  erewrite bind_Returns; cycle 1.
  { apply wrapPreloaderCrashed_Returns. unfold sendForkCommand.
    unfold bind, get, emit, modify. rewrite Hwrite. reflexivity. }
  cbv beta.
  journey_step journeyCall_setStepPerformed Hs1.
  assert (Hrd1 : stepState j2 SPAWNING_KIT_READ_RESPONSE_FROM_PRELOADER
                 = Some STEP_NOT_STARTED).
  { rewrite Ho2 by done. cbn. rewrite Ho1 by done. cbn.
    rewrite Ho0 by done. cbn. rewrite Ho by done. exact Hrd. }
  journey_step journeyCall_setStepInProgress Hrd1.
  erewrite bind_Throws; cycle 1.
  { apply wrapPreloaderCrashed_crash; [exact He|].
    unfold readForkCommandResponse. rewrite Hread. by destruct e. }
  eexists. split; [reflexivity|]. cbn.
  repeat split; try reflexivity.
  - rewrite Ho3, Ho2, Ho1 by done. exact Hs0.
  - rewrite Ho3 by done. exact Hs2.
  - exact Hs3.
  - by rewrite <- app_assoc.
Qed.

(** C1 (the code at the failing input).  When the first fork command
    connects and sends and then fails reading with a SystemException or
    IOException, the reset of ConnectToPreloader finds the step Performed and
    throws a RuntimeException: the three steps keep the states they had
    reached, the preloader is neither stopped nor restarted, and the fork
    command is not retried. *)
Theorem crash_during_read_is_not_retried X io1 stop1 restart io2 stop2 s fd e :
  stepState (journeyOf s) SPAWNING_KIT_CONNECT_TO_PRELOADER
    = Some STEP_NOT_STARTED ->
  stepState (journeyOf s) SPAWNING_KIT_SEND_COMMAND_TO_PRELOADER
    = Some STEP_NOT_STARTED ->
  stepState (journeyOf s) SPAWNING_KIT_READ_RESPONSE_FROM_PRELOADER
    = Some STEP_NOT_STARTED ->
  io_connect io1 = inr fd -> io_write io1 = None ->
  io_read io1 = inl e -> isCrash e ->
  exists s',
    invokeForkCommand X io1 stop1 restart io2 stop2 s
    = Throws (Exc (RuntimeException
                     (notInProgressMsg SPAWNING_KIT_CONNECT_TO_PRELOADER))) s'
    /\ stepState (journeyOf s') SPAWNING_KIT_CONNECT_TO_PRELOADER
       = Some STEP_PERFORMED
    /\ stepState (journeyOf s') SPAWNING_KIT_SEND_COMMAND_TO_PRELOADER
       = Some STEP_PERFORMED
    /\ stepState (journeyOf s') SPAWNING_KIT_READ_RESPONSE_FROM_PRELOADER
       = Some STEP_IN_PROGRESS
    /\ trace s' = (trace s ++
         [EvConnect (socketAddress s);
          EvWrite (JObject [("command", JString "spawn");
                            ("work_dir", JString (s_workDirPath (session s)))])])%list
    /\ pid s' = pid s /\ socketAddress s' = socketAddress s
    /\ preloaderStdinOpen s' = preloaderStdinOpen s.
Proof.
  intros Hc Hsd Hrd Hconn Hwrite Hread He.
  destruct (internalInvokeForkCommand_crash_in_read X io1 s fd e
              Hc Hsd Hrd Hconn Hwrite Hread He) as (s' & Hrun & Hc' & Hrest).
  exists s'. split; [|by split].
  unfold invokeForkCommand. rewrite (try_catch_Throws _ _ _ _ _ Hrun).
  apply bind_Throws. unfold resetPreloaderSteps. apply bind_Throws.
  by apply journeyCall_setStepNotStarted_performed.
Qed.

Lemma crash_during_read_is_not_retried_witness :
  exists s',
    invokeForkCommand X0 ioCrashInRead stopQuietly
      (StartOk 4243 "unix:/tmp/psg2.sock" ∅) ioHappy stopQuietly s0
    = Throws (Exc (RuntimeException
                     (notInProgressMsg SPAWNING_KIT_CONNECT_TO_PRELOADER))) s'
    /\ stepState (journeyOf s') SPAWNING_KIT_CONNECT_TO_PRELOADER
       = Some STEP_PERFORMED
    /\ pid s' = 4242.
Proof.
  destruct (crash_during_read_is_not_retried X0 ioCrashInRead stopQuietly
              (StartOk 4243 "unix:/tmp/psg2.sock" ∅) ioHappy stopQuietly s0
              7 (SystemException "Connection reset by peer" 104)
              eq_refl eq_refl eq_refl eq_refl eq_refl eq_refl I)
    as (s' & Hrun & Hc & _ & _ & _ & Hpid & _).
  exists s'. split; [exact Hrun|]. split; [exact Hc|exact Hpid].
Defined.

Lemma addPreloaderAnnotations_fields s e :
  category (addPreloaderAnnotations s e) = category e
  /\ journey (addPreloaderAnnotations s e) = journey e
  /\ summary (addPreloaderAnnotations s e) = summary e
  /\ problemDescriptionHTML (addPreloaderAnnotations s e)
     = problemDescriptionHTML e
  /\ solutionDescriptionHTML (addPreloaderAnnotations s e)
     = solutionDescriptionHTML e
  /\ stdoutAndErrData (addPreloaderAnnotations s e) = stdoutAndErrData e.
Proof.
  unfold addPreloaderAnnotations.
  apply (map_fold_weak_ind (fun r _ =>
    category r = category e /\ journey r = journey e
    /\ summary r = summary e
    /\ problemDescriptionHTML r = problemDescriptionHTML e
    /\ solutionDescriptionHTML r = solutionDescriptionHTML e
    /\ stdoutAndErrData r = stdoutAndErrData e)); [done|].
  intros i x m r _ IH. exact IH.
Qed.

Lemma openFifoWithTimeout_Returns X path fd errcode s :
  fd <> -1 -> clock X (ticks s) <= clock X (S (ticks s)) ->
  exists t,
    openFifoWithTimeout X path (FifoJoined fd errcode) s
    = Returns fd (withTimeoutUsec t (tick (tick s))).
Proof.
  intros Hfd Hclock.
  unfold openFifoWithTimeout, getMonotonicUsec, scopeExit, scopeGuard,
    try_catch, bind, adjustTimeout, getMonotonicUsec, get, bind.
  rewrite bool_decide_false by done. cbn.
  unfold adjustTimeoutValue. rewrite bool_decide_true by lia.
  case_bool_decide; eexists; reflexivity.
Qed.

(** C4 (the code at the failing input).  On a UID mismatch the spawner
    marks ProcessResponseFromPreloader Errored, throws a SpawnException of
    category InternalError with the captured output attached, and kills and
    reaps the child.  The summary prints the actual and the expected UID;
    the problem description prints the expected UID in both places and the
    actual UID nowhere. *)
Theorem uid_mismatch_report X io doc s actualUid fd errcode :
  let spawnedPid := asInt (member doc "pid") in
  let expectedUid := s_uid (session s) in
  stepState (journeyOf s) SPAWNING_KIT_PROCESS_RESPONSE_FROM_PRELOADER
    = Some STEP_IN_PROGRESS ->
  io_stdinExists io = false ->
  io_stdoutAndErrExists io = true ->
  io_stdoutAndErrOpen io = FifoJoined fd errcode -> fd <> -1 ->
  clock X (ticks s) <= clock X (S (ticks s)) ->
  io_ps io = inr actualUid ->
  actualUid <> uid_minus_one -> actualUid <> expectedUid ->
  exists e s',
    handleForkCommandResponseSuccess X io doc s
    = Throws (Exc (SpawnException (finalize X e))) s'
    /\ category e = INTERNAL_ERROR
    /\ summary e
       = "The process that the preloader said it spawned, PID "
         ++ toString spawnedPid ++ ", has UID " ++ toString actualUid
         ++ ", but the expected UID is " ++ toString expectedUid
    /\ problemDescriptionHTML e
       = preloaderIntroHTML X
         ++ " the web application process that the preloader started"
         ++ " belongs to the wrong user. The UID of the web"
         ++ " application process should be " ++ toString expectedUid
         ++ ", but is actually " ++ toString expectedUid ++ ".</p>"
    /\ stdoutAndErrData e = Some (io_capturedData io)
    /\ stepState (journey e) SPAWNING_KIT_PROCESS_RESPONSE_FROM_PRELOADER
       = Some STEP_ERRORED
    /\ trace s' = (trace s ++ [EvCapturerStart spawnedPid; EvUsleep 50000;
                               EvKillAndWaitpid spawnedPid])%list.
Proof.
  intros spawnedPid expectedUid Hproc Hin Hout Hopen Hfd Hclock Hps Hm1 Hne.
  unfold handleForkCommandResponseSuccess. fold spawnedPid.
  rewrite Hin, Hout, Hopen.
  destruct (openFifoWithTimeout_Returns X
              (s_responseDir (session s) ++ "/stdout_and_err") fd errcode s
              Hfd Hclock) as (t & Hfifo).
  set (s2 := logEvent (EvCapturerStart spawnedPid)
               (withTimeoutUsec t (tick (tick s)))).
  destruct (journeyCall_setStepErrored X
              SPAWNING_KIT_PROCESS_RESPONSE_FROM_PRELOADER s2 Hproc)
    as (j' & Herr & Hst & _).
  unfold scopeGuard.
  erewrite try_catch_Throws; cycle 1.
  { unfold bind at 1. unfold get at 1. cbv beta iota.
    unfold bind at 1. unfold ret at 1. cbv beta iota.
    unfold bind at 1. unfold bind at 1. rewrite Hfifo. cbv beta iota.
    unfold bind at 1. unfold emit, modify at 1. cbv beta iota.
    unfold ret at 1. cbv beta iota. cbn [fst snd]. fold s2.
    unfold getProcessUid. rewrite Hps.
    unfold bind at 1. unfold bind at 1. unfold ret at 1. cbv beta iota.
    rewrite bool_decide_false by done. unfold ret at 1. cbv beta iota.
    unfold bind at 1. unfold get at 1. cbv beta iota.
    rewrite bool_decide_false by done. cbn [negb].
    unfold processResponseErrored.
    rewrite (bind_Returns _ _ _ _ _ Herr).
    unfold bind at 1. unfold get at 1. cbv beta iota.
    unfold getBackgroundIOCapturerData.
    unfold bind, emit, modify, ret, throwSpawnException, throw.
    cbv beta iota. reflexivity. }
  unfold bind, nonInterruptableKillAndWaitpid, emit, modify, throw.
  cbv beta iota.
  eexists _, _. split; [reflexivity|]. cbn.
  pose proof (addPreloaderAnnotations_fields
                (tick (withJourney j' s2))
                (newSpawnException INTERNAL_ERROR j' (s_config (session s))))
    as (Hcat & Hj & _).
  repeat split.
  - exact Hcat.
  - cbn in Hj. rewrite Hj. exact Hst.
  - by rewrite <- !app_assoc.
Qed.

Lemma uid_mismatch_report_witness :
  exists e s',
    handleForkCommandResponseSuccess X0 ioUidMismatch (okResponse 777)
      sProcessing
    = Throws (Exc (SpawnException e)) s'
    /\ summary e
       = "The process that the preloader said it spawned, PID 777, has UID 0, but the expected UID is 501"
    /\ problemDescriptionHTML e
       = uidMismatchProblemHTML X0 501
    /\ problemDescriptionHTML e <> claimedUidMismatchProblemHTML X0 501 0.
Proof.
  destruct (uid_mismatch_report X0 ioUidMismatch (okResponse 777) sProcessing
              0 9 0 eq_refl eq_refl eq_refl eq_refl
              ltac:(discriminate) ltac:(cbn; lia) eq_refl
              ltac:(vm_compute; discriminate) ltac:(discriminate))
    as (e & s' & Hrun & _ & Hsum & Hhtml & _).
  exists e, s'. split; [exact Hrun|]. split; [exact Hsum|].
  split; [exact Hhtml|]. rewrite Hhtml. vm_compute. discriminate.
Defined.

(** *** Crash recovery *)

Local Arguments stopEvents : simpl never.

Lemma journeyCall_setStepNotStarted X step s st :
  stepState (journeyOf s) step = Some st ->
  st = STEP_NOT_STARTED \/ st = STEP_IN_PROGRESS ->
  exists j',
    journeyCall X (fun _ => setStepNotStarted step false) s
    = Returns tt (tick (withJourney j' s))
    /\ stepState j' step = Some STEP_NOT_STARTED
    /\ forall step', step' <> step ->
         stepState j' step' = stepState (journeyOf s) step'.
Proof.
  intros H Hst. apply (journeyCall_ok X SetStepNotStarted step s _ H).
  left. split; [done|]. by destruct Hst as [-> | ->].
Qed.

Lemma stopPreloader_Returns X io s :
  preloaderStarted s = true -> stop_error io = None ->
  exists s',
    stopPreloader X io s = Returns tt s'
    /\ journeyOf s' = journeyOf s /\ pid s' = -1
    /\ socketAddress s' = EmptyString /\ preloaderStdinOpen s' = false
    /\ ticks s' = ticks s
    /\ trace s' = (trace s ++ stopEvents X io (pid s) (socketAddress s))%list.
Proof.
  intros Hstarted Herr. unfold stopPreloader, stopEvents.
  unfold bind at 1. unfold get at 1. cbv beta iota.
  rewrite Hstarted, Herr. cbn [negb].
  destruct (stop_exitedInTime io), (unixSocketFilename X (socketAddress s));
    eexists; (split; [reflexivity|]); cbn;
    repeat split; unfold stopEvents; cbn; by rewrite <- ?app_assoc.
Qed.

Lemma internalInvokeForkCommand_crash_in_connect X io s e :
  stepState (journeyOf s) SPAWNING_KIT_CONNECT_TO_PRELOADER
    = Some STEP_NOT_STARTED ->
  io_connect io = inl e -> isCrash e ->
  exists j',
    internalInvokeForkCommand X io s
    = Throws (PreloaderCrashed e)
        (logEvent (EvConnect (socketAddress s)) (tick (withJourney j' s)))
    /\ stepState j' SPAWNING_KIT_CONNECT_TO_PRELOADER = Some STEP_IN_PROGRESS
    /\ forall step', step' <> SPAWNING_KIT_CONNECT_TO_PRELOADER ->
         stepState j' step' = stepState (journeyOf s) step'.
Proof.
  intros Hc Hconn He. unfold internalInvokeForkCommand.
  destruct (journeyCall_setStepInProgress X _ s Hc) as (j & E & Hs & Ho).
  exists j. split; [|by split].
  rewrite (bind_Returns _ _ _ _ _ E). apply bind_Throws.
  apply wrapPreloaderCrashed_crash; [done|].
  unfold connectToPreloader, bind, get, emit, modify. by rewrite Hconn.
Qed.

Lemma resetPreloaderSteps_Returns X s c :
  stepState (journeyOf s) SPAWNING_KIT_CONNECT_TO_PRELOADER = Some c ->
  c = STEP_NOT_STARTED \/ c = STEP_IN_PROGRESS ->
  stepState (journeyOf s) SPAWNING_KIT_SEND_COMMAND_TO_PRELOADER
    = Some STEP_NOT_STARTED ->
  stepState (journeyOf s) SPAWNING_KIT_READ_RESPONSE_FROM_PRELOADER
    = Some STEP_NOT_STARTED ->
  exists s',
    resetPreloaderSteps X s = Returns tt s'
    /\ (forall step, step ∈ [SPAWNING_KIT_CONNECT_TO_PRELOADER;
                             SPAWNING_KIT_SEND_COMMAND_TO_PRELOADER;
                             SPAWNING_KIT_READ_RESPONSE_FROM_PRELOADER] ->
        stepState (journeyOf s') step = Some STEP_NOT_STARTED)
    /\ (forall step, step ∉ [SPAWNING_KIT_CONNECT_TO_PRELOADER;
                             SPAWNING_KIT_SEND_COMMAND_TO_PRELOADER;
                             SPAWNING_KIT_READ_RESPONSE_FROM_PRELOADER] ->
        stepState (journeyOf s') step = stepState (journeyOf s) step)
    /\ pid s' = pid s /\ socketAddress s' = socketAddress s
    /\ preloaderStdinOpen s' = preloaderStdinOpen s
    /\ trace s' = trace s.
Proof.
  intros Hc Hcs Hsd Hrd. unfold resetPreloaderSteps.
  destruct (journeyCall_setStepNotStarted X _ s c Hc Hcs) as (j1 & E1 & H1 & O1).
  rewrite (bind_Returns _ _ _ _ _ E1).
  assert (Hsd1 : stepState (journeyOf (tick (withJourney j1 s)))
                   SPAWNING_KIT_SEND_COMMAND_TO_PRELOADER = Some STEP_NOT_STARTED).
  { cbn. by rewrite O1. }
  destruct (journeyCall_setStepNotStarted X _ _ _ Hsd1 (or_introl eq_refl))
    as (j2 & E2 & H2 & O2).
  rewrite (bind_Returns _ _ _ _ _ E2).
  assert (Hrd1 : stepState (journeyOf (tick (withJourney j2
                    (tick (withJourney j1 s)))))
                   SPAWNING_KIT_READ_RESPONSE_FROM_PRELOADER = Some STEP_NOT_STARTED).
  { cbn. rewrite O2 by done. cbn. by rewrite O1. }
  destruct (journeyCall_setStepNotStarted X _ _ _ Hrd1 (or_introl eq_refl))
    as (j3 & E3 & H3 & O3).
  eexists. split; [exact E3|]. cbn. repeat split.
  - intros step Hin.
    apply elem_of_cons in Hin as [->|Hin];
      [rewrite O3, O2 by done; exact H1|].
    apply elem_of_cons in Hin as [->|Hin]; [rewrite O3 by done; exact H2|].
    apply elem_of_cons in Hin as [->|Hin]; [exact H3|].
    by apply elem_of_nil in Hin.
  - intros step Hnot.
    apply not_elem_of_cons in Hnot as [N1 Hnot].
    apply not_elem_of_cons in Hnot as [N2 Hnot].
    apply not_elem_of_cons in Hnot as [N3 _].
    rewrite O3 by done. cbn. rewrite O2 by done. cbn. by rewrite O1.
Qed.

Lemma startPreloader_Returns p addr ann s :
  preloaderStarted s = false ->
  startPreloader (StartOk p addr ann) s
  = Returns tt (withPreloader ann p true addr (logEvent (EvPreloaderStarted p) s)).
Proof.
  intros H. unfold startPreloader, bind, get. rewrite H. reflexivity.
Qed.

Lemma preloaderStarted_pid s : preloaderStarted s = negb (bool_decide (pid s = -1)).
Proof. reflexivity. Qed.

(** X18.  When connecting to the preloader fails with a system or I/O
    error, invokeForkCommand stops the preloader, starts it again and
    connects once more; when that fails in the same way it stops the
    preloader again and raises a finalized SpawnException whose summary is
    'An application preloader crashed: ' followed by the second error, on
    a journey whose preparation step is errored. There is no third
    attempt. *)
Lemma double_crash_gives_up X io1 stop1 p addr ann io2 stop2 s e1 e2 :
  preloaderStarted s = true ->
  stepState (journeyOf s) SPAWNING_KIT_PREPARATION = Some STEP_IN_PROGRESS ->
  stepState (journeyOf s) SPAWNING_KIT_CONNECT_TO_PRELOADER
    = Some STEP_NOT_STARTED ->
  stepState (journeyOf s) SPAWNING_KIT_SEND_COMMAND_TO_PRELOADER
    = Some STEP_NOT_STARTED ->
  stepState (journeyOf s) SPAWNING_KIT_READ_RESPONSE_FROM_PRELOADER
    = Some STEP_NOT_STARTED ->
  io_connect io1 = inl e1 -> isCrash e1 -> stop_error stop1 = None ->
  p <> -1 ->
  io_connect io2 = inl e2 -> isCrash e2 -> stop_error stop2 = None ->
  exists e s',
    invokeForkCommand X io1 stop1 (StartOk p addr ann) io2 stop2 s
    = Throws (Exc (SpawnException (finalize X e))) s'
    /\ summary e = "An application preloader crashed: " ++ whatOf e2
    /\ stepState (journey e) SPAWNING_KIT_PREPARATION = Some STEP_ERRORED
    /\ pid s' = -1
    /\ trace s'
       = (trace s ++ [EvConnect (socketAddress s)]
          ++ stopEvents X stop1 (pid s) (socketAddress s)
          ++ [EvPreloaderStarted p; EvConnect addr]
          ++ stopEvents X stop2 p addr)%list.
Proof.
  intros Hstarted Hprep Hc Hsd Hrd Hconn1 He1 Hstop1 Hp Hconn2 He2 Hstop2.
  (* first attempt *)
  destruct (internalInvokeForkCommand_crash_in_connect X io1 s e1 Hc Hconn1 He1)
    as (j1 & Hrun1 & Hc1 & Ho1).
  unfold invokeForkCommand. rewrite (try_catch_Throws _ _ _ _ _ Hrun1).
  cbv beta iota.
  set (sA := logEvent (EvConnect (socketAddress s)) (tick (withJourney j1 s))).
  (* reset *)
  destruct (resetPreloaderSteps_Returns X sA STEP_IN_PROGRESS) as
    (sB & HrunB & HresetB & HotherB & HpidB & HaddrB & _ & HtraceB);
    [exact Hc1|by right|cbn; by rewrite Ho1|cbn; by rewrite Ho1|].
  rewrite (bind_Returns _ _ _ _ _ HrunB).
  (* stop *)
  destruct (stopPreloader_Returns X stop1 sB) as
    (sC & HrunC & HjC & HpidC & _ & _ & _ & HtraceC);
    [by rewrite preloaderStarted_pid, HpidB|exact Hstop1|].
  rewrite (bind_Returns _ _ _ _ _ (try_catch_Returns _ _ _ _ _ HrunC)).
  (* restart *)
  rewrite (bind_Returns _ _ _ _ _ (startPreloader_Returns p addr ann sC
             ltac:(by rewrite preloaderStarted_pid, HpidC))).
  set (sD := withPreloader ann p true addr (logEvent (EvPreloaderStarted p) sC)).
  assert (HjD : journeyOf sD = journeyOf sB) by exact HjC.
  (* second attempt *)
  destruct (internalInvokeForkCommand_crash_in_connect X io2 sD e2) as
    (j2 & Hrun2 & Hc2 & Ho2); [|exact Hconn2|exact He2|].
  { rewrite HjD. apply HresetB, list_elem_of_here. }
  rewrite (try_catch_Throws _ _ _ _ _ Hrun2). cbv beta iota.
  set (sE := logEvent (EvConnect (socketAddress sD)) (tick (withJourney j2 sD))).
  destruct (stopPreloader_Returns X stop2 sE) as
    (sF & HrunF & HjF & HpidF & _ & _ & _ & HtraceF);
    [by rewrite preloaderStarted_pid; cbn; rewrite bool_decide_false
    |exact Hstop2|].
  rewrite (bind_Returns _ _ _ _ _ (try_catch_Returns _ _ _ _ _ HrunF)).
  (* Preparation becomes Errored *)
  assert (HprepF : stepState (journeyOf sF) SPAWNING_KIT_PREPARATION
                   = Some STEP_IN_PROGRESS).
  { rewrite HjF. cbn. rewrite Ho2 by done. rewrite HjD.
    rewrite HotherB.
    - cbn. by rewrite Ho1.
    - intros Hin. repeat (apply elem_of_cons in Hin as [Hin|Hin];
                          [discriminate Hin|]).
      by apply elem_of_nil in Hin. }
  unfold preparationErrored.
  destruct (journeyCall_setStepErrored X _ sF HprepF) as (j3 & E3 & H3 & _).
  rewrite (bind_Returns _ _ _ _ _ E3).
  unfold bind, get, throwSpawnException, throw. cbv beta iota.
  eexists _, _. split; [reflexivity|]. cbn.
  split; [reflexivity|]. split; [exact H3|]. split; [exact HpidF|].
  rewrite HtraceF. cbn. rewrite HtraceC, HtraceB. cbn.
  rewrite HpidB, HaddrB. cbn.
  rewrite <- !app_assoc. reflexivity.
Qed.

(** *** The size limit of the response *)

Lemma readForkCommandResponse_accepts X io fd s incoming :
  io_read io = inr incoming ->
  Z.of_nat (String.length (firstLine incoming)) <= 10240 ->
  readForkCommandResponse X io fd s = Returns (firstLine incoming) s.
Proof.
  intros Hread Hlen. unfold readForkCommandResponse, readLine.
  rewrite Hread. destruct (Z.leb_spec (Z.of_nat (String.length (firstLine incoming))) 10240); [done|lia].
Qed.

Lemma readForkCommandResponse_rejects X io fd s incoming :
  stepState (journeyOf s) SPAWNING_KIT_READ_RESPONSE_FROM_PRELOADER
    = Some STEP_IN_PROGRESS ->
  io_read io = inr incoming ->
  10240 < Z.of_nat (String.length (firstLine incoming)) ->
  exists e s',
    readForkCommandResponse X io fd s
    = Throws (Exc (SpawnException (finalize X e))) s'
    /\ category e = INTERNAL_ERROR
    /\ summary e = sizeLimitSummary
    /\ stepState (journey e) SPAWNING_KIT_READ_RESPONSE_FROM_PRELOADER
       = Some STEP_ERRORED
    /\ trace s' = trace s /\ pid s' = pid s.
Proof.
  intros Hst Hread Hlen. unfold readForkCommandResponse, readLine.
  rewrite Hread.
  destruct (Z.leb_spec (Z.of_nat (String.length (firstLine incoming))) 10240);
    [lia|].
  destruct (journeyCall_setStepErrored X
              SPAWNING_KIT_READ_RESPONSE_FROM_PRELOADER s Hst)
    as (j' & Herr & Hst' & _).
  rewrite (bind_Returns _ _ _ _ _ Herr).
  unfold bind, get, throwSpawnException, throw. cbv beta iota.
  eexists _, _. split; [reflexivity|]. cbn.
  pose proof (addPreloaderAnnotations_fields
                (tick (withJourney j' s))
                (newSpawnException INTERNAL_ERROR j' (s_config (session s))))
    as (Hcat & Hj & _).
  repeat split; [exact Hcat|]. cbn in Hj. by rewrite Hj.
Qed.

Lemma wrapPreloaderCrashed_SpawnException {A} (m : M A) s e s' :
  m s = Throws (Exc (SpawnException e)) s' ->
  wrapPreloaderCrashed m s = Throws (Exc (SpawnException e)) s'.
Proof.
  intros Hm. unfold wrapPreloaderCrashed.
  by rewrite (try_catch_Throws _ _ _ _ _ Hm).
Qed.

Lemma internalInvokeForkCommand_oversized_response X io s fd incoming :
  stepState (journeyOf s) SPAWNING_KIT_CONNECT_TO_PRELOADER
    = Some STEP_NOT_STARTED ->
  stepState (journeyOf s) SPAWNING_KIT_SEND_COMMAND_TO_PRELOADER
    = Some STEP_NOT_STARTED ->
  stepState (journeyOf s) SPAWNING_KIT_READ_RESPONSE_FROM_PRELOADER
    = Some STEP_NOT_STARTED ->
  io_connect io = inr fd -> io_write io = None ->
  io_read io = inr incoming ->
  10240 < Z.of_nat (String.length (firstLine incoming)) ->
  exists e s',
    internalInvokeForkCommand X io s
    = Throws (Exc (SpawnException (finalize X e))) s'
    /\ category e = INTERNAL_ERROR
    /\ summary e = sizeLimitSummary
    /\ stepState (journey e) SPAWNING_KIT_READ_RESPONSE_FROM_PRELOADER
       = Some STEP_ERRORED
    /\ pid s' = pid s.
Proof.
  intros Hc Hsd Hrd Hconn Hwrite Hread Hlen.
  unfold internalInvokeForkCommand.
  journey_step journeyCall_setStepInProgress Hc.
  erewrite bind_Returns; cycle 1.
  { apply wrapPreloaderCrashed_Returns. unfold connectToPreloader.
    unfold bind, get, emit, modify. rewrite Hconn. reflexivity. }
  cbv beta.
  journey_step journeyCall_setStepPerformed Hs.
  assert (Hsd1 : stepState j0 SPAWNING_KIT_SEND_COMMAND_TO_PRELOADER
                 = Some STEP_NOT_STARTED).
  { rewrite Ho0 by done. cbn. rewrite Ho by done. exact Hsd. }
  journey_step journeyCall_setStepInProgress Hsd1.
  erewrite bind_Returns; cycle 1.
  { apply wrapPreloaderCrashed_Returns. unfold sendForkCommand.
    unfold bind, get, emit, modify. rewrite Hwrite. reflexivity. }
  cbv beta.
  journey_step journeyCall_setStepPerformed Hs1.
  assert (Hrd1 : stepState j2 SPAWNING_KIT_READ_RESPONSE_FROM_PRELOADER
                 = Some STEP_NOT_STARTED).
  { rewrite Ho2 by done. cbn. rewrite Ho1 by done. cbn.
    rewrite Ho0 by done. cbn. rewrite Ho by done. exact Hrd. }
  journey_step journeyCall_setStepInProgress Hrd1.
  match goal with
  | |- context [readForkCommandResponse X io fd] =>
      match goal with
      | |- context [bind _ _ ?st] =>
          destruct (readForkCommandResponse_rejects X io fd st incoming
                      Hs3 Hread Hlen)
            as (e & s' & Hrun & Hcat & Hsum & Hj & Htr & Hpid)
      end
  end.
  exists e, s'. split.
  - apply bind_Throws. apply wrapPreloaderCrashed_SpawnException. exact Hrun.
  - repeat split; done.
Qed.

Lemma invokeForkCommand_oversized_response X io1 stop1 restart io2 stop2 s fd
    incoming :
  stepState (journeyOf s) SPAWNING_KIT_CONNECT_TO_PRELOADER
    = Some STEP_NOT_STARTED ->
  stepState (journeyOf s) SPAWNING_KIT_SEND_COMMAND_TO_PRELOADER
    = Some STEP_NOT_STARTED ->
  stepState (journeyOf s) SPAWNING_KIT_READ_RESPONSE_FROM_PRELOADER
    = Some STEP_NOT_STARTED ->
  io_connect io1 = inr fd -> io_write io1 = None ->
  io_read io1 = inr incoming ->
  10240 < Z.of_nat (String.length (firstLine incoming)) ->
  exists e s',
    invokeForkCommand X io1 stop1 restart io2 stop2 s
    = Throws (Exc (SpawnException (finalize X e))) s'
    /\ category e = INTERNAL_ERROR
    /\ summary e = sizeLimitSummary
    /\ stepState (journey e) SPAWNING_KIT_READ_RESPONSE_FROM_PRELOADER
       = Some STEP_ERRORED
    /\ pid s' = pid s.
Proof.
  intros Hc Hsd Hrd Hconn Hwrite Hread Hlen.
  destruct (internalInvokeForkCommand_oversized_response X io1 s fd incoming
              Hc Hsd Hrd Hconn Hwrite Hread Hlen) as (e & s' & Hrun & Hrest).
  exists e, s'. split; [|done].
  unfold invokeForkCommand. by rewrite (try_catch_Throws _ _ _ _ _ Hrun).
Qed.

Lemma spawnThroughPreloader_fresh w step :
  hasStep (newJourney SPAWN_THROUGH_PRELOADER w) step = true ->
  stepState (newJourney SPAWN_THROUGH_PRELOADER w) step = Some STEP_NOT_STARTED.
Proof. destruct w, step; vm_compute; first [reflexivity | discriminate]. Qed.

(** A response that the JSON reader rejects: [parseForkCommandResponse]
    raises its error on a journey whose parse step is Errored, and the
    handler around it in [internalInvokeForkCommand] passes it on. *)
Lemma parse_unparseable_response X line s :
  stepState (journeyOf s) SPAWNING_KIT_PARSE_RESPONSE_FROM_PRELOADER
    = Some STEP_IN_PROGRESS ->
  reader_parse X line = None ->
  exists e s',
    erroredOnAnyException X SPAWNING_KIT_PARSE_RESPONSE_FROM_PRELOADER
      (parseForkCommandResponse X line) s
    = Throws (Exc (SpawnException (finalize X e))) s'
    /\ category e = INTERNAL_ERROR
    /\ summary e = "The preloader process sent an unparseable response: " ++ line
    /\ stepState (journey e) SPAWNING_KIT_PARSE_RESPONSE_FROM_PRELOADER
       = Some STEP_ERRORED
    /\ forall step, step <> SPAWNING_KIT_PARSE_RESPONSE_FROM_PRELOADER ->
         stepState (journey e) step = stepState (journeyOf s) step.
Proof.
  intros Hst Hparse.
  destruct (journeyCall_setStepErrored X
              SPAWNING_KIT_PARSE_RESPONSE_FROM_PRELOADER s Hst)
    as (j' & Herr & Hst' & Hother).
  assert (Hst'' : stepState (journeyOf (tick (withJourney j' s)))
                    SPAWNING_KIT_PARSE_RESPONSE_FROM_PRELOADER
                  = Some STEP_ERRORED) by exact Hst'.
  destruct (journeyCall_ok X SetStepErrored
              SPAWNING_KIT_PARSE_RESPONSE_FROM_PRELOADER
              (tick (withJourney j' s)) STEP_ERRORED Hst'')
    as (j'' & Hagain & _).
  { left. split; [discriminate|reflexivity]. }
  destruct (addPreloaderAnnotations_fields (tick (withJourney j' s))
              (newSpawnException INTERNAL_ERROR j' (s_config (session s))))
    as (Hcat & Hj & _).
  cbn in Hj.
  assert (Hbody : parseForkCommandResponse X line s
            = Throws (Exc (SpawnException (finalize X
                (setSolutionDescriptionHTML (supportSolutionHTML X)
                   (setProblemDescriptionHTML
                      (preloaderIntroHTML X
                       ++ " this helper process sent a response that looks like"
                       ++ " gibberish.</p>"
                       ++ "<p>The response is as follows:</p>"
                       ++ "<pre>" ++ escapeHTML X line ++ "</pre>")
                      (setSummary
                         ("The preloader process sent an unparseable response: "
                          ++ line)
                         (addPreloaderAnnotations (tick (withJourney j' s))
                            (newSpawnException INTERNAL_ERROR j'
                               (s_config (session s))))))))))
                (tick (withJourney j' s))).
  { unfold parseForkCommandResponse. rewrite Hparse.
    rewrite (bind_Returns _ _ _ _ _ Herr). reflexivity. }
  eexists _, _. split.
  { unfold erroredOnAnyException.
    rewrite (try_catch_Throws _ _ _ _ _ Hbody).
    cbn [call] in Hagain. rewrite (bind_Returns _ _ _ _ _ Hagain).
    reflexivity. }
  cbn [category summary journey setSolutionDescriptionHTML
         setProblemDescriptionHTML setSummary].
  split; [exact Hcat|]. split; [reflexivity|]. rewrite Hj.
  split; [exact Hst'|exact Hother].
Qed.

Lemma internalInvokeForkCommand_unparseable_response X io s fd incoming :
  stepState (journeyOf s) SPAWNING_KIT_CONNECT_TO_PRELOADER
    = Some STEP_NOT_STARTED ->
  stepState (journeyOf s) SPAWNING_KIT_SEND_COMMAND_TO_PRELOADER
    = Some STEP_NOT_STARTED ->
  stepState (journeyOf s) SPAWNING_KIT_READ_RESPONSE_FROM_PRELOADER
    = Some STEP_NOT_STARTED ->
  stepState (journeyOf s) SPAWNING_KIT_PARSE_RESPONSE_FROM_PRELOADER
    = Some STEP_NOT_STARTED ->
  io_connect io = inr fd -> io_write io = None ->
  io_read io = inr incoming ->
  Z.of_nat (String.length (firstLine incoming)) <= 10240 ->
  reader_parse X (firstLine incoming) = None ->
  exists e s',
    internalInvokeForkCommand X io s
    = Throws (Exc (SpawnException (finalize X e))) s'
    /\ category e = INTERNAL_ERROR
    /\ summary e
       = "The preloader process sent an unparseable response: "
         ++ firstLine incoming
    /\ stepState (journey e) SPAWNING_KIT_READ_RESPONSE_FROM_PRELOADER
       = Some STEP_PERFORMED
    /\ stepState (journey e) SPAWNING_KIT_PARSE_RESPONSE_FROM_PRELOADER
       = Some STEP_ERRORED.
Proof.
  intros Hc Hsd Hrd Hpa Hconn Hwrite Hread Hlen Hparse.
  unfold internalInvokeForkCommand.
  journey_step journeyCall_setStepInProgress Hc.
  erewrite bind_Returns; cycle 1.
  { apply wrapPreloaderCrashed_Returns. unfold connectToPreloader.
    unfold bind, get, emit, modify. rewrite Hconn. reflexivity. }
  cbv beta.
  journey_step journeyCall_setStepPerformed Hs.
  assert (Hsd1 : stepState j0 SPAWNING_KIT_SEND_COMMAND_TO_PRELOADER
                 = Some STEP_NOT_STARTED).
  { rewrite Ho0 by done. cbn. rewrite Ho by done. exact Hsd. }
  journey_step journeyCall_setStepInProgress Hsd1.
  erewrite bind_Returns; cycle 1.
  { apply wrapPreloaderCrashed_Returns. unfold sendForkCommand.
    unfold bind, get, emit, modify. rewrite Hwrite. reflexivity. }
  cbv beta.
  journey_step journeyCall_setStepPerformed Hs1.
  assert (Hrd1 : stepState j2 SPAWNING_KIT_READ_RESPONSE_FROM_PRELOADER
                 = Some STEP_NOT_STARTED).
  { rewrite Ho2 by done. cbn. rewrite Ho1 by done. cbn.
    rewrite Ho0 by done. cbn. rewrite Ho by done. exact Hrd. }
  journey_step journeyCall_setStepInProgress Hrd1.
  erewrite bind_Returns; cycle 1.
  { apply wrapPreloaderCrashed_Returns.
    by apply readForkCommandResponse_accepts. }
  cbv beta.
  journey_step journeyCall_setStepPerformed Hs3.
  assert (Hpa1 : stepState j4 SPAWNING_KIT_PARSE_RESPONSE_FROM_PRELOADER
                 = Some STEP_NOT_STARTED).
  { rewrite Ho4 by done. cbn. rewrite Ho3 by done. cbn.
    rewrite Ho2 by done. cbn. rewrite Ho1 by done. cbn.
    rewrite Ho0 by done. cbn. rewrite Ho by done. exact Hpa. }
  match goal with
  | |- context [bind (journeyCall X ?f) ?k ?st] =>
      destruct (journeyCall_setStepInProgress X _ st Hpa1)
        as (j5 & E5 & Hs5 & Ho5);
      rewrite (bind_Returns _ k st _ _ E5); cbv beta
  end.
  match goal with
  | |- context [erroredOnAnyException X _ _] =>
      match goal with
      | |- context [bind _ _ ?st] =>
          destruct (parse_unparseable_response X (firstLine incoming) st
                      Hs5 Hparse)
            as (e & s' & Hrun & Hcat & Hsum & Hj & Hframe)
      end
  end.
  exists e, s'. split; [by apply bind_Throws|].
  split; [exact Hcat|]. split; [exact Hsum|]. split; [|exact Hj].
  rewrite Hframe by done. cbn. rewrite Ho5 by done. exact Hs4.
Qed.

(** [spawn] up to the fork command: with a preloader that is running or can
    be started, a config that builds and a HandshakePrepare that returns
    without touching the journey, the fork command is invoked on a journey
    whose steps after the preparation are not started, and a SpawnException
    that it raises leaves [spawn] with the preloader's annotations added. *)
Lemma spawn_reaches_fork_command X io s cfg :
  sp_internalError io = None ->
  (preloaderStarted s = false ->
   exists p addr ann, sp_start io = StartOk p addr ann) ->
  sp_config io = inr cfg ->
  (forall st, exists st',
     sp_prepare io st = Returns tt st' /\ journeyOf st' = journeyOf st) ->
  exists s2,
    (forall step, step <> SPAWNING_KIT_PREPARATION ->
       hasStep (newJourney SPAWN_THROUGH_PRELOADER (sp_usingWrapper io)) step
       = true ->
       stepState (journeyOf s2) step = Some STEP_NOT_STARTED)
    /\ forall d s',
         invokeForkCommand X (sp_fork1 io) (sp_stop1 io) (sp_restart io)
           (sp_fork2 io) (sp_stop2 io) s2
         = Throws (Exc (SpawnException d)) s' ->
         spawn X io s
         = Throws (Exc (SpawnException (addPreloaderAnnotations s' d))) s'.
Proof.
  intros Hint Hstart Hcfg Hprep.
  assert (Hstarted : exists s0,
            (run (if negb (preloaderStarted (setLastUsed (sp_wallClock io) s))
                  then startPreloader (sp_start io) else ret tt);
             ret tt)%spawn (setLastUsed (sp_wallClock io) s) = Returns tt s0).
  { destruct (preloaderStarted s) eqn:Hs.
    - exists (setLastUsed (sp_wallClock io) s).
      replace (preloaderStarted (setLastUsed (sp_wallClock io) s)) with true
        by (symmetry; exact Hs).
      reflexivity.
    - destruct (Hstart eq_refl) as (p & addr & ann & Hok).
      replace (preloaderStarted (setLastUsed (sp_wallClock io) s)) with false
        by (symmetry; exact Hs).
      cbn [negb]. rewrite Hok. unfold startPreloader, bind, get.
      replace (preloaderStarted (setLastUsed (sp_wallClock io) s)) with false
        by (symmetry; exact Hs).
      eexists. reflexivity. }
  destruct Hstarted as (sA & HsA).
  set (s1 := withSession
               (fun _ => newHandshakeSession io (mkConfig (appRoot cfg) "smart")
                           SPAWN_THROUGH_PRELOADER) sA).
  assert (Hfresh : forall step,
            hasStep (newJourney SPAWN_THROUGH_PRELOADER (sp_usingWrapper io)) step
            = true ->
            stepState (journeyOf s1) step = Some STEP_NOT_STARTED).
  { intros step. apply spawnThroughPreloader_fresh. }
  assert (Hp : stepState (journeyOf s1) SPAWNING_KIT_PREPARATION
               = Some STEP_NOT_STARTED).
  { apply Hfresh. by destruct (sp_usingWrapper io). }
  destruct (journeyCall_setStepInProgress X SPAWNING_KIT_PREPARATION s1 Hp)
    as (j & E & Hs & Ho).
  destruct (Hprep (tick (withJourney j s1))) as (s2 & Hrun & Hj2).
  exists s2. split.
  { intros step Hne Hin. rewrite Hj2. cbn. rewrite Ho by done.
    by apply Hfresh. }
  intros d s' Hfork.
  unfold spawn, setConfigFromAppPoolOptions. rewrite Hint, Hcfg.
  unfold bind at 1. unfold ret at 1. cbv beta iota.
  unfold bind at 1. unfold modify at 1. cbv beta iota.
  unfold bind at 1. unfold get at 1. cbv beta iota.
  unfold bind at 1.
  unfold bind in HsA at 1.
  destruct ((if negb (preloaderStarted (setLastUsed (sp_wallClock io) s))
             then startPreloader (sp_start io) else ret tt)
              (setLastUsed (sp_wallClock io) s)) as [[] sB|?|?] eqn:HsB;
    try discriminate HsA.
  injection HsA as ->.
  unfold bind at 1. unfold modify at 1. cbv beta iota.
  fold s1.
  rewrite (bind_Returns _ _ _ _ _ E).
  erewrite try_catch_Throws; cycle 1.
  { rewrite (bind_Returns _ _ _ _ _ Hrun). apply bind_Throws. exact Hfork. }
  reflexivity.
Qed.

(** C5.  A response line of at most 10240 bytes is returned by
    readForkCommandResponse as it is, and spawn goes on with it: when the
    JSON reader rejects the line, spawn fails with the parser's error, which
    quotes the whole line, on a journey whose ReadResponseFromPreloader step
    is Performed.  A longer line makes spawn fail with a SpawnException of
    category InternalError whose summary is "The preloader process sent a
    response that exceeds the maximum size limit.", on a journey whose
    ReadResponseFromPreloader step is Errored.  The exception described is
    the one that spawn throws, after finalize() and the preloader's
    annotations.  (The preloader is running or starts, the config builds,
    HandshakePrepare returns without touching the journey, and the preloader
    accepts the connection and the command.  SpawnException::finalize is not
    under src/: it is taken to keep the category, the journey and a summary
    that is not empty.) *)
Theorem oversized_response_fails_spawn X io s cfg fd incoming :
  sp_internalError io = None ->
  (preloaderStarted s = false ->
   exists p addr ann, sp_start io = StartOk p addr ann) ->
  sp_config io = inr cfg ->
  (forall st, exists st',
     sp_prepare io st = Returns tt st' /\ journeyOf st' = journeyOf st) ->
  io_connect (sp_fork1 io) = inr fd -> io_write (sp_fork1 io) = None ->
  io_read (sp_fork1 io) = inr incoming ->
  (forall d,
     category (finalize X d) = category d
     /\ journey (finalize X d) = journey d
     /\ (summary d <> EmptyString -> summary (finalize X d) = summary d)) ->
  (Z.of_nat (String.length (firstLine incoming)) <= 10240 ->
   (forall fd0 st,
      readForkCommandResponse X (sp_fork1 io) fd0 st
      = Returns (firstLine incoming) st)
   /\ (reader_parse X (firstLine incoming) = None ->
       exists thrown s',
         spawn X io s = Throws (Exc (SpawnException thrown)) s'
         /\ category thrown = INTERNAL_ERROR
         /\ summary thrown
            = "The preloader process sent an unparseable response: "
              ++ firstLine incoming
         /\ stepState (journey thrown)
              SPAWNING_KIT_READ_RESPONSE_FROM_PRELOADER = Some STEP_PERFORMED
         /\ stepState (journey thrown)
              SPAWNING_KIT_PARSE_RESPONSE_FROM_PRELOADER = Some STEP_ERRORED))
  /\ (10240 < Z.of_nat (String.length (firstLine incoming)) ->
      exists thrown s',
        spawn X io s = Throws (Exc (SpawnException thrown)) s'
        /\ category thrown = INTERNAL_ERROR
        /\ summary thrown = sizeLimitSummary
        /\ stepState (journey thrown)
             SPAWNING_KIT_READ_RESPONSE_FROM_PRELOADER = Some STEP_ERRORED).
Proof.
  intros Hint Hstart Hcfg Hprep Hconn Hwrite Hread Hfinalize.
  destruct (spawn_reaches_fork_command X io s cfg Hint Hstart Hcfg Hprep)
    as (s2 & Hfresh & Hspawn).
  assert (Hstep : forall step,
            step ∈ [ SPAWNING_KIT_CONNECT_TO_PRELOADER;
                     SPAWNING_KIT_SEND_COMMAND_TO_PRELOADER;
                     SPAWNING_KIT_READ_RESPONSE_FROM_PRELOADER;
                     SPAWNING_KIT_PARSE_RESPONSE_FROM_PRELOADER ] ->
            stepState (journeyOf s2) step = Some STEP_NOT_STARTED).
  { intros step Hin. apply Hfresh;
      repeat (apply elem_of_cons in Hin as [->|Hin];
              [first [discriminate | by destruct (sp_usingWrapper io)]|]);
      by apply elem_of_nil in Hin. }
  assert (Hthrown : forall e s',
            invokeForkCommand X (sp_fork1 io) (sp_stop1 io) (sp_restart io)
              (sp_fork2 io) (sp_stop2 io) s2
            = Throws (Exc (SpawnException (finalize X e))) s' ->
            summary e <> EmptyString ->
            exists thrown,
              spawn X io s = Throws (Exc (SpawnException thrown)) s'
              /\ category thrown = category e
              /\ summary thrown = summary e
              /\ journey thrown = journey e).
  { intros e s' Hfork Hsummary.
    exists (addPreloaderAnnotations s' (finalize X e)).
    split; [by apply Hspawn|].
    destruct (addPreloaderAnnotations_fields s' (finalize X e))
      as (-> & -> & -> & _).
    destruct (Hfinalize e) as (-> & -> & Hsum). by rewrite Hsum. }
  split.
  - intros Hlen. split.
    { intros fd0 st. by apply readForkCommandResponse_accepts. }
    intros Hparse.
    destruct (internalInvokeForkCommand_unparseable_response X (sp_fork1 io)
                s2 fd incoming)
      as (e & s' & Hrun & Hcat & Hsum & Hrd & Hpa); try done;
      try (apply Hstep; by repeat first [ apply list_elem_of_here
                                        | apply list_elem_of_further ]).
    destruct (Hthrown e s') as (thrown & Hrun' & Hc & Hs & Hj).
    { unfold invokeForkCommand. by rewrite (try_catch_Throws _ _ _ _ _ Hrun). }
    { rewrite Hsum. discriminate. }
    exists thrown, s'. rewrite Hc, Hs, Hj. by repeat split.
  - intros Hlen.
    destruct (invokeForkCommand_oversized_response X (sp_fork1 io)
                (sp_stop1 io) (sp_restart io) (sp_fork2 io) (sp_stop2 io)
                s2 fd incoming)
      as (e & s' & Hfork & Hcat & Hsum & Hrd & _); try done;
      try (apply Hstep; by repeat first [ apply list_elem_of_here
                                        | apply list_elem_of_further ]).
    destruct (Hthrown e s' Hfork) as (thrown & Hrun' & Hc & Hs & Hj).
    { rewrite Hsum. discriminate. }
    exists thrown, s'. rewrite Hc, Hs, Hj. by repeat split.
Qed.

Lemma oversized_response_fails_spawn_witness :
  10240 < Z.of_nat (String.length (firstLine (responseOfSize 10241)))
  /\ exists thrown s',
       spawn X0 spawnIOOversized s0 = Throws (Exc (SpawnException thrown)) s'
       /\ category thrown = INTERNAL_ERROR
       /\ summary thrown = sizeLimitSummary
       /\ stepState (journey thrown) SPAWNING_KIT_READ_RESPONSE_FROM_PRELOADER
          = Some STEP_ERRORED.
Proof.
  split; [vm_compute; reflexivity|].
  refine (proj2 (oversized_response_fails_spawn X0 spawnIOOversized s0
                   (mkConfig "/app" EmptyString) 7 (responseOfSize 10241)
                   eq_refl _ eq_refl _ eq_refl eq_refl eq_refl _) _).
  - intros Hstopped. vm_compute in Hstopped. discriminate Hstopped.
  - intros st. exists st. split; reflexivity.
  - intros d. repeat split; reflexivity.
  - vm_compute. reflexivity.
Defined.

(** The boundary of §8: a response of exactly 10 240 bytes is accepted. *)
Lemma response_of_10240_bytes_is_accepted :
  Z.of_nat (String.length (responseOfSize 10240)) = 10240
  /\ readForkCommandResponse X0
       (mkForkIO (inr 7) None (inr (responseOfSize 10240))
          false FifoTimedOut false FifoTimedOut (inr 501) true EmptyString None)
       7 s0
     = Returns (firstLine (responseOfSize 10240)) s0.
Proof.
  split; [vm_compute; reflexivity|].
  apply readForkCommandResponse_accepts; [reflexivity|].
  vm_compute. discriminate.
Qed.

End SmartSpawnerFacts.

(** ** Properties of the spawn-env setupper *)

Module SpawnEnvSetupperFacts.
Import SpawnEnvSetupper SetupperSpec.

Lemma setenv_valid name value env :
  validName name = true -> setenv name value true env = <[name := value]> env.
Proof. unfold setenv. by intros ->. Qed.

Lemma setenv_invalid name value overwrite env :
  validName name = false -> setenv name value overwrite env = env.
Proof. unfold setenv. by intros ->. Qed.

Lemma unsetenv_valid name env :
  validName name = true -> unsetenv name env = delete name env.
Proof. unfold unsetenv. by intros ->. Qed.

Lemma setGivenEnvVarsIn_cons k v (members : list (string * string)) env :
  setGivenEnvVarsIn ((k, v) :: members) env
  = setGivenEnvVarsIn members (setenv k v true env).
Proof. reflexivity. Qed.

Lemma setGivenEnvVarsIn_notin (members : list (string * string)) env k :
  k ∉ members.*1 -> setGivenEnvVarsIn members env !! k = env !! k.
Proof.
  revert env. induction members as [|[k' v'] members IH]; intros env Hk; [done|].
  rewrite fmap_cons in Hk. apply not_elem_of_cons in Hk as [Hne Hk].
  rewrite setGivenEnvVarsIn_cons.
  rewrite IH by done. unfold setenv.
  destruct (validName k'); [|done]. cbn [orb].
  by rewrite lookup_insert_ne.
Qed.

Lemma setGivenEnvVarsIn_in (members : list (string * string)) env k v :
  NoDup members.*1 -> (k, v) ∈ members -> validName k = true ->
  setGivenEnvVarsIn members env !! k = Some v.
Proof.
  revert env. induction members as [|[k' v'] members IH];
    intros env Hnd Hin Hvalid; [by apply elem_of_nil in Hin|].
  rewrite fmap_cons in Hnd. apply NoDup_cons in Hnd as [Hk' Hnd].
  rewrite setGivenEnvVarsIn_cons.
  apply elem_of_cons in Hin as [[= <- <-] | Hin].
  - rewrite setGivenEnvVarsIn_notin by done.
    rewrite setenv_valid by done. by rewrite lookup_insert_eq.
  - by apply IH.
Qed.

(** X23.  The environment that the loop of setGivenEnvVars produces does
    not depend on the order in which the members of environment_variables
    are visited, as long as no name occurs twice. *)
Lemma setGivenEnvVarsIn_order (l1 l2 : list (string * string)) env :
  NoDup l1.*1 -> l1 ≡ₚ l2 ->
  setGivenEnvVarsIn l1 env = setGivenEnvVarsIn l2 env.
Proof.
  intros Hnd Hperm. apply map_eq. intros k.
  assert (Hnd2 : NoDup l2.*1) by (by rewrite <- Hperm).
  destruct (decide (k ∈ l1.*1)) as [Hin|Hin].
  - apply list_elem_of_fmap in Hin as ([k' v] & -> & Hin). cbn [fst].
    destruct (validName k') eqn:Hvalid.
    + rewrite !(setGivenEnvVarsIn_in _ _ k' v); try done. by rewrite <- Hperm.
    + clear Hin Hnd Hnd2 Hperm. revert env.
      assert (Hskip : forall l env, setGivenEnvVarsIn l env !! k' = env !! k').
      { induction l as [|[k0 v0] l IH]; intros env0; [done|].
        rewrite setGivenEnvVarsIn_cons.
        rewrite IH. unfold setenv.
        destruct (validName k0) eqn:Hk0; [|done]. cbn [orb].
        rewrite lookup_insert_ne; [done|]. intros ->. congruence. }
      intros env. by rewrite !Hskip.
  - rewrite !setGivenEnvVarsIn_notin; try done. by rewrite <- Hperm.
Qed.

(** C8.  In --after mode the defaults are PYTHONUNBUFFERED=1, NODE_PATH from
    node_libdir, the five app-env variables from app_env, PORT from
    expected_start_port when present (left alone otherwise), and the three
    base-URI variables from base_uri unless it is "/", in which case they
    are unset.  The given variables are applied afterwards: every default
    name that is also given, and more generally every given name that
    setenv accepts, ends up with the given value, and names that are not
    given keep what the defaults left. *)
Theorem after_mode_environment (context : Context) (appRoot : string)
    (env0 env : Environ) :
  let a := args context in
  let defaults := setDefaultEnvvars a env0 in
  let final := afterModeEnviron context appRoot env in
  defaults !! "PYTHONUNBUFFERED" = Some "1"
  /\ defaults !! "NODE_PATH" = Some (node_libdir a)
  /\ (forall k, k ∈ appEnvKeys -> defaults !! k = Some (app_env a))
  /\ defaults !! "PORT"
     = match expected_start_port a with
       | Some port => Some (toString port)
       | None => env0 !! "PORT"
       end
  /\ (forall k, k ∈ baseUriKeys ->
      defaults !! k
      = if String.eqb (base_uri a) "/" then None else Some (base_uri a))
  /\ (forall k v, k ∈ defaultKeys -> environment_variables a !! k = Some v ->
      final !! k = Some v)
  /\ (forall k v, validName k = true -> environment_variables a !! k = Some v ->
      final !! k = Some v)
  /\ (forall k, environment_variables a !! k = None ->
      final !! k
      = setDefaultEnvvars a
          (setenv "PWD" appRoot true
             (setenv "PASSENGER_SPAWN_WORK_DIR" (workDir context) true
                (setenv "IN_PASSENGER" "1" true env))) !! k).
Proof.
  intros a defaults final.
  assert (Hgiven : forall k v, validName k = true ->
            environment_variables a !! k = Some v -> final !! k = Some v).
  { intros k v Hvalid Hk. unfold final, afterModeEnviron, setGivenEnvVars.
    apply setGivenEnvVarsIn_in; [apply NoDup_fst_map_to_list| |done].
    by apply elem_of_map_to_list. }
  assert (Hdef : forall k, k ∈ defaultKeys -> validName k = true).
  { intros k Hk. unfold defaultKeys, appEnvKeys, baseUriKeys in Hk. cbn in Hk.
    repeat (apply elem_of_cons in Hk as [->|Hk]; [reflexivity|]).
    by apply elem_of_nil in Hk. }
  unfold defaults, setDefaultEnvvars. fold a.
  repeat split.
  - destruct (expected_start_port a), (String.eqb (base_uri a) "/");
      cbn [negb]; rewrite ?setenv_valid, ?unsetenv_valid by reflexivity;
      by simplify_map_eq.
  - destruct (expected_start_port a), (String.eqb (base_uri a) "/");
      cbn [negb]; rewrite ?setenv_valid, ?unsetenv_valid by reflexivity;
      by simplify_map_eq.
  - intros k Hk. unfold appEnvKeys in Hk.
    repeat (apply elem_of_cons in Hk as [->|Hk];
      [destruct (expected_start_port a), (String.eqb (base_uri a) "/");
       cbn [negb]; rewrite ?setenv_valid, ?unsetenv_valid by reflexivity;
       by simplify_map_eq|]).
    by apply elem_of_nil in Hk.
  - destruct (expected_start_port a), (String.eqb (base_uri a) "/");
      cbn [negb]; rewrite ?setenv_valid, ?unsetenv_valid by reflexivity;
      by simplify_map_eq.
  - intros k Hk. unfold baseUriKeys in Hk.
    repeat (apply elem_of_cons in Hk as [->|Hk];
      [destruct (expected_start_port a), (String.eqb (base_uri a) "/");
       cbn [negb]; rewrite ?setenv_valid, ?unsetenv_valid by reflexivity;
       by simplify_map_eq|]).
    by apply elem_of_nil in Hk.
  - intros k v Hk. apply Hgiven. by apply Hdef.
  - exact Hgiven.
  - intros k Hk. unfold final, afterModeEnviron, setGivenEnvVars.
    apply setGivenEnvVarsIn_notin. intros Hin.
    apply list_elem_of_fmap in Hin as ([k' v] & -> & Hin).
    apply elem_of_map_to_list in Hin. cbn [fst] in Hk.
    unfold a in Hk. rewrite Hin in Hk. discriminate Hk.
Qed.

Lemma after_mode_environment_witness :
  afterModeEnviron
    (mkContext "/tmp/w1" AFTER_MODE
       (mkArgs "/usr/share/passenger/node" "production" (Some 3000) "/"
          {[ "RAILS_ENV" := "staging" ]})
       Journey.SUBPROCESS_SPAWN_ENV_SETUPPER_AFTER_SHELL 1000000)
    "/app" ∅ !! "RAILS_ENV" = Some "staging".
Proof.
  refine (proj1 (proj2 (proj2 (proj2 (proj2 (proj2
            (after_mode_environment _ "/app" ∅ ∅))))))
            "RAILS_ENV" "staging" _ _).
  - unfold defaultKeys, appEnvKeys. cbn.
    apply list_elem_of_further, list_elem_of_further, list_elem_of_here.
  - apply lookup_singleton_eq.
Defined.

(** C9 (the code at the failing input).  When getgrouplist succeeds and the
    count fits NGROUPS_MAX, the array handed to setgroups is the freshly
    allocated one, whose contents nobody wrote: the call does not depend on
    the groups that getgrouplist produced. *)
Theorem setgroups_receives_fresh_array (io : GroupIO) (context : Context)
    (uid : uid_t) (userInfo : passwd) (gid : gid_t) :
  hasGetgrouplist io = true ->
  getgrouplist_ret io <> -1 ->
  getgrouplist_ngroups io <= NGROUPS_MAX io ->
  setgroups_errno io = None ->
  setgid_errno io = None ->
  switchGroup io context uid (Some userInfo) gid
  = ([ Getgrouplist (pw_name userInfo) gid 1024;
       Setgroups (getgrouplist_ngroups io)
         (new_gid_array io (getgrouplist_ngroups io));
       Setgid gid ], inr tt).
Proof.
  intros Hhas Hret Hn Hset Hgid. unfold switchGroup.
  rewrite Hhas, Hset, Hgid.
  rewrite bool_decide_false by done. rewrite bool_decide_true by done.
  reflexivity.
Qed.

Lemma setgroups_receives_fresh_array_witness :
  getgrouplist_groups groupIOExample = [1000; 27]
  /\ switchGroup groupIOExample contextExample 1000 (Some appUser) 1000
     = ([ Getgrouplist "app" 1000 1024; Setgroups 2 [0; 0]; Setgid 1000 ],
        inr tt).
Proof.
  split; [reflexivity|].
  apply (setgroups_receives_fresh_array groupIOExample contextExample 1000
           appUser 1000); [reflexivity| |cbn; lia|reflexivity|reflexivity].
  cbn. lia.
Defined.

(** X22.  Where getgrouplist is not compiled in, and where it reports more
    groups than NGROUPS_MAX, a switchGroup whose initgroups and setgid
    calls succeed has called getgrouplist (where it is compiled in), then
    initgroups, then setgid, and never setgroups. *)
Lemma switchGroup_falls_back_to_initgroups (io : GroupIO) (context : Context)
    (uid : uid_t) (userInfo : passwd) (gid : gid_t) :
  hasGetgrouplist io = false
  \/ (getgrouplist_ret io <> -1 /\ NGROUPS_MAX io < getgrouplist_ngroups io) ->
  initgroups_errno io = None ->
  setgid_errno io = None ->
  switchGroup io context uid (Some userInfo) gid
  = ((if hasGetgrouplist io
      then [ Getgrouplist (pw_name userInfo) gid 1024 ] else [])
     ++ [ Initgroups (pw_name userInfo) gid; Setgid gid ], inr tt)%list.
Proof.
  intros Hcase Hinit Hgid. unfold switchGroup. rewrite Hinit, Hgid.
  destruct Hcase as [-> | [Hret Hn]]; [reflexivity|].
  destruct (hasGetgrouplist io); [|reflexivity].
  rewrite bool_decide_false by done. rewrite bool_decide_false by lia.
  reflexivity.
Qed.

(** X21.  Whenever switchGroup ends the process, the exit code is 1 and
    the last things it did were to record the step as errored, the
    category OPERATING_SYSTEM_ERROR, and one message that is printed and
    recorded both as the summary and as the advanced problem details. *)
Lemma switchGroup_failure_is_fatal (io : GroupIO) (context : Context)
    (uid : uid_t) (userInfo : option passwd) (gid : gid_t) code :
  (switchGroup io context uid userInfo gid).2 = inl code ->
  code = 1
  /\ exists before message,
       (switchGroup io context uid userInfo gid).1
       = (before ++
          [ RecordJourneyStepComplete (step context) Journey.STEP_ERRORED;
            RecordErrorCategory OPERATING_SYSTEM_ERROR;
            PrintError message; RecordErrorSummary message;
            RecordAdvancedProblemDetails message ])%list.
Proof.
  unfold switchGroup.
  destruct userInfo as [u|]; [destruct (hasGetgrouplist io)|];
    repeat case_bool_decide;
    destruct (setgroups_errno io), (initgroups_errno io), (setgid_errno io);
    cbn; intros [= <-]; (split; [reflexivity|]);
    first [ by eexists [], _
          | by eexists [_], _
          | by eexists [_; _], _
          | by eexists [_; _; _], _ ].
Qed.

End SpawnEnvSetupperFacts.

(** ** Further properties of Journey.h *)

Module JourneyExtra.
Import Journey Spec SpawnerSpec Scenarios JourneyFacts.

(** X1.  journeyStepStateToString and stringToJourneyStepState are inverse
    to each other: every state is read back from its name, and every
    string that is read as a state other than UNKNOWN_JOURNEY_STEP_STATE
    is the name of that state. *)
Theorem step_state_string_round_trip :
  (forall s, stringToJourneyStepState (journeyStepStateToString s) = s)
  /\ (forall value,
        stringToJourneyStepState value <> UNKNOWN_JOURNEY_STEP_STATE ->
        journeyStepStateToString (stringToJourneyStepState value) = value).
Proof.
  split; [by intros []|].
  intros value. unfold stringToJourneyStepState.
  destruct (String.eqb_spec value "STEP_NOT_STARTED") as [->|_]; [done|].
  destruct (String.eqb_spec value "STEP_IN_PROGRESS") as [->|_]; [done|].
  destruct (String.eqb_spec value "STEP_PERFORMED") as [->|_]; [done|].
  destruct (String.eqb_spec value "STEP_ERRORED") as [->|_]; [done|].
  by intros [].
Qed.

Lemma hasStep_false j step :
  hasStep j step = false -> map_find step (steps j) = None.
Proof.
  unfold hasStep. intros H%bool_decide_eq_false.
  destruct (map_find step (steps j)); [|done]. by destruct H.
Qed.

(** X2.  A step that the journey does not hold is refused by getStepInfo,
    by each of the four state mutators, forced or not, and by
    setStepExecutionDuration, always with the RuntimeException 'Invalid
    step <name>'. *)
Theorem absent_step_is_refused (j : Journey) (step : JourneyStep)
    (m : Mutator) (now : MonotonicTimeUsec) (force : bool) (usec : Z) :
  hasStep j step = false ->
  getStepInfo j step
    = inl (RuntimeException ("Invalid step " ++ journeyStepToString step))
  /\ call m now step force j
    = inl (RuntimeException ("Invalid step " ++ journeyStepToString step))
  /\ setStepExecutionDuration step usec j
    = inl (RuntimeException ("Invalid step " ++ journeyStepToString step)).
Proof.
  intros H%hasStep_false.
  destruct m; cbn [call];
    unfold setStepNotStarted, setStepInProgress, setStepPerformed,
      setStepErrored, setStepExecutionDuration, getStepInfoMutable, getStepInfo;
    by rewrite H.
Qed.

Lemma absent_step_is_refused_witness :
  getStepInfo directJourney SPAWNING_KIT_CONNECT_TO_PRELOADER
  = inl (RuntimeException "Invalid step SPAWNING_KIT_CONNECT_TO_PRELOADER")
  /\ setStepInProgress 5 SPAWNING_KIT_CONNECT_TO_PRELOADER true directJourney
     = inl (RuntimeException "Invalid step SPAWNING_KIT_CONNECT_TO_PRELOADER").
Proof.
  destruct (absent_step_is_refused directJourney
              SPAWNING_KIT_CONNECT_TO_PRELOADER SetStepInProgress 5 true 7
              eq_refl) as (Hget & Hcall & _).
  split; [exact Hget|exact Hcall].
Defined.

Lemma getStepInfo_store j step info info0 :
  getStepInfo j step = inr info0 ->
  getStepInfo (storeStepInfo j step info) step = inr info.
Proof.
  unfold getStepInfo, storeStepInfo. cbn. rewrite map_find_assign, decide_True by done.
  by destruct (map_find step (steps j)).
Qed.

Lemma getStepInfo_store_ne j step info step' :
  step' <> step ->
  getStepInfo (storeStepInfo j step info) step' = getStepInfo j step'.
Proof.
  intros Hne. unfold getStepInfo, storeStepInfo. cbn.
  by rewrite map_find_assign, decide_False.
Qed.

Lemma getStepInfo_find j step info :
  getStepInfo j step = inr info <-> map_find step (steps j) = Some info.
Proof.
  unfold getStepInfo. destruct (map_find step (steps j)); split; congruence.
Qed.

(** X3.  With force, each of the four state mutators succeeds on every
    step the journey holds, whatever the step's state; the step ends in
    the mutator's target state and every other step is as it was. *)
Theorem forced_call_succeeds (m : Mutator) (now : MonotonicTimeUsec)
    (j : Journey) (step : JourneyStep) :
  hasStep j step = true ->
  exists j', call m now step true j = inr j'
    /\ stepState j' step = Some (target m)
    /\ forall step', step' <> step -> getStepInfo j' step' = getStepInfo j step'.
Proof.
  unfold hasStep. intros [info Hfind]%bool_decide_eq_true.
  assert (Hs : stepState j step = Some (state info)).
  { unfold stepState. by rewrite Hfind. }
  assert (Hstore : forall info', stepState (storeStepInfo j step info') step
                                 = Some (state info')).
  { intros info'. rewrite stepState_store, decide_True, Hfind; done. }
  destruct m; cbn [call target];
    unfold setStepNotStarted, setStepInProgress, setStepPerformed,
      setStepErrored, getStepInfoMutable, getStepInfo;
    rewrite Hfind; destruct (state info) eqn:Hst; cbn;
    first [ by eexists; split; [reflexivity|]; split;
               [apply Hstore | intros; by apply getStepInfo_store_ne]
          | by eexists; split; [reflexivity|]; split; [rewrite Hs| ] ].
Qed.

Lemma forced_call_succeeds_witness :
  exists j',
    setStepErrored 7 SPAWNING_KIT_HANDSHAKE_PERFORM true directJourney = inr j'
    /\ stepState j' SPAWNING_KIT_HANDSHAKE_PERFORM = Some STEP_ERRORED.
Proof.
  destruct (forced_call_succeeds SetStepErrored 7 directJourney
              SPAWNING_KIT_HANDSHAKE_PERFORM eq_refl) as (j' & Hcall & Hst & _).
  exists j'. split; [exact Hcall|exact Hst].
Defined.

Lemma hasStep_store j step info step' :
  hasStep (storeStepInfo j step info) step' = hasStep j step'.
Proof.
  unfold hasStep, storeStepInfo. cbn. rewrite map_find_assign.
  case_decide as Heq; [subst|done].
  by destruct (map_find step (steps j)).
Qed.

(** Every successful mutator call rewrites one entry in place. *)
Lemma call_stores m now step force j j' :
  call m now step force j = inr j' ->
  j' = j \/ exists info, j' = storeStepInfo j step info.
Proof.
  destruct m; cbn [call];
    unfold setStepNotStarted, setStepInProgress, setStepPerformed,
      setStepErrored, getStepInfoMutable, getStepInfo;
    destruct (map_find step (steps j)); try discriminate;
    repeat case_match; intros [= <-]; eauto.
Qed.

(** X4.  A successful call of a state mutator or of
    setStepExecutionDuration changes neither the journey's type, nor its
    wrapper flag, nor the set of steps it holds. *)
Theorem mutators_keep_population (m : Mutator) (now : MonotonicTimeUsec)
    (step : JourneyStep) (force : bool) (usec : Z) (j j' : Journey) :
  call m now step force j = inr j'
  \/ setStepExecutionDuration step usec j = inr j' ->
  type j' = type j /\ usingWrapper j' = usingWrapper j
  /\ forall step', hasStep j' step' = hasStep j step'.
Proof.
  intros [H | H].
  - apply call_stores in H as [-> | [info ->]]; [done|].
    repeat split. intros step'. apply hasStep_store.
  - unfold setStepExecutionDuration, getStepInfoMutable, getStepInfo in H.
    destruct (map_find step (steps j)); [|discriminate].
    injection H as <-. repeat split. intros step'. apply hasStep_store.
Qed.

Lemma mutators_keep_population_witness :
  type (storeStepInfo directJourney SPAWNING_KIT_PREPARATION
          (mkJourneyStepInfo STEP_IN_PROGRESS 5 0)) = SPAWN_DIRECTLY
  /\ hasStep (storeStepInfo directJourney SPAWNING_KIT_PREPARATION
                (mkJourneyStepInfo STEP_IN_PROGRESS 5 0))
       SPAWNING_KIT_CONNECT_TO_PRELOADER = false.
Proof.
  destruct (mutators_keep_population SetStepInProgress 5
              SPAWNING_KIT_PREPARATION false 0 directJourney
              (storeStepInfo directJourney SPAWNING_KIT_PREPARATION
                 (mkJourneyStepInfo STEP_IN_PROGRESS 5 0))
              (or_introl eq_refl)) as (Htype & _ & Hsteps).
  split; [exact Htype|exact (Hsteps SPAWNING_KIT_CONNECT_TO_PRELOADER)].
Defined.

(** X5.  Once a step has a non-zero end time, no successful call of a
    state mutator, on that step or on another, forced or not, changes it. *)
Theorem recorded_end_time_is_kept (m : Mutator) (now : MonotonicTimeUsec)
    (step step' : JourneyStep) (force : bool) (j j' : Journey)
    (info : JourneyStepInfo) :
  getStepInfo j step' = inr info ->
  endTime info <> 0 ->
  call m now step force j = inr j' ->
  exists info', getStepInfo j' step' = inr info'
    /\ endTime info' = endTime info.
Proof.
  intros Hinfo Hend Hcall.
  destruct (decide (step' = step)) as [->|Hne].
  - pose proof Hinfo as Hfind%getStepInfo_find.
    destruct m; cbn [call] in Hcall;
      unfold setStepNotStarted, setStepInProgress, setStepPerformed,
        setStepErrored, getStepInfoMutable in Hcall;
      rewrite Hinfo in Hcall;
      repeat case_match; simplify_eq;
      first [ by eexists
            | by match goal with
                 | H : bool_decide (endTime _ = 0) = true |- _ =>
                     apply bool_decide_eq_true in H
                 end
            | eexists; split; [by eapply getStepInfo_store|]; done ].
  - apply call_stores in Hcall as [-> | [info0 ->]]; [by eexists|].
    exists info. by rewrite getStepInfo_store_ne.
Qed.

Lemma recorded_end_time_is_kept_witness :
  exists info',
    getStepInfo
      (storeStepInfo preparedJourney SPAWNING_KIT_PREPARATION
         (mkJourneyStepInfo STEP_ERRORED 1000000 1500000))
      SPAWNING_KIT_PREPARATION = inr info'
    /\ endTime info' = 1500000.
Proof.
  apply (recorded_end_time_is_kept SetStepErrored 9000000
           SPAWNING_KIT_PREPARATION SPAWNING_KIT_PREPARATION true
           preparedJourney _
           (mkJourneyStepInfo STEP_PERFORMED 1000000 1500000));
    first [reflexivity|discriminate].
Defined.

(** X6.  setStepExecutionDuration with a duration below 2^64 stores times
    from which usecDuration reads the same duration back, and keeps the
    state of the step. *)
Theorem execution_duration_round_trip (step : JourneyStep) (usec : Z)
    (j : Journey) (info : JourneyStepInfo) :
  getStepInfo j step = inr info ->
  0 <= usec < 2 ^ 64 ->
  exists j' info',
    setStepExecutionDuration step usec j = inr j'
    /\ getStepInfo j' step = inr info'
    /\ usecDuration info' = usec
    /\ state info' = state info.
Proof.
  intros Hinfo Hrange. unfold setStepExecutionDuration, getStepInfoMutable.
  rewrite Hinfo. eexists _, _. split; [reflexivity|].
  split; [by eapply getStepInfo_store|]. split; [|reflexivity].
  unfold usecDuration, wrap64. cbn. rewrite Z.sub_0_r.
  by apply Z.mod_small.
Qed.

Lemma execution_duration_round_trip_witness :
  exists j' info',
    setStepExecutionDuration SUBPROCESS_LISTEN 2500000 directJourney = inr j'
    /\ getStepInfo j' SUBPROCESS_LISTEN = inr info'
    /\ usecDuration info' = 2500000
    /\ state info' = STEP_NOT_STARTED.
Proof.
  apply (execution_duration_round_trip SUBPROCESS_LISTEN 2500000 directJourney
           (newJourneyStepInfo STEP_NOT_STARTED)); [reflexivity|lia].
Defined.

(** X7.  A step that was never started, set in progress at time t1 and
    then performed or errored at time t2, has start time t1, end time t2
    and a usecDuration of (t2 - t1) modulo 2^64. *)
Theorem step_duration_is_end_minus_start (m : Mutator) (t1 t2 : MonotonicTimeUsec)
    (step : JourneyStep) (j : Journey) :
  getStepInfo j step = inr (newJourneyStepInfo STEP_NOT_STARTED) ->
  m = SetStepPerformed \/ m = SetStepErrored ->
  exists j1 j2 info,
    setStepInProgress t1 step false j = inr j1
    /\ call m t2 step false j1 = inr j2
    /\ getStepInfo j2 step = inr info
    /\ state info = target m
    /\ startTime info = t1 /\ endTime info = t2
    /\ usecDuration info = (t2 - t1) mod 2 ^ 64.
Proof.
  intros Hinfo Hm.
  unfold setStepInProgress, getStepInfoMutable. rewrite Hinfo. cbn.
  eexists _.
  assert (H1 : getStepInfo
            (storeStepInfo j step (mkJourneyStepInfo STEP_IN_PROGRESS t1 0)) step
            = inr (mkJourneyStepInfo STEP_IN_PROGRESS t1 0))
    by (by eapply getStepInfo_store).
  destruct Hm as [-> | ->]; cbn [call target];
    unfold setStepPerformed, setStepErrored, getStepInfoMutable;
    rewrite H1; cbn;
    (eexists _, _; split; [reflexivity|]; split; [reflexivity|];
     split; [by eapply getStepInfo_store|]; by repeat split).
Qed.

Lemma step_duration_is_end_minus_start_witness :
  exists j1 j2 info,
    setStepInProgress 1000000 SPAWNING_KIT_PREPARATION false directJourney
    = inr j1
    /\ setStepPerformed 3500000 SPAWNING_KIT_PREPARATION false j1 = inr j2
    /\ getStepInfo j2 SPAWNING_KIT_PREPARATION = inr info
    /\ usecDuration info = 2500000.
Proof.
  destruct (step_duration_is_end_minus_start SetStepPerformed 1000000 3500000
              SPAWNING_KIT_PREPARATION directJourney eq_refl
              (or_introl eq_refl))
    as (j1 & j2 & info & H1 & H2 & H3 & _ & _ & _ & Hd).
  exists j1, j2, info. repeat split; assumption.
Defined.

(** X8.  A journey as the constructor builds it has no failed step, and
    every step it holds is not started, with start and end time zero. *)
Theorem fresh_journey_has_not_started (t : JourneyType) (w : bool)
    (step : JourneyStep) :
  getFirstFailedStep (newJourney t w) = UNKNOWN_JOURNEY_STEP
  /\ (hasStep (newJourney t w) step = true ->
      getStepInfo (newJourney t w) step
      = inr (mkJourneyStepInfo STEP_NOT_STARTED 0 0)).
Proof. destruct t, w, step; vm_compute; split; first [reflexivity | discriminate]. Qed.

End JourneyExtra.

Module JourneyJsonFacts.
Import Journey SmartSpawner Spec Scenarios JourneyFacts JourneyJson.

Lemma journeyStepToString_inj a b :
  journeyStepToString a = journeyStepToString b -> a = b.
Proof. destruct a, b; first [reflexivity | discriminate]. Qed.

Lemma assoc_setMember key value members k :
  assoc k (setMember key value members)
  = if String.eqb k key then Some value else assoc k members.
Proof.
  induction members as [|[k0 v0] members IH]; cbn [setMember assoc].
  - by destruct (String.eqb k key).
  - destruct (String.eqb_spec key k0) as [->|Hne]; cbn [assoc].
    + by destruct (String.eqb k k0).
    + rewrite IH. destruct (String.eqb_spec k k0) as [->|]; [|done].
      destruct (String.eqb_spec k0 key); [congruence|done].
Qed.

Lemma member_assign doc key value k :
  match doc with JNull | JObject _ => True | _ => False end ->
  member (assign doc key value) k
  = if String.eqb k key then value else member doc k.
Proof.
  destruct doc; try done; intros _; cbn [assign member].
  - cbn [assoc]. by destruct (String.eqb k key).
  - rewrite assoc_setMember. by destruct (String.eqb k key).
Qed.

Lemma inspected_steps (m : Map) (acc : Json) step :
  match acc with JNull | JObject _ => True | _ => False end ->
  NoDup m.*1 ->
  member (foldl (fun steps entry =>
                   assign steps (journeyStepToString entry.1)
                     (inspectStepAsJson entry.2 entry.1)) acc m)
    (journeyStepToString step)
  = match map_find step m with
    | Some info => inspectStepAsJson info step
    | None => member acc (journeyStepToString step)
    end.
Proof.
  revert acc. induction m as [|[k v] m IH]; intros acc Hacc Hnd; [done|].
  rewrite fmap_cons in Hnd. apply NoDup_cons in Hnd as [Hk Hnd].
  cbn [foldl map_find fst snd]. rewrite IH; [|by destruct acc|done].
  destruct (decide (step = k)) as [->|Hne].
  - destruct (map_find k m) eqn:Hf.
    + by apply map_find_elem_of in Hf.
    + rewrite member_assign by done. by rewrite String.eqb_refl.
  - destruct (map_find step m); [done|].
    rewrite member_assign by done.
    destruct (String.eqb_spec (journeyStepToString step) (journeyStepToString k))
      as [Heq%journeyStepToString_inj|]; done.
Qed.

Lemma keysAscending_NoDup keys : keysAscending keys -> NoDup keys.
Proof.
  intros [Hsorted _]. induction Hsorted as [|a l _ IH Hall]; constructor; [|done].
  intros Hin. rewrite Forall_forall in Hall. specialize (Hall a Hin). lia.
Qed.

(** X9.  For a journey built by the constructor and the mutators,
    inspectAsJson gives a document whose member type is the name of the
    journey type and whose member steps holds, under the name of each step
    of the journey, that step's state name and usecDuration, and nothing
    under the name of any other step; stringToJourneyStepState reads each
    step's state back from the document. *)
Theorem inspectAsJson_members (j : Journey) (step : JourneyStep) :
  reachable j ->
  let doc := inspectAsJson j in
  member doc "type" = JString (journeyTypeToString (type j))
  /\ member (member doc "steps") (journeyStepToString step)
     = match getStepInfo j step with
       | inr info =>
           JObject [("state", JString (journeyStepStateToString (state info)));
                    ("usec_duration", JInt (usecDuration info))]
       | inl _ => JNull
       end
  /\ (forall info, getStepInfo j step = inr info ->
      stringToJourneyStepState
        (asString (member (member (member doc "steps")
                             (journeyStepToString step)) "state"))
      = state info).
Proof.
  intros Hreach doc.
  assert (Hnd : NoDup (steps j).*1).
  { apply keysAscending_NoDup. rewrite (reachable_keys j Hreach).
    apply constructor_keysAscending. }
  assert (Hsteps : member (member doc "steps") (journeyStepToString step)
     = match getStepInfo j step with
       | inr info =>
           JObject [("state", JString (journeyStepStateToString (state info)));
                    ("usec_duration", JInt (usecDuration info))]
       | inl _ => JNull
       end).
  { unfold doc, inspectAsJson. cbn [assign member setMember assoc].
    cbn. rewrite inspected_steps by done.
    unfold getStepInfo. by destruct (map_find step (steps j)). }
  split; [reflexivity|]. split; [exact Hsteps|].
  intros info Hinfo. rewrite Hsteps, Hinfo. cbn.
  by destruct (state info).
Qed.

Lemma inspectAsJson_members_witness :
  member (inspectAsJson directJourney) "type" = JString "SPAWN_DIRECTLY".
Proof.
  exact (proj1 (inspectAsJson_members directJourney SPAWNING_KIT_PREPARATION
                  (reach_new SPAWN_DIRECTLY false))).
Defined.

End JourneyJsonFacts.

(** ** Further properties of SmartSpawner.h *)

Module SmartSpawnerExtra.
Import Journey SmartSpawner Spec SpawnerSpec CrashFreedom Scenarios JourneyFacts
  SmartSpawnerFacts.

Lemma adjustTimeoutValue_bounds startTime now timeout t :
  0 <= timeout ->
  adjustTimeoutValue startTime now timeout = Some t ->
  0 <= t <= timeout /\ (now = startTime -> t = timeout).
Proof.
  intros Hpos. unfold adjustTimeoutValue, wrap64.
  case_bool_decide; [|done].
  pose proof (Z.mod_pos_bound (startTime - now) (2 ^ 64) ltac:(lia)).
  case_bool_decide; intros [= <-]; (split; [lia|]).
  - intros ->. rewrite Z.sub_diag, Z.mod_0_l by lia. lia.
  - intros ->. rewrite Z.sub_diag, Z.mod_0_l in * by lia. lia.
Qed.

Lemma adjustTimeout_bounds X startTime s :
  0 <= s_timeoutUsec (session s) ->
  0 <= s_timeoutUsec (session (finalState (adjustTimeout X startTime s)))
    <= s_timeoutUsec (session s).
Proof.
  intros Hpos. unfold adjustTimeout, getMonotonicUsec, bind, get.
  cbn [session tick].
  destruct (adjustTimeoutValue startTime (clock X (ticks s))
              (s_timeoutUsec (session s))) as [t|] eqn:Ht; cbn; [|lia].
  by apply adjustTimeoutValue_bounds in Ht as [? _].
Qed.

(** X10.  Whatever the outcome of opening the FIFO, openFifoWithTimeout
    leaves the remaining timeout between zero and the value it had before
    the call. *)
Theorem openFifoWithTimeout_never_extends_timeout X path outcome s :
  0 <= s_timeoutUsec (session s) ->
  0 <= s_timeoutUsec (session (finalState (openFifoWithTimeout X path outcome s)))
    <= s_timeoutUsec (session s).
Proof.
  intros Hpos.
  pose proof (adjustTimeout_bounds X (clock X (ticks s)) (tick s) Hpos) as Hadj.
  unfold openFifoWithTimeout, getMonotonicUsec, bind at 1.
  unfold scopeExit, scopeGuard, try_catch.
  destruct outcome as [fd errcode| | |w code]; [case_bool_decide| | |];
    unfold bind, throw, ret;
    destruct (adjustTimeout X (clock X (ticks s)) (tick s)); exact Hadj.
Qed.

Lemma openFifoWithTimeout_never_extends_timeout_witness :
  0 <= s_timeoutUsec
         (session (finalState (openFifoWithTimeout X0 "/tmp/w1/response/stdin"
                                 FifoTimedOut s0)))
    <= 90000000.
Proof.
  apply (openFifoWithTimeout_never_extends_timeout X0 "/tmp/w1/response/stdin"
           FifoTimedOut s0).
  cbn. lia.
Defined.

(** X11.  validateForkCommandResponse accepts exactly the JSON objects
    whose member result is the string ok with a member pid that is a
    32-bit integer, or whose member result is the string error with a
    string member message. *)
Theorem validateForkCommandResponse_shape (doc : Json) :
  validateForkCommandResponse doc = true
  <-> exists members,
        doc = JObject members
        /\ ((assoc "result" members = Some (JString "ok")
             /\ exists pid, assoc "pid" members = Some (JInt pid)
                            /\ - 2 ^ 31 <= pid < 2 ^ 31)
            \/ (assoc "result" members = Some (JString "error")
                /\ exists message,
                     assoc "message" members = Some (JString message))).
Proof.
  unfold validateForkCommandResponse. split.
  - destruct doc as [| ? | ? | ? | ? |members]; try discriminate. cbn.
    intros H. exists members. split; [done|].
    destruct (assoc "result" members) as [[| ? | ? |r| ? | ?]|];
      cbn in H; try discriminate H.
    destruct (String.eqb_spec r "ok") as [Heq|Hok].
    + subst r. left. split; [done|].
      destruct (assoc "pid" members) as [[| ? |pid| ? | ? | ?]|];
        cbn in H; try discriminate H. exists pid. split; [done|].
      by destruct (decide (- 2 ^ 31 <= pid < 2 ^ 31));
        [|rewrite bool_decide_false in H by done].
    + destruct (String.eqb_spec r "error") as [Heq|]; [|discriminate].
      subst r. right. split; [done|].
      destruct (assoc "message" members) as [[| ? | ? |msg| ? | ?]|];
        cbn in H; try discriminate H.
      by exists msg.
  - intros (members & -> & [[Hres (pid & Hpid & Hrange)] | [Hres (msg & Hmsg)]]);
      cbn; rewrite Hres; cbn.
    + rewrite Hpid. cbn. by rewrite bool_decide_true.
    + by rewrite Hmsg.
Qed.

(** X12.  parseForkCommandResponse returns the parsed document unchanged
    when it has the expected structure; an unparseable response and a
    document of another structure each raise a finalized SpawnException of
    category INTERNAL_ERROR whose summary quotes the response, on a
    journey whose parse step is errored, without any effect on other
    processes. *)
Theorem parseForkCommandResponse_spec X data s :
  stepState (journeyOf s) SPAWNING_KIT_PARSE_RESPONSE_FROM_PRELOADER
    = Some STEP_IN_PROGRESS ->
  match reader_parse X data with
  | Some doc =>
      if validateForkCommandResponse doc
      then parseForkCommandResponse X data s = Returns doc s
      else exists e s',
        parseForkCommandResponse X data s
        = Throws (Exc (SpawnException (finalize X e))) s'
        /\ category e = INTERNAL_ERROR
        /\ summary e
           = "The preloader process sent a response that does not"
             ++ " match the expected structure: " ++ stringifyJson X doc
        /\ stepState (journey e) SPAWNING_KIT_PARSE_RESPONSE_FROM_PRELOADER
           = Some STEP_ERRORED
        /\ trace s' = trace s
  | None =>
      exists e s',
        parseForkCommandResponse X data s
        = Throws (Exc (SpawnException (finalize X e))) s'
        /\ category e = INTERNAL_ERROR
        /\ summary e
           = "The preloader process sent an unparseable response: " ++ data
        /\ problemDescriptionHTML e
           = preloaderIntroHTML X
             ++ " this helper process sent a response that looks like"
             ++ " gibberish.</p>"
             ++ "<p>The response is as follows:</p>"
             ++ "<pre>" ++ escapeHTML X data ++ "</pre>"
        /\ stepState (journey e) SPAWNING_KIT_PARSE_RESPONSE_FROM_PRELOADER
           = Some STEP_ERRORED
        /\ trace s' = trace s
  end.
Proof.
  intros Hst. unfold parseForkCommandResponse.
  destruct (journeyCall_setStepErrored X
              SPAWNING_KIT_PARSE_RESPONSE_FROM_PRELOADER s Hst)
    as (j' & Herr & Hst' & _).
  pose proof (fun c => addPreloaderAnnotations_fields
                (tick (withJourney j' s))
                (newSpawnException c j' (s_config (session s)))) as Hann.
  destruct (reader_parse X data) as [doc|].
  - destruct (validateForkCommandResponse doc); [reflexivity|]. cbn [negb].
    rewrite (bind_Returns _ _ _ _ _ Herr).
    unfold bind, get, throwSpawnException, throw. cbv beta iota.
    eexists _, _. split; [reflexivity|]. cbn.
    destruct (Hann INTERNAL_ERROR) as (Hcat & Hj & _). cbn in Hj.
    repeat split; [exact Hcat|]. by rewrite Hj.
  - rewrite (bind_Returns _ _ _ _ _ Herr).
    unfold bind, get, throwSpawnException, throw. cbv beta iota.
    eexists _, _. split; [reflexivity|]. cbn.
    destruct (Hann INTERNAL_ERROR) as (Hcat & Hj & _). cbn in Hj.
    repeat split; [exact Hcat|]. by rewrite Hj.
Qed.

Lemma parseForkCommandResponse_spec_witness :
  exists e s',
    parseForkCommandResponse X0 "garbage" sParsing
    = Throws (Exc (SpawnException e)) s'
    /\ summary e = "The preloader process sent an unparseable response: garbage".
Proof.
  destruct (parseForkCommandResponse_spec X0 "garbage" sParsing eq_refl)
    as (e & s' & Hrun & _ & Hsum & _).
  exists e, s'. split; [exact Hrun|exact Hsum].
Defined.

(** X13.  A response with result error and a string message passes
    validation and makes handleForkCommandResponse raise a finalized
    SpawnException of category INTERNAL_ERROR whose summary is 'An error
    occured while starting the web application: ' followed by the message,
    on a journey whose process-response step is errored, with no output
    data attached and without any effect on other processes. *)
Theorem error_response_is_reported X io doc s message members :
  stepState (journeyOf s) SPAWNING_KIT_PROCESS_RESPONSE_FROM_PRELOADER
    = Some STEP_IN_PROGRESS ->
  doc = JObject members ->
  assoc "result" members = Some (JString "error") ->
  assoc "message" members = Some (JString message) ->
  validateForkCommandResponse doc = true
  /\ exists e s',
       handleForkCommandResponse X io doc s
       = Throws (Exc (SpawnException (finalize X e))) s'
       /\ category e = INTERNAL_ERROR
       /\ summary e
          = "An error occured while starting the web application: " ++ message
       /\ stepState (journey e) SPAWNING_KIT_PROCESS_RESPONSE_FROM_PRELOADER
          = Some STEP_ERRORED
       /\ stdoutAndErrData e = None
       /\ trace s' = trace s.
Proof.
  intros Hst -> Hres Hmsg. split.
  { unfold validateForkCommandResponse. cbn. rewrite Hres. cbn.
    by rewrite Hmsg. }
  unfold handleForkCommandResponse, handleForkCommandResponseError.
  cbn [member]. rewrite Hres, Hmsg. cbn [default from_option id asString].
  rewrite (proj2 (String.eqb_neq "error" "ok")) by done.
  rewrite String.eqb_refl.
  unfold processResponseErrored.
  destruct (journeyCall_setStepErrored X
              SPAWNING_KIT_PROCESS_RESPONSE_FROM_PRELOADER s Hst)
    as (j' & Herr & Hst' & _).
  rewrite (bind_Returns _ _ _ _ _ Herr).
  unfold bind, get, throwSpawnException, throw. cbv beta iota.
  eexists _, _. split; [reflexivity|]. cbn.
  destruct (addPreloaderAnnotations_fields (tick (withJourney j' s))
              (newSpawnException INTERNAL_ERROR j' (s_config (session s))))
    as (Hcat & Hj & _ & _ & _ & Hdata).
  cbn in Hj, Hdata.
  repeat split; [exact Hcat|by rewrite Hj|exact Hdata].
Qed.

Lemma error_response_is_reported_witness :
  exists e s',
    handleForkCommandResponse X0 ioHappy errorResponse sProcessing
    = Throws (Exc (SpawnException e)) s'
    /\ summary e
       = "An error occured while starting the web application: fork failed".
Proof.
  destruct (error_response_is_reported X0 ioHappy errorResponse sProcessing
              "fork failed" _ eq_refl eq_refl eq_refl eq_refl)
    as (_ & e & s' & Hrun & _ & Hsum & _).
  exists e, s'. split; [exact Hrun|exact Hsum].
Defined.

(** X14.  When getProcessUid returns, the uid is the one that ps reported,
    it is not (uid_t) -1, and neither the journey nor anything else in the
    spawner's state has changed. *)
Theorem getProcessUid_result X io pid capturer s uid s' :
  getProcessUid X io pid capturer s = Returns uid s' ->
  io_ps io = inr uid /\ uid <> uid_minus_one /\ s' = s.
Proof.
  unfold getProcessUid. intros H.
  apply bind_Returns_inv in H as (uid0 & s1 & Hps & H).
  destruct (io_ps io) as [e|u].
  - destruct e; try discriminate Hps;
      apply bind_Returns_inv in Hps as (? & ? & _ & Hps);
      apply bind_Returns_inv in Hps as (? & ? & _ & Hps); discriminate Hps.
  - injection Hps as <- <-.
    case_bool_decide as Huid.
    + destruct (io_processExists io);
        apply bind_Returns_inv in H as (? & ? & _ & H);
        apply bind_Returns_inv in H as (? & ? & _ & H);
        try discriminate H.
      apply bind_Returns_inv in H as (? & ? & _ & H). discriminate H.
    + by injection H as <- <-.
Qed.

Lemma getProcessUid_result_witness :
  io_ps ioHappy = inr 501 /\ 501 <> uid_minus_one.
Proof.
  destruct (getProcessUid_result X0 ioHappy 777 None sProcessing 501
              sProcessing eq_refl) as (Hps & Hne & _).
  split; [exact Hps|exact Hne].
Defined.

(** X15.  When ps has no information about the spawned process,
    getProcessUid raises a finalized SpawnException of category
    INTERNAL_ERROR on a journey whose process-response step is errored: if
    the process still exists the summary says that ps did not report it
    and no output is attached; if it is gone the summary says that it
    exited prematurely and the captured output is attached. *)
Theorem vanished_process_is_reported X io pid capturer s :
  stepState (journeyOf s) SPAWNING_KIT_PROCESS_RESPONSE_FROM_PRELOADER
    = Some STEP_IN_PROGRESS ->
  io_ps io = inr uid_minus_one ->
  exists e s',
    getProcessUid X io pid capturer s
    = Throws (Exc (SpawnException (finalize X e))) s'
    /\ category e = INTERNAL_ERROR
    /\ stepState (journey e) SPAWNING_KIT_PROCESS_RESPONSE_FROM_PRELOADER
       = Some STEP_ERRORED
    /\ if io_processExists io
       then summary e
            = "Unable to query the UID of spawned application process "
              ++ toString pid ++ ": 'ps' did not report information"
              ++ " about this process"
            /\ stdoutAndErrData e = None
       else summary e
            = "The application process spawned from the preloader"
              ++ " seems to have exited prematurely"
            /\ stdoutAndErrData e
               = Some (match capturer with
                       | Some _ => io_capturedData io
                       | None => EmptyString
                       end).
Proof.
  intros Hst Hps. unfold getProcessUid. rewrite Hps.
  unfold bind at 1. unfold ret at 1. cbv beta iota.
  rewrite bool_decide_true by done.
  unfold processResponseErrored.
  destruct (journeyCall_setStepErrored X
              SPAWNING_KIT_PROCESS_RESPONSE_FROM_PRELOADER s Hst)
    as (j' & Herr & Hst' & _).
  destruct (addPreloaderAnnotations_fields (tick (withJourney j' s))
              (newSpawnException INTERNAL_ERROR j' (s_config (session s))))
    as (Hcat & Hj & _ & _ & _ & Hdata).
  cbn in Hj, Hdata.
  destruct (io_processExists io).
  - rewrite (bind_Returns _ _ _ _ _ Herr).
    unfold bind, get, throwSpawnException, throw. cbv beta iota.
    eexists _, _. split; [reflexivity|]. cbn.
    repeat split; [exact Hcat|by rewrite Hj|exact Hdata].
  - rewrite (bind_Returns _ _ _ _ _ Herr).
    unfold bind at 1. unfold get at 1. cbv beta iota.
    destruct capturer as [c|]; unfold getBackgroundIOCapturerData;
      unfold bind, emit, modify, ret, throwSpawnException, throw;
      cbv beta iota; eexists _, _; (split; [reflexivity|]); cbn;
      (repeat split; [exact Hcat|by rewrite Hj]).
Qed.

Lemma vanished_process_is_reported_witness :
  exists e s',
    getProcessUid X0 ioVanished 777 (Some 777) sProcessing
    = Throws (Exc (SpawnException e)) s'
    /\ summary e
       = "The application process spawned from the preloader seems to have exited prematurely"
    /\ stdoutAndErrData e = Some "App 777 output: out of memory".
Proof.
  destruct (vanished_process_is_reported X0 ioVanished 777 (Some 777)
              sProcessing eq_refl eq_refl)
    as (e & s' & Hrun & _ & _ & Hsum & Hdata).
  exists e, s'. split; [exact Hrun|]. split; [exact Hsum|exact Hdata].
Defined.

(** *** Where a crash can come from *)

Lemma noCrash_ret {A} (a : A) : noCrash (ret a).
Proof. by intros s e s'. Qed.
Lemma noCrash_throw {A} (e : Exn) : noCrash (throw (A := A) (Exc e)).
Proof. by intros s e' s'. Qed.
Lemma noCrash_abort {A} f : noCrash (abort (A := A) f).
Proof. by intros s e' s'. Qed.
Lemma noCrash_get : noCrash get.
Proof. by intros s e s'. Qed.
Lemma noCrash_modify f : noCrash (modify f).
Proof. by intros s e s'. Qed.
Lemma noCrash_journeyCall X f : noCrash (journeyCall X f).
Proof.
  intros s e s'. unfold journeyCall.
  by destruct (f (clock X (ticks s)) (s_journey (session s))).
Qed.
Lemma noCrash_bind {A B} (m : M A) (k : A -> M B) :
  noCrash m -> (forall a, noCrash (k a)) -> noCrash (bind m k).
Proof.
  intros Hm Hk s e s'. unfold bind.
  destruct (m s) as [a s1|t s1|f s1] eqn:Hms; [apply Hk| |done].
  intros [= -> ->]. by apply (Hm s e s').
Qed.
Lemma noCrash_try_catch {A} (body : M A) h :
  noCrash body -> (forall e, noCrash (h (Exc e))) -> noCrash (try_catch body h).
Proof.
  intros Hb Hh s e s'. unfold try_catch.
  destruct (body s) as [a s1|t s1|f s1] eqn:Hbs; [done| |done].
  destruct t as [e0|e0]; [apply Hh|]. by destruct (Hb s e0 s1).
Qed.

Lemma noCrash_getMonotonicUsec X : noCrash (getMonotonicUsec X).
Proof. by intros s e s'. Qed.

Create HintDb nocrash.
#[local] Hint Resolve noCrash_ret noCrash_throw noCrash_abort noCrash_get
  noCrash_modify noCrash_journeyCall noCrash_getMonotonicUsec : nocrash.

Ltac nocrash :=
  repeat first
    [ progress intros
    | solve [eauto with nocrash]
    | apply noCrash_bind
    | apply noCrash_try_catch
    | match goal with
      | |- noCrash (match ?x with _ => _ end) => destruct x
      | |- noCrash (if ?x then _ else _) => destruct x
      | |- noCrash (let _ := _ in _) => cbv zeta
      end ].

Lemma noCrash_adjustTimeout X t : noCrash (adjustTimeout X t).
Proof.
  unfold adjustTimeout. nocrash.
Qed.

Lemma noCrash_openFifoWithTimeout X path outcome :
  noCrash (openFifoWithTimeout X path outcome).
Proof.
  pose proof (noCrash_adjustTimeout X).
  unfold openFifoWithTimeout, scopeExit, scopeGuard. nocrash.
Qed.

Lemma noCrash_throwSpawnException {A} X e :
  noCrash (throwSpawnException (A := A) X e).
Proof. by intros s e' s'. Qed.

Lemma noCrash_getProcessUid X io pid capturer :
  noCrash (getProcessUid X io pid capturer).
Proof.
  pose proof (@noCrash_throwSpawnException uid_t X).
  pose proof (@noCrash_throwSpawnException string X).
  unfold getProcessUid, processResponseErrored, getBackgroundIOCapturerData, emit.
  nocrash.
Qed.

Lemma noCrash_handleForkCommandResponse X io doc :
  noCrash (handleForkCommandResponse X io doc).
Proof.
  pose proof (@noCrash_throwSpawnException ForkResult X).
  pose proof (noCrash_getProcessUid X io).
  pose proof (noCrash_openFifoWithTimeout X).
  unfold handleForkCommandResponse, handleForkCommandResponseSuccess,
    handleForkCommandResponseError, scopeGuard, nonInterruptableKillAndWaitpid,
    processResponseErrored, getBackgroundIOCapturerData, emit.
  nocrash.
Qed.

Lemma noCrash_parseForkCommandResponse X data :
  noCrash (parseForkCommandResponse X data).
Proof.
  pose proof (@noCrash_throwSpawnException Json X).
  unfold parseForkCommandResponse. nocrash.
Qed.

Lemma bind_Throws_inv {A B} (m : M A) (k : A -> M B) s t s2 :
  bind m k s = Throws t s2 ->
  m s = Throws t s2
  \/ exists a s1, m s = Returns a s1 /\ k a s1 = Throws t s2.
Proof.
  unfold bind. destruct (m s) as [a s1| |]; intros H; cbn in H;
    [|injection H as -> ->; by left|done].
  right. eauto.
Qed.

Lemma wrapPreloaderCrashed_inv {A} (m : M A) s e s' :
  noCrash m ->
  wrapPreloaderCrashed m s = Throws (PreloaderCrashed e) s' ->
  isCrash e /\ m s = Throws (Exc e) s'.
Proof.
  intros Hm. unfold wrapPreloaderCrashed, try_catch.
  destruct (m s) as [a s1|t s1|f s1] eqn:Hms; [done| |done].
  destruct t as [e0|e0]; [|by destruct (Hm s e0 s1)].
  destruct e0; unfold throw; intros [= <- <-]; done.
Qed.

Lemma journeyCall_setStepErrored_Throws X step s t s' :
  journeyCall X (fun now => setStepErrored now step false) s = Throws t s' ->
  exists msg, t = Exc (RuntimeException msg).
Proof.
  unfold journeyCall, setStepErrored, getStepInfoMutable, getStepInfo, invalidStep.
  destruct (map_find step (steps (s_journey (session s)))) as [info|]; cbn;
    repeat case_match; intros Hrun; simplify_eq; cbn; by eexists.
Qed.

Lemma readForkCommandResponse_crash X io fd s e s' :
  readForkCommandResponse X io fd s = Throws (Exc e) s' ->
  isCrash e -> io_read io = inl e.
Proof.
  unfold readForkCommandResponse. intros H He.
  destruct (match io_read io with
            | inl e0 => inl e0
            | inr incoming => readLine 10240 incoming
            end) as [e0|line] eqn:Hr; [|discriminate H].
  assert (Hsec : forall w, e0 = SecurityException w -> False).
  { intros w ->. apply bind_Throws_inv in H as [H | (? & ? & _ & H)].
    - apply journeyCall_setStepErrored_Throws in H as [msg [= ->]]. done.
    - unfold bind, get, throwSpawnException, throw in H.
      injection H as <- _. done. }
  destruct (io_read io) as [e1|incoming].
  - injection Hr as ->.
    destruct e0 as [?|? ?|?|w|?|?|?| |?]; try (by injection H as -> _).
    by destruct (Hsec w).
  - unfold readLine in Hr. destruct (_ <=? _)%Z; [discriminate Hr|].
    injection Hr as <-. by destruct (Hsec "Line too long").
Qed.

Lemma internalInvokeForkCommand_crash_origin X io s e s' :
  internalInvokeForkCommand X io s = Throws (PreloaderCrashed e) s' ->
  isCrash e
  /\ (io_connect io = inl e \/ io_write io = Some e \/ io_read io = inl e).
Proof.
  unfold internalInvokeForkCommand. intros H.
  pose proof (noCrash_journeyCall X) as Hjc.
  assert (Hconn : noCrash (connectToPreloader io)).
  { unfold connectToPreloader, emit. nocrash. }
  assert (Hsend : forall fd, noCrash (sendForkCommand io fd)).
  { intros fd. unfold sendForkCommand, emit. nocrash. }
  assert (Hread : forall fd, noCrash (readForkCommandResponse X io fd)).
  { intros fd. pose proof (@noCrash_throwSpawnException string X).
    unfold readForkCommandResponse. nocrash. }
  apply bind_Throws_inv in H as [H | (? & s1 & _ & H)]; [by apply Hjc in H|].
  apply bind_Throws_inv in H as [H | (fd & s2 & _ & H)].
  { apply wrapPreloaderCrashed_inv in H as [He H]; [|done]. split; [done|].
    left. unfold connectToPreloader, bind, get, emit, modify in H.
    destruct (io_connect io); [|done]. by injection H as ->. }
  apply bind_Throws_inv in H as [H | (? & s3 & _ & H)]; [by apply Hjc in H|].
  apply bind_Throws_inv in H as [H | (? & s4 & _ & H)]; [by apply Hjc in H|].
  apply bind_Throws_inv in H as [H | (? & s5 & _ & H)].
  { apply wrapPreloaderCrashed_inv in H as [He H]; [|done]. split; [done|].
    right; left. unfold sendForkCommand, bind, get, emit, modify in H.
    destruct (io_write io); [|done]. by injection H as ->. }
  apply bind_Throws_inv in H as [H | (? & s6 & _ & H)]; [by apply Hjc in H|].
  apply bind_Throws_inv in H as [H | (? & s7 & _ & H)]; [by apply Hjc in H|].
  apply bind_Throws_inv in H as [H | (line & s8 & _ & H)].
  { apply wrapPreloaderCrashed_inv in H as [He H]; [|done]. split; [done|].
    right; right. by eapply readForkCommandResponse_crash. }
  exfalso.
  pose proof (noCrash_parseForkCommandResponse X) as Hparse.
  pose proof (noCrash_handleForkCommandResponse X io) as Hhandle.
  revert H. generalize s8 e s'.
  change (noCrash
    (bind (journeyCall X (fun now =>
             setStepPerformed now SPAWNING_KIT_READ_RESPONSE_FROM_PRELOADER false))
       (fun _ => bind (journeyCall X (fun now =>
             setStepInProgress now SPAWNING_KIT_PARSE_RESPONSE_FROM_PRELOADER false))
       (fun _ => bind (erroredOnAnyException X
                         SPAWNING_KIT_PARSE_RESPONSE_FROM_PRELOADER
                         (parseForkCommandResponse X line))
       (fun doc => bind (journeyCall X (fun now =>
             setStepPerformed now SPAWNING_KIT_PARSE_RESPONSE_FROM_PRELOADER false))
       (fun _ => bind (journeyCall X (fun now =>
             setStepInProgress now SPAWNING_KIT_PROCESS_RESPONSE_FROM_PRELOADER false))
       (fun _ => erroredOnAnyException X
                   SPAWNING_KIT_PROCESS_RESPONSE_FROM_PRELOADER
                   (handleForkCommandResponse X io doc)))))))).
  unfold erroredOnAnyException. nocrash.
Qed.

(** X16.  If neither connecting to the preloader, nor writing the command,
    nor reading the response fails with a SystemException or IOException,
    the first attempt never ends in PreloaderCrashed, and
    invokeForkCommand behaves exactly as that single attempt: the
    preloader is neither stopped nor restarted and nothing is retried. *)
Theorem no_retry_without_preloader_io_failure X io1 stop1 restart io2 stop2 s :
  (forall e, isCrash e ->
     io_connect io1 <> inl e /\ io_write io1 <> Some e /\ io_read io1 <> inl e) ->
  (forall e s', internalInvokeForkCommand X io1 s <> Throws (PreloaderCrashed e) s')
  /\ invokeForkCommand X io1 stop1 restart io2 stop2 s
     = internalInvokeForkCommand X io1 s.
Proof.
  intros Hio.
  assert (Hnever : forall e s',
            internalInvokeForkCommand X io1 s <> Throws (PreloaderCrashed e) s').
  { intros e s' Hrun.
    apply internalInvokeForkCommand_crash_origin in Hrun as [He Hfrom].
    destruct (Hio e He) as (H1 & H2 & H3). by destruct Hfrom as [?|[?|?]]. }
  split; [exact Hnever|].
  unfold invokeForkCommand, try_catch.
  destruct (internalInvokeForkCommand X io1 s) as [r s1|t s1|f s1] eqn:Hrun;
    [done| |done].
  destruct t as [e|e]; [done|]. by destruct (Hnever e s1).
Qed.

Lemma no_retry_without_preloader_io_failure_witness :
  invokeForkCommand X0 ioHappy stopQuietly
    (StartOk 4243 "unix:/tmp/psg2.sock" ∅) ioCrashInConnect stopQuietly s0
  = internalInvokeForkCommand X0 ioHappy s0.
Proof.
  apply (no_retry_without_preloader_io_failure X0 ioHappy stopQuietly
           (StartOk 4243 "unix:/tmp/psg2.sock" ∅) ioCrashInConnect
           stopQuietly s0).
  intros e _. repeat split; discriminate.
Defined.

Ltac chase :=
  cbn;
  repeat match goal with
         | H : forall step', step' <> _ -> stepState ?j step' = _
           |- stepState ?j _ = _ => rewrite H by done; cbn
         end;
  try eassumption.

(** X17.  When the preloader answers with result ok and a pid, the child's
    output FIFO opens and ps reports the expected uid,
    internalInvokeForkCommand returns that pid with no stdin descriptor
    and the output descriptor; the connect, send, read and parse steps are
    performed and the process-response step is still in progress; the only
    effects are the connect, the spawn command with the work directory,
    and the start and stop of the output capturer. *)
Theorem fork_command_happy_path X io s fd incoming doc members spawnedPid
    fdOut errcode :
  (forall n, clock X n <= clock X (S n)) ->
  (forall step, step ∈ [ SPAWNING_KIT_CONNECT_TO_PRELOADER;
                         SPAWNING_KIT_SEND_COMMAND_TO_PRELOADER;
                         SPAWNING_KIT_READ_RESPONSE_FROM_PRELOADER;
                         SPAWNING_KIT_PARSE_RESPONSE_FROM_PRELOADER;
                         SPAWNING_KIT_PROCESS_RESPONSE_FROM_PRELOADER ] ->
                stepState (journeyOf s) step = Some STEP_NOT_STARTED) ->
  io_connect io = inr fd -> io_write io = None ->
  io_read io = inr incoming ->
  Z.of_nat (String.length (firstLine incoming)) <= 10240 ->
  reader_parse X (firstLine incoming) = Some doc ->
  doc = JObject members ->
  assoc "result" members = Some (JString "ok") ->
  assoc "pid" members = Some (JInt spawnedPid) ->
  - 2 ^ 31 <= spawnedPid < 2 ^ 31 ->
  io_stdinExists io = false ->
  io_stdoutAndErrExists io = true ->
  io_stdoutAndErrOpen io = FifoJoined fdOut errcode -> fdOut <> -1 ->
  io_ps io = inr (s_uid (session s)) -> s_uid (session s) <> uid_minus_one ->
  exists s',
    internalInvokeForkCommand X io s
    = Returns (mkForkResult spawnedPid (-1) fdOut) s'
    /\ (forall step, step ∈ [ SPAWNING_KIT_CONNECT_TO_PRELOADER;
                              SPAWNING_KIT_SEND_COMMAND_TO_PRELOADER;
                              SPAWNING_KIT_READ_RESPONSE_FROM_PRELOADER;
                              SPAWNING_KIT_PARSE_RESPONSE_FROM_PRELOADER ] ->
        stepState (journeyOf s') step = Some STEP_PERFORMED)
    /\ stepState (journeyOf s') SPAWNING_KIT_PROCESS_RESPONSE_FROM_PRELOADER
       = Some STEP_IN_PROGRESS
    /\ trace s'
       = (trace s ++
          [ EvConnect (socketAddress s);
            EvWrite (JObject [("command", JString "spawn");
                              ("work_dir", JString (s_workDirPath (session s)))]);
            EvCapturerStart spawnedPid; EvCapturerStop spawnedPid ])%list
    /\ pid s' = pid s.
Proof.
  intros Hclock Hfresh Hconn Hwrite Hread Hlen Hparse -> Hres Hpid Hrange
    Hin Hout Hopen Hfd Hps Huid.
  assert (Hc := Hfresh SPAWNING_KIT_CONNECT_TO_PRELOADER
                  ltac:(repeat constructor)).
  assert (Hsd := Hfresh SPAWNING_KIT_SEND_COMMAND_TO_PRELOADER
                  ltac:(repeat constructor)).
  assert (Hrd := Hfresh SPAWNING_KIT_READ_RESPONSE_FROM_PRELOADER
                  ltac:(repeat constructor)).
  assert (Hpa := Hfresh SPAWNING_KIT_PARSE_RESPONSE_FROM_PRELOADER
                  ltac:(repeat constructor)).
  assert (Hpr := Hfresh SPAWNING_KIT_PROCESS_RESPONSE_FROM_PRELOADER
                  ltac:(repeat constructor)).
  clear Hfresh.
  assert (Hvalid : validateForkCommandResponse (JObject members) = true).
  { unfold validateForkCommandResponse. cbn. rewrite Hres. cbn.
    rewrite Hpid. cbn. by rewrite bool_decide_true. }
  unfold internalInvokeForkCommand.
  journey_step journeyCall_setStepInProgress Hc.
  erewrite bind_Returns; cycle 1.
  { apply wrapPreloaderCrashed_Returns. unfold connectToPreloader.
    unfold bind, get, emit, modify. rewrite Hconn. reflexivity. }
  cbv beta.
  journey_step journeyCall_setStepPerformed Hs.
  assert (Hsd1 : stepState j0 SPAWNING_KIT_SEND_COMMAND_TO_PRELOADER
                 = Some STEP_NOT_STARTED) by chase.
  journey_step journeyCall_setStepInProgress Hsd1.
  erewrite bind_Returns; cycle 1.
  { apply wrapPreloaderCrashed_Returns. unfold sendForkCommand.
    unfold bind, get, emit, modify. rewrite Hwrite. reflexivity. }
  cbv beta.
  journey_step journeyCall_setStepPerformed Hs1.
  assert (Hrd1 : stepState j2 SPAWNING_KIT_READ_RESPONSE_FROM_PRELOADER
                 = Some STEP_NOT_STARTED) by chase.
  journey_step journeyCall_setStepInProgress Hrd1.
  erewrite bind_Returns; cycle 1.
  { apply wrapPreloaderCrashed_Returns.
    by apply readForkCommandResponse_accepts. }
  cbv beta.
  journey_step journeyCall_setStepPerformed Hs3.
  assert (Hpa1 : stepState j4 SPAWNING_KIT_PARSE_RESPONSE_FROM_PRELOADER
                 = Some STEP_NOT_STARTED) by chase.
  journey_step journeyCall_setStepInProgress Hpa1.
  erewrite bind_Returns; cycle 1.
  { unfold erroredOnAnyException. apply try_catch_Returns.
    unfold parseForkCommandResponse. rewrite Hparse, Hvalid. reflexivity. }
  cbv beta.
  journey_step journeyCall_setStepPerformed Hs5.
  assert (Hpr1 : stepState j6 SPAWNING_KIT_PROCESS_RESPONSE_FROM_PRELOADER
                 = Some STEP_NOT_STARTED) by chase.
  match goal with
  | |- context [bind (journeyCall X ?f) ?k ?st] =>
      destruct (journeyCall_setStepInProgress X _ st Hpr1) as (j7 & E7 & Hs7 & Ho7);
      rewrite (bind_Returns _ k st _ _ E7); cbv beta
  end.
  match goal with
  | |- context [erroredOnAnyException _ _ _ ?st] => set (sK := st)
  end.
  destruct (openFifoWithTimeout_Returns X
              (s_responseDir (session sK) ++ "/stdout_and_err") fdOut errcode sK
              Hfd (Hclock _)) as (t & Hfifo).
  eexists. split.
  { unfold erroredOnAnyException. apply try_catch_Returns.
    unfold handleForkCommandResponse. cbn [member]. rewrite Hres.
    cbn [default from_option id asString]. rewrite String.eqb_refl.
    unfold handleForkCommandResponseSuccess, scopeGuard.
    apply try_catch_Returns. cbn [member]. rewrite Hpid.
    cbn [default from_option id asInt]. rewrite Hin, Hout, Hopen.
    unfold bind at 1. unfold get at 1. cbv beta iota.
    unfold bind at 1. unfold ret at 1. cbv beta iota.
    unfold bind at 1. unfold bind at 1. rewrite Hfifo. cbv beta iota.
    unfold bind at 1. unfold emit, modify at 1. cbv beta iota.
    unfold ret at 1. cbv beta iota. cbn [fst snd].
    unfold getProcessUid. rewrite Hps.
    unfold bind at 1. unfold bind at 1. unfold ret at 1. cbv beta iota.
    rewrite bool_decide_false by done. unfold ret at 1. cbv beta iota.
    unfold bind at 1. unfold get at 1. cbv beta iota.
    rewrite bool_decide_true by reflexivity. cbn [negb].
    unfold bind, emit, modify, ret. cbv beta iota. reflexivity. }
  cbn. repeat split.
  - intros step Hin'.
    repeat (apply elem_of_cons in Hin' as [->|Hin']; [by chase|]).
    by apply elem_of_nil in Hin'.
  - exact Hs7.
  - by rewrite <- !app_assoc.
Qed.

Lemma fork_command_happy_path_witness :
  exists s',
    internalInvokeForkCommand XReader ioSuccess s0
    = Returns (mkForkResult 777 (-1) 9) s'
    /\ pid s' = 4242.
Proof.
  destruct (fork_command_happy_path XReader ioSuccess s0 7
              (responseOfSize 30) (okResponse 777)
              [("result", JString "ok"); ("pid", JInt 777)] 777 9 0)
    as (s' & Hrun & _ & _ & _ & Hpid);
    try reflexivity; try discriminate.
  - intros n.
    change (1000000 + 10000 * Z.of_nat n <= 1000000 + 10000 * Z.of_nat (S n)).
    lia.
  - intros step Hin.
    repeat (apply elem_of_cons in Hin as [->|Hin]; [reflexivity|]).
    by apply elem_of_nil in Hin.
  - lia.
  - exists s'. split; [exact Hrun|exact Hpid].
Defined.

(** X19.  After stopPreloader has returned, no preloader is recorded as
    started, and a further call returns at once without any effect; a call
    made when no preloader is started changes nothing. *)
Theorem stopPreloader_idempotent X io io' s s' :
  stopPreloader X io s = Returns tt s' ->
  preloaderStarted s' = false
  /\ stopPreloader X io' s' = Returns tt s'
  /\ (preloaderStarted s = false -> s' = s).
Proof.
  intros Hrun.
  assert (Hstopped : preloaderStarted s' = false).
  { destruct (preloaderStarted s) eqn:Hs.
    - destruct (stop_error io) as [e|] eqn:Herr.
      + revert Hrun. unfold stopPreloader, bind, get. rewrite Hs, Herr. cbn.
        discriminate.
      + destruct (stopPreloader_Returns X io s Hs Herr)
          as (s1 & Hrun1 & _ & Hpid & _).
        rewrite Hrun1 in Hrun. injection Hrun as <-.
        unfold preloaderStarted. by rewrite Hpid.
    - revert Hrun. unfold stopPreloader, bind, get. rewrite Hs. cbn.
      by intros [= <-]. }
  split; [exact Hstopped|]. split.
  - unfold stopPreloader, bind, get. by rewrite Hstopped.
  - intros Hs. revert Hrun. unfold stopPreloader, bind, get. rewrite Hs. cbn.
    by intros [= <-].
Qed.

Lemma stopPreloader_idempotent_witness :
  preloaderStarted (finalState (stopPreloader X0 stopQuietly s0)) = false
  /\ stopPreloader X0 stopQuietly (finalState (stopPreloader X0 stopQuietly s0))
     = Returns tt (finalState (stopPreloader X0 stopQuietly s0)).
Proof.
  destruct (stopPreloader_idempotent X0 stopQuietly stopQuietly s0
              (finalState (stopPreloader X0 stopQuietly s0)) eq_refl)
    as (Hstopped & Hagain & _).
  split; [exact Hstopped|exact Hagain].
Defined.

(** X20.  When the pool options cannot be turned into a config while a
    preloader is running, spawn raises a finalized SpawnException that
    carries the preloader's annotations and a journey of its own: of type
    SPAWN_THROUGH_PRELOADER with the wrapper flag set, whose first failed
    step is the preparation and whose other steps are as constructed.
    Apart from the time of last use and one clock reading the spawner's
    state is unchanged. *)
Theorem spawn_config_failure X io s originalException :
  sp_internalError io = None ->
  preloaderStarted s = true ->
  sp_config io = inl originalException ->
  originalException <> thread_interrupted ->
  exists e,
    spawn X io s
    = Throws (Exc (SpawnException
                     (finalize X (addPreloaderAnnotations s e))))
        (tick (setLastUsed (sp_wallClock io) s))
    /\ getType (journey e) = SPAWN_THROUGH_PRELOADER
    /\ usingWrapper (journey e) = true
    /\ getFirstFailedStep (journey e) = SPAWNING_KIT_PREPARATION
    /\ (forall step, step <> SPAWNING_KIT_PREPARATION ->
        getStepInfo (journey e) step
        = getStepInfo (newJourney SPAWN_THROUGH_PRELOADER true) step).
Proof.
  intros Hint Hstarted Hcfg Hstd.
  assert (Hstd' : is_std_exception originalException = true)
    by by destruct originalException.
  eexists. split.
  { unfold spawn. rewrite Hint. unfold setConfigFromAppPoolOptions.
    rewrite Hcfg, Hstd'.
    unfold bind at 1. unfold ret at 1. cbv beta iota.
    unfold bind at 1. unfold modify at 1. cbv beta iota.
    unfold bind at 1. unfold get at 1. cbv beta iota.
    replace (preloaderStarted (setLastUsed (sp_wallClock io) s)) with true
      by (symmetry; exact Hstarted).
    cbn [negb]. unfold bind at 1. unfold ret at 1. cbv beta iota.
    unfold bind at 1. unfold getMonotonicUsec at 1. cbv beta iota.
    cbn -[addPreloaderAnnotations wrapSpawnException].
    unfold bind, get, throwSpawnException, throw. reflexivity. }
  cbn. repeat split. intros step Hne. by destruct step.
Qed.

Lemma spawn_config_failure_witness :
  exists e,
    spawn X0 spawnIOBadConfig s0
    = Throws (Exc (SpawnException
                     (finalize X0 (addPreloaderAnnotations s0 e))))
        (tick (setLastUsed 1700000000000000 s0))
    /\ getFirstFailedStep (journey e) = SPAWNING_KIT_PREPARATION
    /\ stepState (journeyOf s0) SPAWNING_KIT_PREPARATION
       = Some STEP_IN_PROGRESS.
Proof.
  destruct (spawn_config_failure X0 spawnIOBadConfig s0
              (RuntimeException "app root is not a directory")
              eq_refl eq_refl eq_refl ltac:(discriminate))
    as (e & Hrun & _ & _ & Hfirst & _).
  exists e. split; [exact Hrun|]. split; [exact Hfirst|reflexivity].
Defined.

Lemma double_crash_gives_up_witness :
  exists e s',
    invokeForkCommand X0 ioCrashInConnect stopQuietly
      (StartOk 4243 "unix:/tmp/psg2.sock" ∅) ioCrashInConnect stopQuietly s0
    = Throws (Exc (SpawnException e)) s'
    /\ pid s' = -1.
Proof.
  destruct (double_crash_gives_up X0 ioCrashInConnect stopQuietly
              4243 "unix:/tmp/psg2.sock" ∅ ioCrashInConnect stopQuietly s0
              (SystemException "Connection refused" 111)
              (SystemException "Connection refused" 111)
              eq_refl eq_refl eq_refl eq_refl eq_refl eq_refl I eq_refl
              ltac:(discriminate) eq_refl I eq_refl)
    as (e & s' & Hrun & _ & _ & Hpid & _).
  eexists _, s'. split; [exact Hrun|exact Hpid].
Defined.

End SmartSpawnerExtra.

(** ** Further properties of SpawnEnvSetupperMain.cpp *)

Module SpawnEnvSetupperExtra.
Import Journey SpawnEnvSetupper SetupperSpec Scenarios SpawnEnvSetupperFacts.

Lemma setDefaultEnvvars_lookup (a : Args) (env : Environ) (k : string) :
  setDefaultEnvvars a env !! k
  = if bool_decide (k = "PYTHONUNBUFFERED") then Some "1"
    else if bool_decide (k = "NODE_PATH") then Some (node_libdir a)
    else if bool_decide (k ∈ appEnvKeys) then Some (app_env a)
    else if bool_decide (k = "PORT") then
      match expected_start_port a with
      | Some port => Some (toString port)
      | None => env !! k
      end
    else if bool_decide (k ∈ baseUriKeys) then
      if String.eqb (base_uri a) "/" then None else Some (base_uri a)
    else env !! k.
Proof.
  unfold setDefaultEnvvars, appEnvKeys, baseUriKeys.
  destruct (expected_start_port a), (String.eqb (base_uri a) "/");
    cbn [negb]; rewrite ?setenv_valid, ?unsetenv_valid by reflexivity;
    repeat (case_bool_decide;
            [match goal with
             | H : k = _ |- _ => subst k; by simplify_map_eq
             | H : k ∈ _ |- _ =>
                 repeat (apply elem_of_cons in H as [->|H];
                         [by simplify_map_eq|]);
                 by apply elem_of_nil in H
             end|]);
    repeat match goal with
           | H : _ ∉ _ :: _ |- _ => apply not_elem_of_cons in H as [? H]
           end;
    by simplify_map_eq.
Qed.

(** X24.  setDefaultEnvvars leaves every variable alone other than
    PYTHONUNBUFFERED, NODE_PATH, the five app-env variables, PORT and the
    three base-URI variables, and calling it twice with the same arguments
    gives the same environment as calling it once. *)
Theorem setDefaultEnvvars_frame_and_idempotence (a : Args) (env : Environ) :
  (forall k, k ∉ defaultKeys -> setDefaultEnvvars a env !! k = env !! k)
  /\ setDefaultEnvvars a (setDefaultEnvvars a env) = setDefaultEnvvars a env.
Proof.
  split.
  - intros k Hk. rewrite setDefaultEnvvars_lookup.
    unfold defaultKeys, appEnvKeys, baseUriKeys in *. cbn [app] in Hk.
    repeat (case_bool_decide;
            [exfalso; apply Hk;
             match goal with
             | H : k = _ |- _ =>
                 subst k;
                 by repeat first [ apply list_elem_of_here
                                 | apply list_elem_of_further ]
             | H : k ∈ _ |- _ =>
                 repeat (apply elem_of_cons in H as [->|H];
                         [by repeat first [ apply list_elem_of_here
                                          | apply list_elem_of_further ]|]);
                 by apply elem_of_nil in H
             end|]).
    reflexivity.
  - apply map_eq. intros k. rewrite !setDefaultEnvvars_lookup.
    repeat case_bool_decide; try done. by destruct (expected_start_port a).
Qed.

Lemma switchGroup_failure_is_fatal_witness :
  exists before message,
    (switchGroup groupIOSetgidDenied contextExample 1000 (Some appUser) 1000).1
    = (before ++
       [ RecordJourneyStepComplete
           SUBPROCESS_SPAWN_ENV_SETUPPER_BEFORE_SHELL STEP_ERRORED;
         RecordErrorCategory OPERATING_SYSTEM_ERROR;
         PrintError message; RecordErrorSummary message;
         RecordAdvancedProblemDetails message ])%list.
Proof.
  exact (proj2 (switchGroup_failure_is_fatal groupIOSetgidDenied
                  contextExample 1000 (Some appUser) 1000 1 eq_refl)).
Defined.

Lemma switchGroup_falls_back_to_initgroups_witness :
  switchGroup groupIOWithoutGetgrouplist contextExample 1000 (Some appUser)
    1000
  = ([ Initgroups "app" 1000; Setgid 1000 ], inr tt).
Proof.
  exact (switchGroup_falls_back_to_initgroups groupIOWithoutGetgrouplist
           contextExample 1000 appUser 1000 (or_introl eq_refl) eq_refl
           eq_refl).
Defined.

Lemma setGivenEnvVarsIn_order_witness :
  setGivenEnvVarsIn [("RAILS_ENV", "staging"); ("TZ", "UTC")] ∅
  = setGivenEnvVarsIn [("TZ", "UTC"); ("RAILS_ENV", "staging")] ∅.
Proof.
  apply (setGivenEnvVarsIn_order [("RAILS_ENV", "staging"); ("TZ", "UTC")]
           [("TZ", "UTC"); ("RAILS_ENV", "staging")] ∅).
  - cbn. apply NoDup_cons. split; [|apply NoDup_singleton].
    intros Hin. apply list_elem_of_singleton in Hin. discriminate Hin.
  - apply Permutation_swap.
Defined.

End SpawnEnvSetupperExtra.

Module SpawnEnvSetupperMainFacts.
Import Journey SpawnEnvSetupper SetupperSpec SpawnEnvSetupperMain Scenarios
  SpawnEnvSetupperFacts.
Local Open Scope run_scope.

Lemma rbind_Gives {A B} (m : Run A) (k : A -> Run B) env a :
  ending (m env) = Gives a ->
  rbind m k env
  = mkRan (effects (m env) ++ effects (k a (environ (m env))))%list
      (environ (k a (environ (m env)))) (ending (k a (environ (m env)))).
Proof. unfold rbind. by intros ->. Qed.

Lemma rbind_stops {A B} (m : Run A) (k : A -> Run B) env :
  (forall a, ending (m env) <> Gives a) ->
  effects (rbind m k env) = effects (m env)
  /\ environ (rbind m k env) = environ (m env)
  /\ match ending (m env) with
     | Exits code => ending (rbind m k env) = Exits code
     | Crashes c => ending (rbind m k env) = Crashes c
     | Replaced => ending (rbind m k env) = Replaced
     | Gives _ => False
     end.
Proof.
  unfold rbind. intros H. destruct (ending (m env)) eqn:E; try done.
  by destruct (H a).
Qed.

Lemma liftP_fatal {A} context message env :
  liftP (fatal (A := A) context message) env
  = mkRan
      (Outside <$>
         [ RecordJourneyStepComplete (step context) STEP_ERRORED;
           RecordErrorCategory OPERATING_SYSTEM_ERROR;
           PrintError message; RecordErrorSummary message;
           RecordAdvancedProblemDetails message ])
      env (Exits 1).
Proof. reflexivity. Qed.

(** X25.  In --before mode with user switching, the shell is taken from
    the passwd entry of the configured user. When that user has no passwd
    entry but looks like a number, and the group lookup does not exit,
    main dereferences the null userInfo; it never goes on to switch group
    or user without a passwd entry. A failed lookup exits with code 1, and
    the environment is not touched. *)
Theorem lookupShell_outcome (io : UserIO) (context : Context)
    (user group : string) (env : Environ) :
  let r := lookupShell io context true user group env in
  environ r = env
  /\ (forall shell found, ending r = Gives (shell, found) ->
      exists info gid,
        getpwnam io user = inr info /\ shell = pw_shell info
        /\ found = Some (pw_uid info, Some info, gid))
  /\ (forall c, ending r = Crashes c <->
      c = UndefinedBehaviour "userInfo->pw_shell"
      /\ (exists e, getpwnam io user = inl e)
      /\ looksLikePositiveNumber io user = true
      /\ ((exists gid, getgrnam io group = inr gid)
          \/ looksLikePositiveNumber io group = true))
  /\ (forall code, ending r = Exits code -> code = 1)
  /\ ending r <> Replaced.
Proof.
  cbv zeta. unfold lookupShell, lookupUserGroup.
  destruct (getpwnam io user) as [e|info];
    [destruct (looksLikePositiveNumber io user)|];
    (destruct (getgrnam io group) as [e'|gid];
       [destruct (looksLikePositiveNumber io group)|]);
    cbn; (split; [reflexivity|]);
    (split; [intros shell found H; simplify_eq; eauto|]);
    (split; [intros c; split;
               [intros H; simplify_eq; naive_solver
               |intros (-> & [? ?] & ? & [[? ?]|?]); simplify_eq; done]|]);
    (split; [intros code H; by simplify_eq|done]).
Qed.

Lemma switchGroup_success_trace (io : GroupIO) (context : Context)
    (uid : uid_t) (userInfo : option passwd) (gid : gid_t) :
  (switchGroup io context uid userInfo gid).2 = inr tt ->
  exists before,
    (switchGroup io context uid userInfo gid).1 = (before ++ [Setgid gid])%list
    /\ setgid_errno io = None
    /\ match userInfo with
       | None => before = []
       | Some u =>
           before = [ Initgroups (pw_name u) gid ]
           \/ before = [ Getgrouplist (pw_name u) gid 1024;
                         Initgroups (pw_name u) gid ]
           \/ before = [ Getgrouplist (pw_name u) gid 1024;
                         Setgroups (getgrouplist_ngroups io)
                           (new_gid_array io (getgrouplist_ngroups io)) ]
       end.
Proof.
  unfold switchGroup.
  destruct userInfo as [u|]; [destruct (hasGetgrouplist io)|];
    repeat case_bool_decide;
    destruct (setgroups_errno io), (initgroups_errno io), (setgid_errno io);
    cbn; intros Hrun; try discriminate Hrun;
    first [ by eexists []; eauto
          | by eexists [_]; eauto
          | by eexists [_; _]; eauto 6 ].
Qed.

(** X26.  switchGroup followed by switchUser calls setuid only directly
    after a successful setgid, exactly once and with the uid it was given;
    when the group switch fails setuid is never called. When setuid fails
    the process exits with code 1 and the environment is unchanged; when
    it succeeds USER, LOGNAME, SHELL and HOME are set from the passwd
    entry, or unset when there is none. *)
Theorem setuid_only_after_group_switch (gio : GroupIO) (io : UserIO)
    (context : Context) (uid : uid_t) (userInfo : option passwd)
    (gid : gid_t) (env : Environ) :
  let g := switchGroup gio context uid userInfo gid in
  let r := switchGroupAndUser gio io context uid userInfo gid env in
  match g.2 with
  | inl code =>
      r = mkRan (Outside <$> g.1) env (Exits code)
      /\ forall u, Setuid u ∉ effects r
  | inr _ =>
      (exists before,
         g.1 = (before ++ [Setgid gid])%list
         /\ (forall u, Setuid u ∉ Outside <$> before)
         /\ exists after,
              effects r
              = ((Outside <$> before)
                 ++ [Outside (Setgid gid); Setuid uid] ++ after)%list
              /\ forall u, Setuid u ∉ after)
      /\ match setuid_errno io with
         | Some e => ending r = Exits 1 /\ environ r = env
         | None =>
             ending r = Gives tt
             /\ environ r
                = match userInfo with
                  | Some u =>
                      <["HOME" := pw_dir u]>
                        (<["SHELL" := pw_shell u]>
                           (<["LOGNAME" := pw_name u]>
                              (<["USER" := pw_name u]> env)))
                  | None =>
                      delete "HOME"
                        (delete "SHELL" (delete "LOGNAME" (delete "USER" env)))
                  end
         end
  end.
Proof.
  cbv zeta.
  assert (Hno : forall (l : list Action) u, Setuid u ∉ Outside <$> l).
  { intros l u Hin. apply list_elem_of_fmap in Hin as (a & Ha & _).
    discriminate Ha. }
  pose proof (switchGroup_success_trace gio context uid userInfo gid) as Hok.
  unfold switchGroupAndUser, switchUser.
  destruct (switchGroup gio context uid userInfo gid) as [t [code|[]]];
    cbn [fst snd] in *.
  { split; [reflexivity|]. intros u. apply Hno. }
  destruct (Hok eq_refl) as (before & -> & _ & _). clear Hok.
  destruct (setuid_errno io) as [e|].
  - split; [|done]. exists before. split; [done|]. split; [apply Hno|].
    cbn -[setenv unsetenv]. eexists. split.
    + rewrite fmap_app, <- !app_assoc. cbn. reflexivity.
    + intros u. apply (Hno [_; _; _; _; _]).
  - split.
    + exists before. split; [done|]. split; [apply Hno|]. exists [].
      split; [|intros u Hin; by apply elem_of_nil in Hin].
      destruct userInfo; cbn -[setenv unsetenv];
        by rewrite fmap_app, <- !app_assoc.
    + destruct userInfo; cbn -[setenv unsetenv];
        rewrite ?setenv_valid, ?unsetenv_valid by reflexivity; done.
Qed.

Lemma joinComponents_snoc components component :
  joinComponents (components ++ [component])
  = joinComponents components ++ "/" ++ component.
Proof. unfold joinComponents. by rewrite foldl_app. Qed.

Lemma append_slash_nonempty (a c : string) : a ++ "/" ++ c <> EmptyString.
Proof. by destruct a. Qed.

Lemma parentOf_no_slash path : containsSlash path = false -> parentOf path = None.
Proof.
  induction path as [|c rest IH]; [done|]. cbn [parentOf containsSlash].
  intros [Hc Hrest]%orb_false_elim. by rewrite (IH Hrest), Hc.
Qed.

Lemma parentOf_append a c :
  containsSlash c = false -> parentOf (a ++ "/" ++ c) = Some a.
Proof.
  intros Hc. induction a as [|x a IH].
  - change (parentOf (String slash c) = Some EmptyString).
    cbn [parentOf]. rewrite (parentOf_no_slash c Hc).
    by rewrite Ascii.eqb_refl.
  - change (parentOf (String x (a ++ "/" ++ c)) = Some (String x a)).
    cbn [parentOf]. by rewrite IH.
Qed.

Lemma parentOf_append_is_Some a c : is_Some (parentOf (a ++ "/" ++ c)).
Proof.
  induction a as [|x a IH].
  - change (is_Some (parentOf (String slash c))).
    cbn [parentOf]. rewrite Ascii.eqb_refl. by destruct (parentOf c).
  - change (is_Some (parentOf (String x (a ++ "/" ++ c)))).
    cbn [parentOf]. destruct IH as [p ->]. by eexists.
Qed.

Lemma inferAllParentDirectories_inv split path dirs :
  inferAllParentDirectories split path = inr dirs ->
  exists components,
    split path = EmptyString :: components
    /\ dirs = (fun i => joinComponents (take (S i) components))
              <$> seq 0 (length components)
    /\ last dirs = Some path.
Proof.
  unfold inferAllParentDirectories.
  destruct (split path) as [|front components]; [done|].
  destruct (String.eqb_spec front EmptyString) as [->|]; [|done]. cbn [negb].
  set (result := _ <$> seq 0 (length components)).
  assert (Hresult : result
            = (fun i => joinComponents (take (S i) components))
              <$> seq 0 (length components)).
  { apply list_fmap_ext. intros i k Hi.
    apply lookup_seq in Hi as [-> Hlt]. cbn [Nat.add].
    destruct (lookup_lt_is_Some_2 components i Hlt) as [c Hc].
    rewrite (take_S_r _ _ _ Hc), joinComponents_snoc.
    by rewrite (proj2 (String.eqb_neq _ _) (append_slash_nonempty _ _)). }
  rewrite Hresult. clear result Hresult.
  destruct (last _) as [back|] eqn:Hlast; [|done].
  destruct (String.eqb_spec back path) as [->|]; [|done].
  intros [= <-]. eauto.
Qed.

(** X27.  When inferAllParentDirectories returns, it has one directory per
    path component, each the join of the components so far (none is empty,
    so the substitution of / for an empty path never applies), the last
    one being the path itself; provided no component contains a slash, the
    parent that setCurrentWorkingDirectory computes with strrchr for each
    directory is the previous directory of the list, and the empty string
    for the first. *)
Theorem inferAllParentDirectories_spec (split : string -> list string)
    (path : string) (dirs : list string) :
  inferAllParentDirectories split path = inr dirs ->
  last dirs = Some path
  /\ S (length dirs) = length (split path)
  /\ (forall i d, dirs !! i = Some d ->
      d = joinComponents (take (S i) (tail (split path)))
      /\ d <> EmptyString)
  /\ ((forall c, c ∈ tail (split path) -> containsSlash c = false) ->
      forall i d, dirs !! i = Some d ->
      parentOf d
      = Some (match i with
              | O => EmptyString
              | S j => default EmptyString (dirs !! j)
              end)).
Proof.
  intros (components & Hsplit & -> & Hlast)%inferAllParentDirectories_inv.
  rewrite Hsplit. cbn [tail length].
  assert (Hat : forall i d,
            ((fun i => joinComponents (take (S i) components))
               <$> seq 0 (length components)) !! i = Some d ->
            exists c, components !! i = Some c
              /\ d = joinComponents (take i components) ++ "/" ++ c
              /\ d = joinComponents (take (S i) components)).
  { intros i d Hi. rewrite list_lookup_fmap in Hi.
    destruct (seq 0 (length components) !! i) as [k|] eqn:Hk; [|done].
    apply lookup_seq in Hk as [-> Hlt]. cbn in Hi. injection Hi as <-.
    destruct (lookup_lt_is_Some_2 components i Hlt) as [c Hc].
    exists c. split; [done|].
    by rewrite (take_S_r _ _ _ Hc), joinComponents_snoc. }
  split; [exact Hlast|]. split; [by rewrite length_fmap, length_seq|].
  split.
  - intros i d Hi. destruct (Hat i d Hi) as (c & _ & Hd & Hd').
    split; [exact Hd'|]. rewrite Hd. apply append_slash_nonempty.
  - intros Hclean i d Hi. destruct (Hat i d Hi) as (c & Hc & -> & _).
    rewrite parentOf_append by (apply Hclean; by eapply list_elem_of_lookup_2).
    f_equal. destruct i as [|j]; [done|].
    rewrite list_lookup_fmap.
    assert (Hlt : (j < length components)%nat).
    { apply lookup_lt_Some in Hc. lia. }
    by rewrite (lookup_seq_lt _ _ _ Hlt).
Qed.

Lemma inferAllParentDirectories_spec_witness :
  inferAllParentDirectories (split cwdIOExample) "/srv/app"
  = inr ["/srv"; "/srv/app"]
  /\ parentOf "/srv" = Some EmptyString
  /\ parentOf "/srv/app" = Some "/srv".
Proof.
  split; [reflexivity|].
  destruct (inferAllParentDirectories_spec (split cwdIOExample) "/srv/app"
              ["/srv"; "/srv/app"] eq_refl) as (_ & _ & _ & Hparent).
  assert (Hclean : forall c, c ∈ tail (split cwdIOExample "/srv/app") ->
                     containsSlash c = false).
  { intros c Hc. cbn in Hc.
    repeat (apply elem_of_cons in Hc as [->|Hc]; [reflexivity|]).
    by apply elem_of_nil in Hc. }
  split.
  - exact (Hparent Hclean 0%nat "/srv" eq_refl).
  - exact (Hparent Hclean 1%nat "/srv/app" eq_refl).
Defined.

Lemma checkDirectory_ok io context appRoot dir env :
  stat_errno io dir = None ->
  checkDirectory io context appRoot dir env = mkRan [Stat dir] env (Gives tt).
Proof. unfold checkDirectory. by intros ->. Qed.

Lemma checkDirectory_fails io context appRoot dir env e :
  stat_errno io dir = Some e -> is_Some (parentOf dir) ->
  exists rest,
    checkDirectory io context appRoot dir env
    = mkRan (Stat dir :: rest) env (Exits 1)
    /\ quiet rest.
Proof.
  unfold checkDirectory. intros -> [parent ->].
  case_bool_decide; cbn; eexists; (split; [reflexivity|]);
    intros p; split; intros Hin;
    repeat (apply elem_of_cons in Hin as [Hin|Hin]; [discriminate Hin|]);
    by apply elem_of_nil in Hin.
Qed.

Lemma checkDirectories_ok io context appRoot dirs env :
  (forall d, d ∈ dirs -> stat_errno io d = None) ->
  checkDirectories io context appRoot dirs env
  = mkRan (Stat <$> dirs) env (Gives tt).
Proof.
  induction dirs as [|dir dirs IH]; intros Hok; [done|].
  cbn [checkDirectories]. unfold rbind.
  rewrite checkDirectory_ok by (apply Hok; left). cbn.
  rewrite IH; [done|]. intros d Hd. apply Hok. by right.
Qed.

Lemma checkDirectories_fails io context appRoot dirs env k d e :
  (forall d, d ∈ dirs -> is_Some (parentOf d)) ->
  dirs !! k = Some d -> stat_errno io d = Some e ->
  (forall d', d' ∈ take k dirs -> stat_errno io d' = None) ->
  exists rest,
    checkDirectories io context appRoot dirs env
    = mkRan ((Stat <$> take (S k) dirs) ++ rest)%list env (Exits 1)
    /\ quiet rest.
Proof.
  revert k. induction dirs as [|dir dirs IH]; intros k Hparent Hk He Hbefore;
    [done|].
  cbn [checkDirectories]. unfold rbind. destruct k as [|k].
  - injection Hk as ->.
    destruct (checkDirectory_fails io context appRoot d env e He)
      as (rest & -> & Hquiet); [apply Hparent; left|].
    cbn. by exists rest.
  - rewrite checkDirectory_ok by (apply Hbefore; left). cbn.
    destruct (IH k) as (rest & -> & Hquiet); try done.
    + intros d' Hd'. apply Hparent. by right.
    + intros d' Hd'. apply Hbefore. by right.
    + cbn. by exists rest.
Qed.

(** X28.  setCurrentWorkingDirectory calls stat on the parent directories
    from the root downwards and stops at the first failure with exit code
    1, without any further stat or chdir and without touching the
    environment. Only when every stat succeeds does it call chdir; when
    chdir succeeds too it sets PWD to the unresolved application root,
    otherwise it exits with code 1 and leaves the environment alone. *)
Theorem setCurrentWorkingDirectory_outcome (io : CwdIO) (context : Context)
    (app_root : string) (env : Environ) (dirs : list string) :
  let appRoot := absolutizePath io app_root in
  let r := setCurrentWorkingDirectory io context app_root env in
  inferAllParentDirectories (split io) appRoot = inr dirs ->
  ((forall d, d ∈ dirs -> stat_errno io d = None) ->
   match chdir_errno io appRoot with
   | None =>
       r = mkRan ((Stat <$> dirs) ++ [Chdir appRoot])%list
             (<["PWD" := appRoot]> env) (Gives tt)
   | Some e =>
       exists rest,
         r = mkRan ((Stat <$> dirs) ++ Chdir appRoot :: rest)%list env (Exits 1)
         /\ quiet rest
   end)
  /\ (forall k d e,
      dirs !! k = Some d -> stat_errno io d = Some e ->
      (forall d', d' ∈ take k dirs -> stat_errno io d' = None) ->
      exists rest,
        r = mkRan ((Stat <$> take (S k) dirs) ++ rest)%list env (Exits 1)
        /\ quiet rest).
Proof.
  cbv zeta. intros Hdirs. unfold setCurrentWorkingDirectory. rewrite Hdirs.
  split.
  - intros Hok.
    destruct (chdir_errno io (absolutizePath io app_root)) as [e|];
      unfold rbind; rewrite checkDirectories_ok by done;
      cbn [ending effects environ].
    + case_bool_decide; [|case_bool_decide]; cbn; eexists;
        (split; [reflexivity|]);
        intros p; split; intros Hin;
        repeat (apply elem_of_cons in Hin as [Hin|Hin]; [discriminate Hin|]);
        by apply elem_of_nil in Hin.
    + unfold changeEnviron, eff. cbn [ending effects environ].
      by rewrite setenv_valid by reflexivity.
  - intros k d e Hk He Hbefore.
    destruct (checkDirectories_fails io context (absolutizePath io app_root)
                dirs env k d e) as (rest & Hrun & Hquiet); try done.
    { intros d' Hd'.
      apply inferAllParentDirectories_inv in Hdirs
        as (components & _ & -> & _).
      apply list_elem_of_fmap in Hd' as (i & -> & Hi).
      apply elem_of_seq in Hi as [_ Hi]. cbn in Hi.
      destruct (lookup_lt_is_Some_2 components i Hi) as [c Hc].
      rewrite (take_S_r _ _ _ Hc), joinComponents_snoc.
      apply parentOf_append_is_Some. }
    exists rest. split; [|exact Hquiet]. unfold rbind. by rewrite Hrun.
Qed.

Lemma setCurrentWorkingDirectory_outcome_witness :
  exists rest,
    setCurrentWorkingDirectory cwdIOExample contextExample "/srv/app" ∅
    = mkRan ([Stat "/srv"; Stat "/srv/app"] ++ rest)%list ∅ (Exits 1)
    /\ quiet rest.
Proof.
  destruct (setCurrentWorkingDirectory_outcome cwdIOExample contextExample
              "/srv/app" ∅ ["/srv"; "/srv/app"] eq_refl) as [_ Hfail].
  apply (Hfail 1%nat "/srv/app" 13 eq_refl eq_refl).
  intros d Hd. cbn in Hd. apply list_elem_of_singleton in Hd as ->.
  reflexivity.
Defined.

(** X29.  In --before mode the command that execNextCommand runs, directly
    or as the arguments of a login shell, is the agent with
    spawn-env-setupper, the same work directory and --after, which the
    argument handling of main accepts and turns into --after mode; the
    step recorded as in progress is the OS shell when a login shell is
    used and the after-shell setupper otherwise. The current step is
    recorded as performed before exec is attempted, and when exec fails
    the next step is recorded as errored and the process exits with code
    1. *)
Theorem execNextCommand_reenters_setupper (io : ExecIO) (context : Context)
    (shell : string) (env : Environ) :
  mode context = BEFORE_MODE -> shell <> EmptyString ->
  let argv := (nextCommand io context shell).1 in
  let next := (nextCommand io context shell).2 in
  let agentArgv := [ passenger_agent_path io; "spawn-env-setupper";
                     workDir context; "--after" ] in
  let shellArgv := [ shell; "-lc"; "exec " ++ dq ++ "$@" ++ dq;
                     "SpawnEnvSetupperShell" ] in
  let r := execNextCommand io context shell env in
  contextFromArgv agentArgv
  = inr (workDir context, AFTER_MODE, SUBPROCESS_SPAWN_ENV_SETUPPER_AFTER_SHELL)
  /\ (if shouldLoadShellEnvvars io shell
      then argv = (shellArgv ++ agentArgv)%list /\ next = SUBPROCESS_OS_SHELL
      else argv = agentArgv
           /\ next = SUBPROCESS_SPAWN_ENV_SETUPPER_AFTER_SHELL)
  /\ environ r = env
  /\ match execvp_errno io with
     | None =>
         r = mkRan [ Outside (RecordJourneyStepComplete (step context)
                                STEP_PERFORMED);
                     RecordJourneyStepInProgress next; Execvp argv ] env
               Replaced
     | Some e =>
         ending r = Exits 1
         /\ exists message,
              effects r
              = [ Outside (RecordJourneyStepComplete (step context)
                             STEP_PERFORMED);
                  RecordJourneyStepInProgress next; Execvp argv;
                  Outside (RecordJourneyStepComplete next STEP_ERRORED);
                  Outside (RecordErrorCategory OPERATING_SYSTEM_ERROR);
                  Outside (PrintError message);
                  Outside (RecordErrorSummary message);
                  Outside (RecordAdvancedProblemDetails message) ]
     end.
Proof.
  cbv zeta. intros Hmode Hshell.
  unfold execNextCommand, nextCommand. rewrite Hmode.
  rewrite (proj2 (String.eqb_neq _ _) Hshell).
  split; [reflexivity|].
  destruct (shouldLoadShellEnvvars io shell), (execvp_errno io) as [e|];
    cbn -[String.append]; repeat split; by eexists.
Qed.

Lemma execNextCommand_reenters_setupper_witness :
  contextFromArgv
    (drop 4 (nextCommand execIOExample contextExample "/bin/bash").1)
  = inr ("/tmp/w1", AFTER_MODE, SUBPROCESS_SPAWN_ENV_SETUPPER_AFTER_SHELL)
  /\ ending (execNextCommand execIOExample contextExample "/bin/bash" ∅)
     = Exits 1.
Proof.
  destruct (execNextCommand_reenters_setupper execIOExample contextExample
              "/bin/bash" ∅ eq_refl ltac:(discriminate))
    as (Hargv & _ & _ & Hend & _).
  split; [exact Hargv|exact Hend].
Defined.

End SpawnEnvSetupperMainFacts.
